(** * TPU input validation pass (tpu_validate_inputs.cc)

    A shallow embedding of the TF2XLA TPU bridge input check and the
    properties its specification states about it.

    The pass reads an MLIR module and never changes it.  What it does to the
    outside world is: emit diagnostics, initialise two function-local static
    sets on first use, and signal failure.  The embedding keeps these three
    effects apart: diagnostics are written to an output list, the statics are
    threaded as state, and the verdict is the returned boolean.  A null
    dereference in the C++ is modelled as the computation having no result. *)

From Stdlib Require Import ZArith String Ascii.
From stdpp Require Import base option list strings gmap.

Local Open Scope Z_scope.

(** ** Operation kinds *)

(** [mlir::TypeID] of a registered operation.  The kinds named by the two
    static sets are listed; every other registered kind is [OtherOp]. *)
Inductive TypeID : Type :=
  | ModuleOp
  | GraphOp
  | ReturnOp
  | FuncOp
  | YieldOp
  | IslandOp
  | TPUReplicatedInputOp
  | TPUReplicatedOutputOp
  | TPUPartitionedInputOp
  | TPUPartitionedInputV2Op
  | TPUPartitionedOutputOp
  | TPUPartitionedOutputV2Op
  | TPUReplicateMetadataOp
  | FetchOp
  | ConstOp
  | WhileOp
  | AssertOp
  | IdentityOp
  | StatefulPartitionedCallOp
  | TensorArrayV3Op
  | XlaSetDynamicDimensionSizeOp
  | OtherOp (name : string).

#[global] Instance TypeID_eq_dec : EqDecision TypeID.
Proof. solve_decision. Defined.

Definition TypeID_code (t : TypeID) : nat + string :=
  match t with
  | ModuleOp => inl 0%nat
  | GraphOp => inl 1%nat
  | ReturnOp => inl 2%nat
  | FuncOp => inl 3%nat
  | YieldOp => inl 4%nat
  | IslandOp => inl 5%nat
  | TPUReplicatedInputOp => inl 6%nat
  | TPUReplicatedOutputOp => inl 7%nat
  | TPUPartitionedInputOp => inl 8%nat
  | TPUPartitionedInputV2Op => inl 9%nat
  | TPUPartitionedOutputOp => inl 10%nat
  | TPUPartitionedOutputV2Op => inl 11%nat
  | TPUReplicateMetadataOp => inl 12%nat
  | FetchOp => inl 13%nat
  | ConstOp => inl 14%nat
  | WhileOp => inl 15%nat
  | AssertOp => inl 16%nat
  | IdentityOp => inl 17%nat
  | StatefulPartitionedCallOp => inl 18%nat
  | TensorArrayV3Op => inl 19%nat
  | XlaSetDynamicDimensionSizeOp => inl 20%nat
  | OtherOp name => inr name
  end.

Definition TypeID_decode (c : nat + string) : TypeID :=
  match c with
  | inl 0%nat => ModuleOp
  | inl 1%nat => GraphOp
  | inl 2%nat => ReturnOp
  | inl 3%nat => FuncOp
  | inl 4%nat => YieldOp
  | inl 5%nat => IslandOp
  | inl 6%nat => TPUReplicatedInputOp
  | inl 7%nat => TPUReplicatedOutputOp
  | inl 8%nat => TPUPartitionedInputOp
  | inl 9%nat => TPUPartitionedInputV2Op
  | inl 10%nat => TPUPartitionedOutputOp
  | inl 11%nat => TPUPartitionedOutputV2Op
  | inl 12%nat => TPUReplicateMetadataOp
  | inl 13%nat => FetchOp
  | inl 14%nat => ConstOp
  | inl 15%nat => WhileOp
  | inl 16%nat => AssertOp
  | inl 17%nat => IdentityOp
  | inl 18%nat => StatefulPartitionedCallOp
  | inl 19%nat => TensorArrayV3Op
  | inl 20%nat => XlaSetDynamicDimensionSizeOp
  | inl _ => ModuleOp
  | inr name => OtherOp name
  end.

#[global] Instance TypeID_countable : Countable TypeID.
Proof.
  apply (inj_countable' TypeID_code TypeID_decode).
  intros []; reflexivity.
Defined.

(** [op->getName()]: a registered operation is named by its kind, an
    unregistered one only by the string it was parsed with. *)
Inductive OperationName : Type :=
  | Registered (id : TypeID)
  | Unregistered (name : string).

#[global] Instance OperationName_eq_dec : EqDecision OperationName.
Proof. solve_decision. Defined.

(** ** Types *)

Inductive ElementType : Type :=
  | ResourceType
  | StringType
  | VariantType
  | ControlType
  | IntegerType (width : N)
  | FloatType (width : N).

Inductive MlirType : Type :=
  | Scalar (elem : ElementType)
  | Tensor (elem : ElementType).

#[global] Instance ElementType_eq_dec : EqDecision ElementType.
Proof. solve_decision. Defined.

#[global] Instance MlirType_eq_dec : EqDecision MlirType.
Proof. solve_decision. Defined.

Definition getElementTypeOrSelf (type : MlirType) : ElementType :=
  match type with
  | Scalar elem => elem
  | Tensor elem => elem
  end.

(** ** Operations and the module tree *)

Definition OpId := nat.
Bind Scope nat_scope with OpId.

(** An SSA value is a result of an operation or a block argument; only the
    former has a defining operation. *)
Inductive Value : Type :=
  | OpResultOf (def : OpId) (index : nat)
  | BlockArgument.

#[global] Instance Value_eq_dec : EqDecision Value.
Proof. solve_decision. Defined.

Record OpOperand : Type := mkOperand {
  operand_value : Value;
  operand_type : MlirType
}.

(** A result carries its use list: the owners of its uses, in use-list
    order, one entry per use. *)
Record OpResult : Type := mkResult {
  result_type : MlirType;
  result_uses : list OpId
}.

(** The attributes the pass reads.  [_tpu_replicate] and [device] are string
    attributes when present; [_xla_outside_compilation] is only tested for
    presence.  [is_packed] is read on the replicated and the v2 partitioned
    input, the last three fields on the metadata operation. *)
Record OpData : Type := mkOpData {
  op_id : OpId;
  op_name : OperationName;
  op_parent : option OpId;
  op_operands : list OpOperand;
  op_results : list OpResult;
  attr_tpu_replicate : option string;
  attr_device : option string;
  attr_xla_outside_compilation : bool;
  attr_is_packed : bool;
  attr_num_replicas : Z;
  attr_num_cores_per_replica : Z;
  attr_allow_soft_placement : bool
}.

(** An operation with the operations nested in its regions, in program
    order. *)
#[warnings="-register-all"]
Inductive Operation : Type :=
  | Op (data : OpData) (nested : list Operation).

Definition op_data (op : Operation) : OpData :=
  match op with Op data _ => data end.

Definition op_nested (op : Operation) : list Operation :=
  match op with Op _ nested => nested end.

Definition getName (op : Operation) : OperationName := op_name (op_data op).

Definition getRegisteredInfo (op : Operation) : option TypeID :=
  match getName op with
  | Registered id => Some id
  | Unregistered _ => None
  end.

Definition isa (kind : TypeID) (op : Operation) : bool :=
  match getRegisteredInfo op with
  | Some id => bool_decide (id = kind)
  | None => false
  end.

Definition getOperands (op : Operation) : list OpOperand :=
  op_operands (op_data op).

Definition getOpResults (op : Operation) : list OpResult :=
  op_results (op_data op).

Definition getResultTypes (op : Operation) : list MlirType :=
  map result_type (getOpResults op).

(** [Operation::walk], post-order: the nested operations first, the operation
    itself last. *)
Fixpoint walk (op : Operation) : list Operation :=
  match op with
  | Op _ nested => flat_map walk nested ++ [op]
  end.

(** The module the pass runs on is the context in which an operation id
    denotes an operation.  In a module as MLIR builds it every id that occurs
    in an operand, a use list or a parent link denotes one. *)
Definition lookupOp (module : Operation) (id : OpId) : option Operation :=
  find (fun o => bool_decide (op_id (op_data o) = id)) (walk module).

(** [op->getParentOp()]; null for the top-level operation. *)
Definition getParentOp (module op : Operation) : option Operation :=
  match op_parent (op_data op) with
  | Some id => lookupOp module id
  | None => None
  end.

(** [value.getDefiningOp()]; null for a block argument. *)
Definition getDefiningOp (module : Operation) (v : Value) : option Operation :=
  match v with
  | OpResultOf def _ => lookupOp module def
  | BlockArgument => None
  end.

(** The owners of the uses of a result, in the order of the use list. *)
Definition getUsers (module : Operation) (result : OpResult) : list Operation :=
  omap (lookupOp module) (result_uses result).

(** ** Diagnostics *)

Inductive Severity : Type :=
  | Error
  | Warning.

(** The text [errormsg()] that [CheckTpuReplicateAttr] splices into its
    diagnostics: which replicated operation has which neighbour. *)
Inductive NeighbourContext : Type :=
  | HasSuccessor (rep succ : OperationName)
  | HasPredecessor (rep pred : OperationName).

(** One constructor per [emitOpError] / [emitWarning] in the file, with the
    values streamed into the message. *)
Inductive Message : Type :=
  | MissingTpuReplicateAttr (errormsg : NeighbourContext)
  | InvalidTpuReplicateAttr (errormsg : NeighbourContext)
      (expected : option string) (actual : string)
  | ReplicatedInputPackedNotOne (num_replicas arity : Z)
  | ReplicatedInputsInconsistent (num_replicas arity : Z)
  | ReplicatedOutputsInconsistent (num_replicas arity : Z)
  | PartitionedInputsInconsistent (num_cores_per_replica arity : Z)
  | PartitionedInputV2PackedNotOne (num_cores_per_replica arity : Z)
  | PartitionedInputV2Inconsistent (num_cores_per_replica arity : Z)
  | PartitionedOutputsInconsistent (num_cores_per_replica arity : Z)
  | SuccessorIsNonClusterOp (parent : OperationName) (cluster : string)
      (succ : OperationName)
  | MismatchedClusters (parent : OperationName) (cluster : string)
      (succ : OperationName) (cluster_succ : string)
  | NonClusterInvalidSuccessor (parent succ : OperationName)
  | NonClusterInvalidPredecessor (parent pred : OperationName)
  | EmptyTpuReplicateAttr (op : OperationName)
  | BothXlaAndNonXla.

(** A diagnostic is attached to the operation it was emitted on. *)
Record Diagnostic : Type := mkDiagnostic {
  diag_severity : Severity;
  diag_op : OpId;
  diag_message : Message
}.

#[global] Instance Severity_eq_dec : EqDecision Severity.
Proof. solve_decision. Defined.

#[global] Instance NeighbourContext_eq_dec : EqDecision NeighbourContext.
Proof. solve_decision. Defined.

#[global] Instance Message_eq_dec : EqDecision Message.
Proof. solve_decision. Defined.

#[global] Instance Diagnostic_eq_dec : EqDecision Diagnostic.
Proof. solve_decision. Defined.

Definition is_error (d : Diagnostic) : bool :=
  bool_decide (diag_severity d = Error).

(** ** The effects of the pass *)

(** The two function-local statics: whether the set of [IsTpuRegularOp] and
    the set of [IsIntersectionXlaNonXlaOps] have been constructed.  Their
    contents are fixed by the initialiser, so the flag is all the state
    there is. *)
Record Statics : Type := mkStatics {
  regular_ops_constructed : bool;
  intersection_ops_constructed : bool
}.

Definition fresh_statics : Statics := mkStatics false false.

(** A computation starts from the statics, and either has no result (a null
    pointer was dereferenced) or returns a value, the diagnostics it emitted
    in order, and the statics it leaves behind. *)
Definition M (A : Type) : Type := Statics -> option (A * list Diagnostic * Statics).

Definition ret {A} (a : A) : M A := fun s => Some (a, [], s).

Definition bind {A B} (c : M A) (k : A -> M B) : M B :=
  fun s =>
    match c s with
    | None => None
    | Some (a, d1, s1) =>
        match k a s1 with
        | None => None
        | Some (b, d2, s2) => Some (b, d1 ++ d2, s2)
        end
    end.

Definition null_dereference {A} : M A := fun _ => None.

Definition emit (d : Diagnostic) : M unit := fun s => Some (tt, [d], s).

Declare Scope pass_scope.
Delimit Scope pass_scope with pass.
Notation "x <- c ;; k" := (bind c (fun x => k))
  (at level 100, c at next level, right associativity) : pass_scope.
Notation "c ;; k" := (bind c (fun _ => k))
  (at level 100, right associativity) : pass_scope.
Local Open Scope pass_scope.

Definition emitOpError (op : Operation) (msg : Message) : M unit :=
  emit (mkDiagnostic Error (op_id (op_data op)) msg).

Definition emitWarning (op : Operation) (msg : Message) : M unit :=
  emit (mkDiagnostic Warning (op_id (op_data op)) msg).

(** [if (!check) return false; rest]: the shape of every call of one checker
    by another. *)
Definition require (check : M bool) (rest : M bool) : M bool :=
  ok <- check ;;
  if ok : bool then rest else ret false.

Notation "'ensure' c ;; k" := (require c k)
  (at level 100, c at next level, right associativity) : pass_scope.

(** A range-for whose body can [return false]: the body answers whether the
    function is still running; when the loop runs out, [rest] follows. *)
Fixpoint for_each {A} (body : A -> M bool) (xs : list A) (rest : M bool) : M bool :=
  match xs with
  | [] => rest
  | x :: xs' => ensure body x ;; for_each body xs' rest
  end.

(** ** The classification sets

    The set [ops] of [IsTpuRegularOp] lists the kinds that are NOT regular,
    the set [ops] of [IsIntersectionXlaNonXlaOps] the kinds the source calls
    the intersection of XLA and non-XLA operations. *)

Definition IsTpuRegularOp_ops : gset TypeID :=
  {[ ModuleOp; GraphOp; ReturnOp; FuncOp; YieldOp; IslandOp;
     TPUReplicatedInputOp; TPUReplicatedOutputOp; TPUPartitionedInputOp;
     TPUPartitionedInputV2Op; TPUPartitionedOutputOp;
     TPUPartitionedOutputV2Op; TPUReplicateMetadataOp; FetchOp ]}.

Definition IsIntersectionXlaNonXlaOps_ops : gset TypeID :=
  {[ ConstOp; WhileOp; AssertOp; IdentityOp; StatefulPartitionedCallOp;
     TensorArrayV3Op; XlaSetDynamicDimensionSizeOp ]}.

(** [static auto* ops = [] { ... }();] in [IsTpuRegularOp]. *)
Definition IsTpuRegularOp_static : M (gset TypeID) :=
  fun s => Some (IsTpuRegularOp_ops, [],
                 mkStatics true (intersection_ops_constructed s)).

(** The same in [IsIntersectionXlaNonXlaOps]. *)
Definition IsIntersectionXlaNonXlaOps_static : M (gset TypeID) :=
  fun s => Some (IsIntersectionXlaNonXlaOps_ops, [],
                 mkStatics (regular_ops_constructed s) true).

Definition IsTpuRegularOp (op : Operation) : M bool :=
  ops <- IsTpuRegularOp_static ;;
  match getRegisteredInfo op with
  | None => ret true
  | Some abstractOp => ret (bool_decide (abstractOp ∉ ops))
  end.

Definition IsIntersectionXlaNonXlaOps (op : Operation) : M bool :=
  ops <- IsIntersectionXlaNonXlaOps_static ;;
  match getRegisteredInfo op with
  | None => ret true
  | Some abstractOp => ret (bool_decide (abstractOp ∉ ops))
  end.

(** ** Neighbours *)

(** Gets the successors of an op wrapped in a tf_executor.island: the users
    of the results of its parent. *)
Definition GetSuccessors (module op : Operation) : M (list Operation) :=
  match getParentOp module op with
  | None => null_dereference
  | Some parent => ret (flat_map (getUsers module) (getOpResults parent))
  end.

(** Gets the predecessors of an op wrapped in tf_executor.island: everything
    in the walk of the defining operation of each operand. *)
Definition GetPredecessors (module op : Operation) : list Operation :=
  flat_map
    (fun operand =>
       match getDefiningOp module (operand_value operand) with
       | Some pred => walk pred
       | None => []
       end)
    (getOperands op).

(** ** Arity and propagation checks *)

(** [int n = <64-bit attribute value>]: the low 32 bits, signed. *)
Definition to_int (z : Z) : Z := (z + 2 ^ 31) mod 2 ^ 32 - 2 ^ 31.

Definition getNumReplicas (metadata : Operation) : Z :=
  attr_num_replicas (op_data metadata).

Definition getNumCoresPerReplica (metadata : Operation) : Z :=
  attr_num_cores_per_replica (op_data metadata).

Definition getAllowSoftPlacement (metadata : Operation) : bool :=
  attr_allow_soft_placement (op_data metadata).

Definition getIsPacked (op : Operation) : bool := attr_is_packed (op_data op).

Definition getTpuReplicateAttr (op : Operation) : option string :=
  attr_tpu_replicate (op_data op).

(** [getInputs().size()] and [getOutputs().size()]: the replication and
    partition operations have no operands but their inputs and no results but
    their outputs.  The counts are far below 2^31, so the conversion to [int]
    is the identity. *)
Definition num_inputs (op : Operation) : Z := Z.of_nat (length (getOperands op)).

Definition num_outputs (op : Operation) : Z := Z.of_nat (length (getOpResults op)).

Definition CheckTpuReplicateAttr (op : Operation) (attr : option string)
    (errormsg : NeighbourContext) : M bool :=
  match getTpuReplicateAttr op with
  | None =>
      emitOpError op (MissingTpuReplicateAttr errormsg) ;;
      ret false
  | Some opattr =>
      if bool_decide (Some opattr ≠ attr) then
        emitOpError op (InvalidTpuReplicateAttr errormsg attr opattr) ;;
        ret false
      else ret true
  end.

Definition ValidateReplicatedInput (module rep : Operation) (num_replicas : Z)
    (attr : option string) : M bool :=
  let arity := num_inputs rep in
  if getIsPacked rep && bool_decide (arity ≠ 1) then
    emitOpError rep (ReplicatedInputPackedNotOne num_replicas arity) ;;
    ret false
  else if negb (getIsPacked rep) && bool_decide (arity ≠ num_replicas) then
    emitOpError rep (ReplicatedInputsInconsistent num_replicas arity) ;;
    ret false
  else
    successors <- GetSuccessors module rep ;;
    for_each
      (fun succ =>
         regular <- IsTpuRegularOp succ ;;
         if negb regular then ret true
         else CheckTpuReplicateAttr succ attr
                (HasSuccessor (getName rep) (getName succ)))
      successors
      (ret true).

Definition ValidateReplicatedOutput (module rep : Operation) (num_replicas : Z)
    (attr : option string) : M bool :=
  let arity := num_outputs rep in
  if bool_decide (arity ≠ num_replicas) then
    emitOpError rep (ReplicatedOutputsInconsistent num_replicas arity) ;;
    ret false
  else
    for_each
      (fun pred =>
         regular <- IsTpuRegularOp pred ;;
         if negb regular then ret true
         else CheckTpuReplicateAttr pred attr
                (HasPredecessor (getName rep) (getName pred)))
      (GetPredecessors module rep)
      (ret true).

Definition ValidatePartitionedInput (rep : Operation)
    (num_cores_per_replica : Z) : M bool :=
  let arity := num_inputs rep in
  if bool_decide (arity ≠ num_cores_per_replica) then
    emitOpError rep (PartitionedInputsInconsistent num_cores_per_replica arity) ;;
    ret false
  else ret true.

Definition ValidatePartitionedInputV2 (rep : Operation)
    (num_cores_per_replica : Z) : M bool :=
  let arity := num_inputs rep in
  if getIsPacked rep && bool_decide (arity ≠ 1) then
    emitOpError rep (PartitionedInputV2PackedNotOne num_cores_per_replica arity) ;;
    ret false
  else if negb (getIsPacked rep) && bool_decide (arity ≠ num_cores_per_replica) then
    emitOpError rep (PartitionedInputV2Inconsistent num_cores_per_replica arity) ;;
    ret false
  else ret true.

Definition ValidatePartitionedOutput (rep : Operation)
    (num_cores_per_replica : Z) : M bool :=
  let arity := num_outputs rep in
  if bool_decide (arity ≠ num_cores_per_replica) then
    emitOpError rep (PartitionedOutputsInconsistent num_cores_per_replica arity) ;;
    ret false
  else ret true.

(** [if (auto x = dyn_cast<T>(op)) { if (!validate(x)) return false; }] *)
Definition when_isa (kind : TypeID) (op : Operation) (validate : M bool)
    (rest : M bool) : M bool :=
  if isa kind op then ensure validate ;; rest else rest.

Definition CheckReplicatedIOOp (module op metadata parent : Operation) : M bool :=
  let num_replicas := to_int (getNumReplicas metadata) in
  let num_cores_per_replica := to_int (getNumCoresPerReplica metadata) in
  let tpu_replicate_attr := getTpuReplicateAttr metadata in
  when_isa TPUReplicatedInputOp op
    (ValidateReplicatedInput module op num_replicas tpu_replicate_attr)
  (when_isa TPUReplicatedOutputOp op
    (ValidateReplicatedOutput module op num_replicas tpu_replicate_attr)
  (when_isa TPUPartitionedInputOp op
    (ValidatePartitionedInput op num_cores_per_replica)
  (when_isa TPUPartitionedInputV2Op op
    (ValidatePartitionedInputV2 op num_cores_per_replica)
  (when_isa TPUPartitionedOutputOp op
    (ValidatePartitionedOutput op num_cores_per_replica)
  (when_isa TPUPartitionedOutputV2Op op
    (ValidatePartitionedOutput op num_cores_per_replica)
  (ret true)))))).

(** ** Cluster boundary checks *)

Abbreviation MetadataMap := (gmap string Operation).

(** Checking op which is successor to a cluster op. *)
Definition CheckClusterSuccessors (op : Operation) (cluster : string)
    (parent : Operation) : M bool :=
  let cluster_succ := default "" (getTpuReplicateAttr op) in
  if bool_decide (cluster_succ = "") then
    emitWarning op
      (SuccessorIsNonClusterOp (getName parent) cluster (getName op)) ;;
    ret true
  else if bool_decide (cluster ≠ cluster_succ) then
    emitOpError op
      (MismatchedClusters (getName parent) cluster (getName op) cluster_succ) ;;
    ret false
  else ret true.

(** Called on each successor of a non-cluster op. *)
Definition CheckNonClusterSuccessors (op parent : Operation) : M bool :=
  regular <- IsTpuRegularOp op ;;
  if negb regular then
    if isa TPUReplicatedOutputOp op then
      emitOpError op (NonClusterInvalidSuccessor (getName parent) (getName op)) ;;
      ret false
    else ret true
  else ret true.

(** Called on each predecessor of a non-cluster op. *)
Definition CheckNonClusterPredecessors (op parent : Operation) : M bool :=
  regular <- IsTpuRegularOp op ;;
  if negb regular then
    if isa TPUReplicatedInputOp op then
      emitOpError op (NonClusterInvalidPredecessor (getName parent) (getName op)) ;;
      ret false
    else ret true
  else ret true.

(** [metadata_map[cluster]] where the entry was found to exist; on a missing
    key [operator[]] would hand out a null operation. *)
Definition metadata_at (metadata_map : MetadataMap) (cluster : string)
    (k : Operation -> M bool) : M bool :=
  match metadata_map !! cluster with
  | Some metadata => k metadata
  | None => null_dereference
  end.

(** [is_cluster_op && !IsTpuRegularOp(n) && has_cluster_metadata], evaluated
    left to right. *)
Definition is_replicated_io_of_cluster (is_cluster_op has_cluster_metadata : bool)
    (n : Operation) : M bool :=
  if is_cluster_op then
    regular <- IsTpuRegularOp n ;;
    ret (negb regular && has_cluster_metadata)
  else ret false.

(** [is_cluster_op && IsTpuRegularOp(succ)]. *)
Definition is_regular_of_cluster (is_cluster_op : bool) (succ : Operation) : M bool :=
  if is_cluster_op then IsTpuRegularOp succ else ret false.

(** [if (cond) { if (!check) return false; }] *)
Definition when (cond : M bool) (check : M bool) : M bool :=
  c <- cond ;;
  if c : bool then check else ret true.

(** The body of the loop over the predecessors of [op]. *)
Definition check_predecessor (module op : Operation) (metadata_map : MetadataMap)
    (is_cluster_op : bool) (cluster : string) (pred : Operation) : M bool :=
  let has_cluster_metadata := bool_decide (is_Some (metadata_map !! cluster)) in
  ensure when (is_replicated_io_of_cluster is_cluster_op has_cluster_metadata pred)
           (metadata_at metadata_map cluster
              (fun metadata => CheckReplicatedIOOp module pred metadata op)) ;;
  when (ret (negb is_cluster_op)) (CheckNonClusterPredecessors pred op).

(** The body of the loop over the successors of [op]. *)
Definition check_successor (module op : Operation) (metadata_map : MetadataMap)
    (is_cluster_op : bool) (cluster : string) (succ : Operation) : M bool :=
  let has_cluster_metadata := bool_decide (is_Some (metadata_map !! cluster)) in
  ensure when (is_replicated_io_of_cluster is_cluster_op has_cluster_metadata succ)
           (metadata_at metadata_map cluster
              (fun metadata => CheckReplicatedIOOp module succ metadata op)) ;;
  ensure when (is_regular_of_cluster is_cluster_op succ)
           (CheckClusterSuccessors succ cluster op) ;;
  when (ret (negb is_cluster_op)) (CheckNonClusterSuccessors succ op).

(** [CheckOpsClusterIO] once [is_cluster_op] and [cluster] are set: the two
    loops. *)
Definition CheckOpsClusterIO_neighbours (module op : Operation)
    (metadata_map : MetadataMap) (is_cluster_op : bool) (cluster : string) : M bool :=
  for_each (check_predecessor module op metadata_map is_cluster_op cluster)
    (GetPredecessors module op)
    (successors <- GetSuccessors module op ;;
     for_each (check_successor module op metadata_map is_cluster_op cluster)
       successors
       (ret true)).

Definition CheckOpsClusterIO (module op : Operation)
    (metadata_map : MetadataMap) : M bool :=
  match getTpuReplicateAttr op with
  | Some cluster =>
      if bool_decide (cluster = "") then
        emitOpError op (EmptyTpuReplicateAttr (getName op)) ;;
        ret false
      else CheckOpsClusterIO_neighbours module op metadata_map true cluster
  | None => CheckOpsClusterIO_neighbours module op metadata_map false ""
  end.

(** ** Type constraints *)

(** [absl::StrContains]. *)
Fixpoint StrContains (haystack needle : string) : bool :=
  String.prefix needle haystack ||
  match haystack with
  | EmptyString => false
  | String _ rest => StrContains rest needle
  end.

Section TypeConstraints.

(** [tensorflow::TypeValidForXLA] and [TF::kTpuDevice] are declared in
    headers of the repository that are not part of the pass's own file;
    the pass is verified for any such predicate and device substring. *)
Variable TypeValidForXLA : MlirType -> bool.
Variable kTpuDevice : string.

Definition InTypeMustBeNonXLA (type : MlirType) : bool :=
  let elem := getElementTypeOrSelf type in
  negb (bool_decide (elem = ResourceType)) && negb (TypeValidForXLA type).

(** Check if the op cannot be XLA compiled. *)
Definition IsMustNotBeXlaOp (op : Operation) : bool :=
  if existsb (fun input => InTypeMustBeNonXLA (operand_type input)) (getOperands op)
  then true
  else if existsb (fun output_types => negb (TypeValidForXLA output_types))
            (getResultTypes op)
  then true
  else false.

(** Check if the op must be compiled with XLA. *)
Definition IsMustBeXlaOp (op : Operation) (metadata_map : MetadataMap) : bool :=
  match getTpuReplicateAttr op with
  | None => false
  | Some cluster =>
      match metadata_map !! cluster with
      | None => false
      | Some metadata =>
          if negb (getAllowSoftPlacement metadata) &&
             negb (attr_xla_outside_compilation (op_data op))
          then true
          else
            match attr_device (op_data op) with
            | Some device => if StrContains device kTpuDevice then true else false
            | None => false
            end
      end
  end.

Definition is_tpu_bookkeeping_op (op : Operation) : bool :=
  isa TPUReplicateMetadataOp op ||
  isa TPUReplicatedInputOp op || isa TPUReplicatedOutputOp op ||
  isa TPUPartitionedInputOp op ||
  isa TPUPartitionedInputV2Op op ||
  isa TPUPartitionedOutputOp op ||
  isa TPUPartitionedOutputV2Op op.

Definition ValidateIntersectionXlaNonXlaOps (op : Operation)
    (metadata_map : MetadataMap) : M bool :=
  if is_tpu_bookkeeping_op op then ret true
  else if IsMustBeXlaOp op metadata_map && IsMustNotBeXlaOp op then
    emitOpError op BothXlaAndNonXla ;;
    ret false
  else ret true.

(** ** The driver *)

(** The first walk: the body runs on every metadata operation and stores it
    under its [_tpu_replicate] string; a later operation with the same
    string replaces an earlier one.  (The counter and the last-seen
    operation the source also updates are never read.) *)
Fixpoint collect_metadata (ops : list Operation) (metadata_map : MetadataMap)
    : M MetadataMap :=
  match ops with
  | [] => ret metadata_map
  | meta :: rest =>
      if isa TPUReplicateMetadataOp meta then
        match getTpuReplicateAttr meta with
        | None => null_dereference
        | Some cluster => collect_metadata rest (<[cluster := meta]> metadata_map)
        end
      else collect_metadata rest metadata_map
  end.

(** The body of the second walk, on the captured [success]: its first
    statement, ... *)
Definition check_cluster_io (module : Operation) (metadata_map : MetadataMap)
    (op : Operation) (success : bool) : M bool :=
  regular <- IsTpuRegularOp op ;;
  if regular : bool then
    ok <- CheckOpsClusterIO module op metadata_map ;;
    ret (success && ok)
  else ret success.

(** ... its second statement, ... *)
Definition check_intersection (metadata_map : MetadataMap)
    (op : Operation) (success : bool) : M bool :=
  candidate <- IsIntersectionXlaNonXlaOps op ;;
  if candidate : bool then
    ok <- ValidateIntersectionXlaNonXlaOps op metadata_map ;;
    ret (success && ok)
  else ret success.

(** ... and the two in sequence. *)
Definition check_op (module : Operation) (metadata_map : MetadataMap)
    (op : Operation) (success : bool) : M bool :=
  success <- check_cluster_io module metadata_map op success ;;
  check_intersection metadata_map op success.

Fixpoint check_ops (module : Operation) (metadata_map : MetadataMap)
    (ops : list Operation) (success : bool) : M bool :=
  match ops with
  | [] => ret success
  | op :: rest =>
      success <- check_op module metadata_map op success ;;
      check_ops module metadata_map rest success
  end.

(** The result is [success]: the pass signals failure exactly when it is
    [false]. *)
Definition runOnOperation (module : Operation) : M bool :=
  metadata_map <- collect_metadata (walk module) ∅ ;;
  success <- check_ops module metadata_map (walk module) true ;;
  ret success.

End TypeConstraints.

(** * Reasoning about computations *)

(** [returns c a d]: from whatever statics it starts, [c] returns [a] after
    emitting exactly the diagnostics [d]. *)
Definition returns {A} (c : M A) (a : A) (d : list Diagnostic) : Prop :=
  ∀ s, ∃ s', c s = Some (a, d, s').

(** The statics a computation has constructed, added to those it found. *)
Definition touch (t s : Statics) : Statics :=
  mkStatics (regular_ops_constructed s || regular_ops_constructed t)
            (intersection_ops_constructed s || intersection_ops_constructed t).

(** [oblivious c]: what [c] returns and emits does not depend on the statics
    it starts from, and all it does to them is construct some. *)
Definition oblivious {A} (c : M A) : Prop :=
  ∃ (r : option (A * list Diagnostic)) (t : Statics),
    ∀ s, c s = match r with
               | Some (a, d) => Some (a, d, touch t s)
               | None => None
               end.


(** [total c]: [c] returns, from whatever statics it starts. *)
Definition total {A} (c : M A) : Prop := ∃ a d, returns c a d.

(** ** The vocabulary of the specification *)

(** The kind of the operation is registered and belongs to [ops]. *)
Definition kind_in (ops : gset TypeID) (op : Operation) : bool :=
  match getRegisteredInfo op with
  | Some id => bool_decide (id ∈ ops)
  | None => false
  end.

Definition unregistered (op : Operation) : bool :=
  bool_decide (getRegisteredInfo op = None).

(** A plain operation is one whose kind is not in the structural set. *)
Definition plain (op : Operation) : bool := negb (kind_in IsTpuRegularOp_ops op).

(** The six replication and partition kinds. *)
Definition replicated_io_kinds : gset TypeID :=
  {[ TPUReplicatedInputOp; TPUReplicatedOutputOp; TPUPartitionedInputOp;
     TPUPartitionedInputV2Op; TPUPartitionedOutputOp; TPUPartitionedOutputV2Op ]}.

(** The operation carries the cluster attribute [attr] of the metadata. *)
Definition carries (attr : option string) (op : Operation) : bool :=
  match getTpuReplicateAttr op with
  | Some opattr => bool_decide (Some opattr = attr)
  | None => false
  end.

(** The list [GetSuccessors] returns when the parent is [parent]. *)
Definition successors_via (module parent : Operation) : list Operation :=
  flat_map (getUsers module) (getOpResults parent).

(** What [CheckTpuReplicateAttr] reports on an operation that does not carry
    [attr]. *)
Definition propagation_diagnostic (op : Operation) (attr : option string)
    (errormsg : NeighbourContext) : Diagnostic :=
  mkDiagnostic Error (op_id (op_data op))
    match getTpuReplicateAttr op with
    | None => MissingTpuReplicateAttr errormsg
    | Some opattr => InvalidTpuReplicateAttr errormsg attr opattr
    end.

(** The diagnostics about a number of inputs or outputs. *)
Definition is_arity_message (msg : Message) : bool :=
  match msg with
  | ReplicatedInputPackedNotOne _ _
  | ReplicatedInputsInconsistent _ _
  | ReplicatedOutputsInconsistent _ _
  | PartitionedInputsInconsistent _ _
  | PartitionedInputV2PackedNotOne _ _
  | PartitionedInputV2Inconsistent _ _
  | PartitionedOutputsInconsistent _ _ => true
  | _ => false
  end.

(** What [ValidateReplicatedInput] reports on a wrong number of inputs. *)
Definition replicated_input_arity_diagnostic (rep : Operation) (num_replicas : Z)
    : Diagnostic :=
  mkDiagnostic Error (op_id (op_data rep))
    (if getIsPacked rep
     then ReplicatedInputPackedNotOne num_replicas (num_inputs rep)
     else ReplicatedInputsInconsistent num_replicas (num_inputs rep)).

(** A successor the propagation check of [rep] fails on. *)
Definition breaks_propagation (attr : option string) (n : Operation) : bool :=
  plain n && negb (carries attr n).

(** An operation the pass can ask the successors of, should it be a
    replicated input. *)
Definition input_has_parent (module n : Operation) : Prop :=
  isa TPUReplicatedInputOp n = true -> is_Some (getParentOp module n).

(** The node is required to be compiled for the accelerator and forbidden
    to be, and is not one of the kinds the validator lets through. *)
Definition type_class_conflict (TypeValidForXLA : MlirType -> bool)
    (kTpuDevice : string) (op : Operation) (metadata_map : MetadataMap) : bool :=
  negb (is_tpu_bookkeeping_op op) &&
  (IsMustBeXlaOp kTpuDevice op metadata_map && IsMustNotBeXlaOp TypeValidForXLA op).

(** What one operation contributes to a run: a verdict and diagnostics that
    do not depend on the verdict so far. *)
Definition contributes (TypeValidForXLA : MlirType -> bool) (kTpuDevice : string)
    (module : Operation) (metadata_map : MetadataMap)
    (op : Operation) (vd : bool * list Diagnostic) : Prop :=
  ∀ success,
    returns (check_op TypeValidForXLA kTpuDevice module metadata_map op success)
      (success && vd.1) vd.2.

(** The metadata map the first walk builds, when it returns. *)
Definition metadata_of (module : Operation) : MetadataMap :=
  match collect_metadata (walk module) ∅ fresh_statics with
  | Some (metadata_map, _, _) => metadata_map
  | None => ∅
  end.

(** The arity rule of the replicated input and of the v2 partitioned input:
    one input when packed, [n] inputs otherwise. *)
Definition packed_arity_ok (rep : Operation) (n : Z) : bool :=
  if getIsPacked rep then bool_decide (num_inputs rep = 1)
  else bool_decide (num_inputs rep = n).

(** The pass dereferences the parent of every operation it asks the
    successors of, and the cluster attribute of every metadata operation.
    In a module as MLIR builds it every operation but the top-level one has a
    parent; the attribute is the one assumption on the input. *)
Definition runnable_op (module op : Operation) : bool :=
  (isa ModuleOp op || bool_decide (is_Some (getParentOp module op))) &&
  (negb (isa TPUReplicateMetadataOp op) ||
   bool_decide (is_Some (getTpuReplicateAttr op))).

Definition runnable (module : Operation) : bool :=
  forallb (runnable_op module) (walk module).

(** ** Consistency of a module

    What MLIR maintains and the pass relies on, as a check that can be run
    on a concrete module: ids name one operation each, parent links follow
    the nesting, and operand lists and use lists describe the same edges. *)

Fixpoint parents_follow_nesting (expected : option OpId) (op : Operation) : bool :=
  match op with
  | Op data nested =>
      bool_decide (op_parent data = expected) &&
      forallb (parents_follow_nesting (Some (op_id data))) nested
  end.

Definition count_uses_by (user : OpId) (result : OpResult) : nat :=
  length (filter (fun u => u = user) (result_uses result)).

Definition count_operands_of (v : Value) (op : Operation) : nat :=
  length (filter (fun operand => operand_value operand = v) (getOperands op)).

Definition operand_consistent (module op : Operation) (operand : OpOperand) : bool :=
  match operand_value operand with
  | BlockArgument => true
  | OpResultOf def index =>
      match lookupOp module def with
      | None => false
      | Some producer =>
          match getOpResults producer !! index with
          | None => false
          | Some result =>
              bool_decide (result_type result = operand_type operand) &&
              bool_decide (count_uses_by (op_id (op_data op)) result =
                           count_operands_of (OpResultOf def index) op)
          end
      end
  end.

Definition use_consistent (module op : Operation) (index : nat) (user : OpId) : bool :=
  match lookupOp module user with
  | None => false
  | Some consumer =>
      existsb
        (fun operand =>
           bool_decide (operand_value operand = OpResultOf (op_id (op_data op)) index))
        (getOperands consumer)
  end.

Definition edges_consistent (module op : Operation) : bool :=
  forallb (operand_consistent module op) (getOperands op) &&
  forallb
    (fun '(index, result) => forallb (use_consistent module op index) (result_uses result))
    (imap pair (getOpResults op)).

Definition consistent (module : Operation) : bool :=
  bool_decide (NoDup (map (fun op => op_id (op_data op)) (walk module))) &&
  parents_follow_nesting None module &&
  isa ModuleOp module &&
  forallb (edges_consistent module) (walk module).

(** ** Verdicts and diagnostics *)

Definition count_errors (d : list Diagnostic) : nat :=
  length (List.filter is_error d).

(** [silent c]: [c] emits nothing. *)
Definition silent {A} (c : M A) : Prop :=
  ∀ s a d s', c s = Some (a, d, s') -> d = [].

(** [reports_verdict c]: a checker that returns [true] has emitted no error,
    one that returns [false] has emitted exactly one. *)
Definition reports_verdict (c : M bool) : Prop :=
  ∀ s b d s', c s = Some (b, d, s') ->
    count_errors d = if b then 0%nat else 1%nat.

(** [accumulates c success]: a statement of the walk body, on the captured
    [success]: what it returns is [success] unless it emitted an error, and
    it emits at most [bound] errors. *)
Definition accumulates (c : M bool) (success : bool) (bound : nat) : Prop :=
  ∀ s b d s', c s = Some (b, d, s') ->
    b = success && bool_decide (count_errors d = 0%nat) /\
    (count_errors d <= bound)%nat.

(** The operations the cluster checks and the type constraint check are made
    on. *)
Definition checked_for_cluster_io (op : Operation) : bool := plain op.

Definition checked_for_type_constraints (op : Operation) : bool :=
  negb (kind_in IsIntersectionXlaNonXlaOps_ops op) && negb (is_tpu_bookkeeping_op op).

Definition error_bound (ops : list Operation) : nat :=
  length (List.filter checked_for_cluster_io ops) +
  length (List.filter checked_for_type_constraints ops).

(** A module none of whose operations carries a cluster attribute or is a
    replicated input or output. *)
Definition tpu_free_op (op : Operation) : bool :=
  bool_decide (getTpuReplicateAttr op = None) &&
  negb (isa TPUReplicatedInputOp op) && negb (isa TPUReplicatedOutputOp op).

Definition tpu_free (module : Operation) : bool :=
  forallb tpu_free_op (walk module).

(** A metadata operation that declares cluster [cluster]. *)
Definition declares (cluster : string) (op : Operation) : bool :=
  isa TPUReplicateMetadataOp op &&
  bool_decide (getTpuReplicateAttr op = Some cluster).

(** A metadata operation without cluster attribute. *)
Definition anonymous_metadata (op : Operation) : bool :=
  isa TPUReplicateMetadataOp op && bool_decide (getTpuReplicateAttr op = None).

(** The validator [CheckReplicatedIOOp] has for each kind of operation. *)
Definition validator_of (kind : option TypeID) (module op metadata : Operation)
    : M bool :=
  let num_replicas := to_int (getNumReplicas metadata) in
  let num_cores_per_replica := to_int (getNumCoresPerReplica metadata) in
  let tpu_replicate_attr := getTpuReplicateAttr metadata in
  match kind with
  | Some TPUReplicatedInputOp =>
      ValidateReplicatedInput module op num_replicas tpu_replicate_attr
  | Some TPUReplicatedOutputOp =>
      ValidateReplicatedOutput module op num_replicas tpu_replicate_attr
  | Some TPUPartitionedInputOp => ValidatePartitionedInput op num_cores_per_replica
  | Some TPUPartitionedInputV2Op => ValidatePartitionedInputV2 op num_cores_per_replica
  | Some TPUPartitionedOutputOp => ValidatePartitionedOutput op num_cores_per_replica
  | Some TPUPartitionedOutputV2Op => ValidatePartitionedOutput op num_cores_per_replica
  | _ => ret true
  end.

(** The metadata with its replication counts changed. *)
Definition with_counts (num_replicas num_cores_per_replica : Z)
    (metadata : Operation) : Operation :=
  Op (mkOpData (op_id (op_data metadata)) (op_name (op_data metadata))
        (op_parent (op_data metadata)) (op_operands (op_data metadata))
        (op_results (op_data metadata)) (attr_tpu_replicate (op_data metadata))
        (attr_device (op_data metadata))
        (attr_xla_outside_compilation (op_data metadata))
        (attr_is_packed (op_data metadata))
        num_replicas num_cores_per_replica
        (attr_allow_soft_placement (op_data metadata)))
     (op_nested metadata).

(** A plain successor in another cluster than [cluster]. *)
Definition mismatched (cluster : string) (succ : Operation) : bool :=
  plain succ &&
  match getTpuReplicateAttr succ with
  | Some cluster_succ =>
      negb (bool_decide (cluster_succ = "")) &&
      negb (bool_decide (cluster = cluster_succ))
  | None => false
  end.

(** The diagnostics of [CheckClusterSuccessors]. *)
Definition is_boundary_message (msg : Message) : bool :=
  match msg with
  | SuccessorIsNonClusterOp _ _ _ | MismatchedClusters _ _ _ _ => true
  | _ => false
  end.

(** The arity rule of each partitioned kind against [n] cores per replica,
    and what is reported when it is broken. *)
Definition partitioned_arity_ok (kind : TypeID) (op : Operation) (n : Z) : bool :=
  match kind with
  | TPUPartitionedInputOp => bool_decide (num_inputs op = n)
  | TPUPartitionedInputV2Op => packed_arity_ok op n
  | _ => bool_decide (num_outputs op = n)
  end.

Definition partitioned_arity_message (kind : TypeID) (op : Operation) (n : Z)
    : Message :=
  match kind with
  | TPUPartitionedInputOp => PartitionedInputsInconsistent n (num_inputs op)
  | TPUPartitionedInputV2Op =>
      if getIsPacked op then PartitionedInputV2PackedNotOne n (num_inputs op)
      else PartitionedInputV2Inconsistent n (num_inputs op)
  | _ => PartitionedOutputsInconsistent n (num_outputs op)
  end.

Definition partitioned_kinds : gset TypeID :=
  {[ TPUPartitionedInputOp; TPUPartitionedInputV2Op; TPUPartitionedOutputOp;
     TPUPartitionedOutputV2Op ]}.

(** ** Neighbours, and what is reported on them *)

(** The operations [CheckOpsClusterIO] looks at from [op]: its predecessors,
    then its successors. *)
Definition neighbours (module op : Operation) : list Operation :=
  GetPredecessors module op ++
  match getParentOp module op with
  | Some parent => successors_via module parent
  | None => []
  end.

(** [emits_only Q c]: every diagnostic [c] emits satisfies [Q]. *)
Definition emits_only {A} (Q : Diagnostic -> Prop) (c : M A) : Prop :=
  ∀ s a d s', c s = Some (a, d, s') -> Forall Q d.

(** An arity diagnostic is an error on [n]. *)
Definition arity_on (n : Operation) (x : Diagnostic) : Prop :=
  is_arity_message (diag_message x) = true ->
  diag_op x = op_id (op_data n) /\ diag_severity x = Error.

(** An arity diagnostic of one step of the loops of [CheckOpsClusterIO], on
    the neighbour [n]: the operation the loops are run for is in a cluster
    that has metadata, and [n] is of one of the six kinds. *)
Definition arity_of_step (metadata_map : MetadataMap) (is_cluster_op : bool)
    (cluster : string) (n : Operation) (x : Diagnostic) : Prop :=
  is_arity_message (diag_message x) = true ->
  is_cluster_op = true /\
  is_Some (metadata_map !! cluster) /\
  kind_in replicated_io_kinds n = true /\
  diag_op x = op_id (op_data n) /\ diag_severity x = Error.

(** [op] delegates the validation of its neighbour [n]: [op] is plain and in
    a cluster that has metadata, and [n] is of one of the six kinds. *)
Definition delegates (module : Operation) (metadata_map : MetadataMap)
    (op n : Operation) : Prop :=
  plain op = true /\
  (∃ cluster, getTpuReplicateAttr op = Some cluster /\ cluster ≠ "" /\
              is_Some (metadata_map !! cluster)) /\
  n ∈ neighbours module op /\
  kind_in replicated_io_kinds n = true.

(** An arity diagnostic of [CheckOpsClusterIO] on [op]. *)
Definition arity_from (module : Operation) (metadata_map : MetadataMap)
    (op : Operation) (x : Diagnostic) : Prop :=
  is_arity_message (diag_message x) = true ->
  ∃ n, delegates module metadata_map op n /\
       diag_op x = op_id (op_data n) /\ diag_severity x = Error.

(** An arity diagnostic of a run: it is an error on an operation whose
    validation an operation of the walk delegated. *)
Definition arity_by_delegation (module : Operation) (metadata_map : MetadataMap)
    (x : Diagnostic) : Prop :=
  is_arity_message (diag_message x) = true ->
  ∃ op n, op ∈ walk module /\ delegates module metadata_map op n /\
          diag_op x = op_id (op_data n) /\ diag_severity x = Error.

(** The message about a successor without cluster attribute, which is
    emitted as a warning. *)
Definition is_absence_message (msg : Message) : bool :=
  match msg with
  | SuccessorIsNonClusterOp _ _ _ => true
  | _ => false
  end.

Definition lenient (x : Diagnostic) : Prop :=
  is_absence_message (diag_message x) = true -> diag_severity x = Warning.



Section Modules.

Variable TypeValidForXLA : MlirType -> bool.
Variable kTpuDevice : string.



(** An operation of a module outside every cluster: it has no conflict of
    type classes; and if it is plain, it carries no cluster attribute, no
    predecessor is a replicated input and no successor a replicated
    output. *)
Definition outside_clusters_op (module op : Operation) : bool :=
  negb (type_class_conflict TypeValidForXLA kTpuDevice op (metadata_of module)) &&
  (negb (plain op) ||
   bool_decide (getTpuReplicateAttr op = None) &&
   negb (existsb (isa TPUReplicatedInputOp) (GetPredecessors module op)) &&
   match getParentOp module op with
   | Some parent =>
       negb (existsb (isa TPUReplicatedOutputOp) (successors_via module parent))
   | None => true
   end).

Definition outside_clusters (module : Operation) : bool :=
  forallb (outside_clusters_op module) (walk module).

End Modules.

(** * Concrete modules *)

(** [tensorflow::TypeValidForXLA] as the TensorFlow utilities define it:
    every type but those of resource and of string elements.  It instantiates
    the predicate in the concrete runs below. *)
Definition TypeValidForXLA_tf (type : MlirType) : bool :=
  let elem := getElementTypeOrSelf type in
  negb (bool_decide (elem = ResourceType)) && negb (bool_decide (elem = StringType)).

Definition i32 : MlirType := Tensor (IntegerType 32).
Definition tf_string : MlirType := Tensor StringType.
Definition control : MlirType := Scalar ControlType.

(** An operation with no attribute set. *)
Definition bare (id : OpId) (kind : TypeID) (parent : option OpId)
    (operands : list OpOperand) (results : list OpResult) : OpData :=
  mkOpData id (Registered kind) parent operands results
    None None false false 0 0 false.

Definition set_cluster (cluster : option string) (d : OpData) : OpData :=
  mkOpData (op_id d) (op_name d) (op_parent d) (op_operands d) (op_results d)
    cluster (attr_device d) (attr_xla_outside_compilation d) (attr_is_packed d)
    (attr_num_replicas d) (attr_num_cores_per_replica d)
    (attr_allow_soft_placement d).

Definition set_packed (packed : bool) (d : OpData) : OpData :=
  mkOpData (op_id d) (op_name d) (op_parent d) (op_operands d) (op_results d)
    (attr_tpu_replicate d) (attr_device d) (attr_xla_outside_compilation d) packed
    (attr_num_replicas d) (attr_num_cores_per_replica d)
    (attr_allow_soft_placement d).

Definition set_replication (num_replicas num_cores_per_replica : Z)
    (allow_soft_placement : bool) (d : OpData) : OpData :=
  mkOpData (op_id d) (op_name d) (op_parent d) (op_operands d) (op_results d)
    (attr_tpu_replicate d) (attr_device d) (attr_xla_outside_compilation d)
    (attr_is_packed d) num_replicas num_cores_per_replica allow_soft_placement.

(** [%r, %c = tf_executor.island wraps "kind"(operands) {attrs}]: an island
    (id [island]) around one operation (id [island + 1]) with one result of
    type [type], and the yield (id [island + 2]) that hands the result to
    the island.  [users] are the owners of the uses of the island's
    result. *)
Definition island_wraps (island : OpId) (kind : TypeID)
    (operands : list OpOperand) (type : MlirType) (users : list OpId)
    (attrs : OpData -> OpData) : Operation :=
  Op (bare island IslandOp (Some 2%nat) []
        [mkResult type users; mkResult control []])
     [ Op (attrs (bare (island + 1) kind (Some island) operands
                    [mkResult type [(island + 2)%nat]])) [];
       Op (bare (island + 2) YieldOp (Some island)
             [mkOperand (OpResultOf (island + 1) 0) type] []) [] ].

(** [module { func { graph { islands; fetch }; return } }] *)
Definition module_of (islands : list Operation) : Operation :=
  Op (bare 0 ModuleOp None [] [])
     [ Op (bare 1 FuncOp (Some 0%nat) [] [])
          [ Op (bare 2 GraphOp (Some 1%nat) [] [])
               (islands ++ [Op (bare 3 FetchOp (Some 2%nat) [] []) []]);
            Op (bare 4 ReturnOp (Some 1%nat) [] []) [] ] ].

(** The metadata of cluster [cluster], in the island with id [island]. *)
Definition metadata_island (island : OpId) (cluster : string)
    (num_replicas num_cores_per_replica : Z) (allow_soft_placement : bool)
    : Operation :=
  island_wraps island TPUReplicateMetadataOp [] control []
    (fun d => set_cluster (Some cluster)
                (set_replication num_replicas num_cores_per_replica
                   allow_soft_placement d)).

Definition block_arguments (n : nat) (type : MlirType) : list OpOperand :=
  replicate n (mkOperand BlockArgument type).

(** An input operation of kind [kind] with [inputs] operands in the island
    with id [island], consumed by the operations with ids [users]. *)
Definition input_island (island : OpId) (kind : TypeID) (inputs : nat)
    (cluster : option string) (packed : bool) (users : list OpId) : Operation :=
  island_wraps island kind (block_arguments inputs i32) i32 users
    (fun d => set_cluster cluster (set_packed packed d)).

(** The operation [kind], in the island with id [island], that consumes the
    results of the islands [producers] and then [arguments]. *)
Definition consumer_island (island : OpId) (kind : TypeID) (producers : list OpId)
    (arguments : list OpOperand) (type : MlirType) (cluster : option string)
    : Operation :=
  island_wraps island kind
    (map (fun p => mkOperand (OpResultOf p 0) i32) producers ++ arguments) type []
    (set_cluster cluster).

(** The operation with id [id], in a module that has one. *)
Definition the_op (module : Operation) (id : OpId) : Operation :=
  default module (lookupOp module id).

Definition tf_Foo : TypeID := OtherOp "tf.Foo".

(** Scenario A of the specification: cluster c1 with two replicas, a
    replicated input with two inputs, consumed by an operation of c1. *)
Definition scenario_A : Operation :=
  module_of
    [ metadata_island 10 "c1" 2 1 false;
      input_island 40 TPUReplicatedInputOp 2 None false [71%nat];
      consumer_island 70 tf_Foo [40%nat] [] i32 (Some "c1") ].

(** An identity on strings inside cluster c1, which does not allow soft
    placement. *)
Definition identity_on_strings : Operation :=
  module_of
    [ metadata_island 10 "c1" 2 1 false;
      consumer_island 70 IdentityOp [] (block_arguments 1 tf_string) tf_string
        (Some "c1") ].

(** The same with an operation outside the intersection set. *)
Definition foo_on_strings : Operation :=
  module_of
    [ metadata_island 10 "c1" 2 1 false;
      consumer_island 70 tf_Foo [] (block_arguments 1 tf_string) tf_string
        (Some "c1") ].

(** A partitioned input that names cluster c2 (two cores per replica) and has
    two inputs, consumed by an operation of cluster c1 (one core per
    replica). *)
Definition cross_cluster : Operation :=
  module_of
    [ metadata_island 10 "c1" 1 1 false;
      metadata_island 13 "c2" 1 2 false;
      input_island 40 TPUPartitionedInputOp 2 (Some "c2") false [71%nat];
      consumer_island 70 tf_Foo [40%nat] [] i32 (Some "c1") ].

(** Two replicated inputs consumed by one operation outside every cluster. *)
Definition two_inputs : Operation :=
  module_of
    [ input_island 40 TPUReplicatedInputOp 1 None false [71%nat];
      input_island 43 TPUReplicatedInputOp 1 None false [71%nat];
      consumer_island 70 tf_Foo [40%nat; 43%nat] [] i32 None ].

(** A replicated input with the two inputs its cluster asks for, consumed by
    an operation of the cluster and by one outside every cluster. *)
Definition unpropagated : Operation :=
  module_of
    [ metadata_island 10 "c1" 2 1 false;
      input_island 40 TPUReplicatedInputOp 2 None false [71%nat; 81%nat];
      consumer_island 70 tf_Foo [40%nat] [] i32 (Some "c1");
      consumer_island 80 tf_Foo [40%nat] [] i32 None ].

(** Scenario A with an empty cluster attribute on the replicated input. *)
Definition empty_on_input : Operation :=
  module_of
    [ metadata_island 10 "c1" 2 1 false;
      input_island 40 TPUReplicatedInputOp 2 (Some "") false [71%nat];
      consumer_island 70 tf_Foo [40%nat] [] i32 (Some "c1") ].

(** The same with the empty attribute on the consumer. *)
Definition empty_on_consumer : Operation :=
  module_of
    [ metadata_island 10 "c1" 2 1 false;
      input_island 40 TPUReplicatedInputOp 2 None false [71%nat];
      consumer_island 70 tf_Foo [40%nat] [] i32 (Some "") ].

(** Cluster c1 with two cores per replica, and a partitioned input with one
    input consumed by an operation outside every cluster. *)
Definition lone_partitioned_input : Operation :=
  module_of
    [ metadata_island 10 "c1" 1 2 false;
      input_island 40 TPUPartitionedInputOp 1 None false [71%nat];
      consumer_island 70 tf_Foo [40%nat] [] i32 None ].

(** A replicated output consuming the
    result of an operation outside every cluster. *)
Definition output_after_plain : Operation :=
  module_of
    [ island_wraps 40 tf_Foo (block_arguments 1 i32) i32 [71%nat] (fun d => d);
      island_wraps 70 TPUReplicatedOutputOp [mkOperand (OpResultOf 40 0) i32] i32 []
        (fun d => d) ].



(** An operation outside every cluster between a partitioned input and a
    partitioned output, in a module whose cluster c1 has two cores per
    replica. *)
Definition between_partitioned : Operation :=
  module_of
    [ metadata_island 10 "c1" 1 2 false;
      input_island 40 TPUPartitionedInputOp 1 None false [71%nat];
      island_wraps 70 tf_Foo [mkOperand (OpResultOf 40 0) i32] i32 [101%nat]
        (fun d => d);
      island_wraps 100 TPUPartitionedOutputOp [mkOperand (OpResultOf 70 0) i32] i32 []
        (fun d => d) ].

(** A metadata operation whose cluster attribute is the empty string, next to
    an operation outside every cluster. *)
Definition empty_on_metadata : Operation :=
  module_of
    [ metadata_island 10 "" 2 1 false;
      consumer_island 70 tf_Foo [] (block_arguments 1 i32) i32 None ].

(** A constant consumed by an operation, no cluster anywhere. *)
Definition no_tpu : Operation :=
  module_of
    [ island_wraps 40 ConstOp [] i32 [71%nat] (fun d => d);
      consumer_island 70 tf_Foo [40%nat] [] i32 None ].

(** Two metadata operations for cluster c1, the first with three replicas, the
    second with two, and Scenario A's input and consumer. *)
Definition duplicate_metadata : Operation :=
  module_of
    [ metadata_island 10 "c1" 3 1 false;
      metadata_island 13 "c1" 2 1 false;
      input_island 40 TPUReplicatedInputOp 2 None false [71%nat];
      consumer_island 70 tf_Foo [40%nat] [] i32 (Some "c1") ].

(** A metadata operation that carries no cluster attribute. *)
Definition metadata_without_cluster : Operation :=
  module_of
    [ island_wraps 10 TPUReplicateMetadataOp [] control []
        (set_replication 2 1 false);
      consumer_island 70 tf_Foo [] (block_arguments 1 i32) i32 None ].

(** An operation of cluster c1 and one outside every cluster, both consumed
    by a replicated output with two results. *)
Definition replicated_output_of_two : Operation :=
  module_of
    [ metadata_island 10 "c1" 2 1 false;
      island_wraps 40 tf_Foo (block_arguments 1 i32) i32 [71%nat]
        (set_cluster (Some "c1"));
      island_wraps 43 tf_Foo (block_arguments 1 i32) i32 [71%nat] (fun d => d);
      Op (bare 70 IslandOp (Some 2%nat) []
            [mkResult i32 []; mkResult i32 []; mkResult control []])
         [ Op (bare 71 TPUReplicatedOutputOp (Some 70%nat)
                 [mkOperand (OpResultOf 40 0) i32; mkOperand (OpResultOf 43 0) i32]
                 [mkResult i32 [72%nat]; mkResult i32 [72%nat]]) [];
           Op (bare 72 YieldOp (Some 70%nat)
                 [mkOperand (OpResultOf 71 0) i32; mkOperand (OpResultOf 71 1) i32]
                 []) [] ] ].

(** An operation of cluster c9, for which there is no metadata, between a
    replicated input with one input and a consumer outside every cluster. *)
Definition cluster_without_metadata : Operation :=
  module_of
    [ metadata_island 10 "c1" 2 1 false;
      input_island 40 TPUReplicatedInputOp 1 None false [71%nat];
      island_wraps 70 tf_Foo [mkOperand (OpResultOf 40 0) i32] i32 [81%nat]
        (set_cluster (Some "c9"));
      consumer_island 80 tf_Foo [70%nat] [] i32 None ].

(** A replicated input with the two inputs of cluster c1, consumed by an
    operation of c1 and by an operation of cluster c2; both clusters have
    metadata. *)
Definition input_of_two_clusters : Operation :=
  module_of
    [ metadata_island 10 "c1" 2 1 false;
      metadata_island 13 "c2" 2 1 false;
      input_island 40 TPUReplicatedInputOp 2 None false [71%nat; 81%nat];
      consumer_island 70 tf_Foo [40%nat] [] i32 (Some "c1");
      consumer_island 80 tf_Foo [40%nat] [] i32 (Some "c2") ].
Lemma touch_fresh s : touch fresh_statics s = s.
Proof. destruct s as [[] []]; reflexivity. Qed.

Lemma touch_touch t1 t2 s : touch t2 (touch t1 s) = touch (touch t2 t1) s.
Proof. destruct s as [[] []], t1 as [[] []], t2 as [[] []]; reflexivity. Qed.

Lemma touch_idem t s : touch t (touch t s) = touch t s.
Proof. destruct s as [[] []], t as [[] []]; reflexivity. Qed.

Lemma returns_ret {A} (a : A) : returns (ret a) a [].
Proof. intros s. exists s. reflexivity. Qed.

Lemma returns_emit d : returns (emit d) tt [d].
Proof. intros s. exists s. reflexivity. Qed.

Lemma returns_bind {A B} (c : M A) (k : A -> M B) a d1 b d2 :
  returns c a d1 -> returns (k a) b d2 -> returns (bind c k) b (d1 ++ d2).
Proof.
  intros Hc Hk s. unfold bind.
  destruct (Hc s) as [s1 ->]. destruct (Hk s1) as [s2 ->]. eauto.
Qed.

Lemma returns_bind_nil {A B} (c : M A) (k : A -> M B) a b d :
  returns c a [] -> returns (k a) b d -> returns (bind c k) b d.
Proof. intros Hc Hk. apply (returns_bind c k a [] b d Hc Hk). Qed.

Lemma returns_inj {A} (c : M A) a1 d1 a2 d2 :
  returns c a1 d1 -> returns c a2 d2 -> a1 = a2 /\ d1 = d2.
Proof.
  intros H1 H2. destruct (H1 fresh_statics) as [s1 E1].
  destruct (H2 fresh_statics) as [s2 E2]. rewrite E1 in E2.
  injection E2 as -> -> _. split; reflexivity.
Qed.

Lemma returns_require_pass (check rest : M bool) d1 b d2 :
  returns check true d1 -> returns rest b d2 ->
  returns (require check rest) b (d1 ++ d2).
Proof.
  intros Hc Hr. unfold require. eapply returns_bind; [exact Hc|exact Hr].
Qed.

Lemma returns_require_fail (check rest : M bool) d :
  returns check false d -> returns (require check rest) false d.
Proof.
  intros Hc. unfold require. rewrite <- (app_nil_r d).
  eapply returns_bind; [exact Hc|apply returns_ret].
Qed.

Lemma returns_when_skip (cond check : M bool) d :
  returns cond false d -> returns (when cond check) true d.
Proof.
  intros Hc. unfold when. rewrite <- (app_nil_r d).
  eapply returns_bind; [exact Hc|apply returns_ret].
Qed.

Lemma returns_when_run (cond check : M bool) d1 b d2 :
  returns cond true d1 -> returns check b d2 ->
  returns (when cond check) b (d1 ++ d2).
Proof.
  intros Hc Hk. unfold when. eapply returns_bind; [exact Hc|exact Hk].
Qed.

(** A loop all of whose iterations pass silently is followed by what comes
    after it. *)
Lemma returns_for_each_pass {A} (body : A -> M bool) xs rest b d :
  (∀ x, x ∈ xs -> returns (body x) true []) ->
  returns rest b d ->
  returns (for_each body xs rest) b d.
Proof.
  intros Hbody Hrest. induction xs as [|x xs IH]; simpl; [exact Hrest|].
  apply (returns_require_pass _ _ [] b d).
  - apply Hbody. left.
  - apply IH. intros y Hy. apply Hbody. right. exact Hy.
Qed.

(** ** Obliviousness, by the shape of the computation *)

Lemma oblivious_ret {A} (a : A) : oblivious (ret a).
Proof.
  exists (Some (a, [])), fresh_statics. intros s. rewrite touch_fresh. reflexivity.
Qed.

Lemma oblivious_emit d : oblivious (emit d).
Proof.
  exists (Some (tt, [d])), fresh_statics. intros s. rewrite touch_fresh. reflexivity.
Qed.

Lemma oblivious_null {A} : oblivious (@null_dereference A).
Proof. exists None, fresh_statics. reflexivity. Qed.

Lemma oblivious_IsTpuRegularOp_static : oblivious IsTpuRegularOp_static.
Proof.
  exists (Some (IsTpuRegularOp_ops, [])), (mkStatics true false).
  intros [[] []]; reflexivity.
Qed.

Lemma oblivious_IsIntersectionXlaNonXlaOps_static : oblivious IsIntersectionXlaNonXlaOps_static.
Proof.
  exists (Some (IsIntersectionXlaNonXlaOps_ops, [])), (mkStatics false true).
  intros [[] []]; reflexivity.
Qed.

Lemma oblivious_bind {A B} (c : M A) (k : A -> M B) :
  oblivious c -> (∀ a, oblivious (k a)) -> oblivious (bind c k).
Proof.
  intros (r & t & Hc) Hk. destruct r as [[a d]|].
  - destruct (Hk a) as (r' & t' & Hka). destruct r' as [[b d']|].
    + exists (Some (b, d ++ d')), (touch t' t). intros s.
      unfold bind. rewrite Hc, Hka, touch_touch. reflexivity.
    + exists None, fresh_statics. intros s.
      unfold bind. rewrite Hc, Hka. reflexivity.
  - exists None, fresh_statics. intros s. unfold bind. rewrite Hc. reflexivity.
Qed.

Lemma oblivious_require (check rest : M bool) :
  oblivious check -> oblivious rest -> oblivious (require check rest).
Proof.
  intros Hc Hr. apply oblivious_bind; [exact Hc|].
  intros []; [exact Hr|apply oblivious_ret].
Qed.

Lemma oblivious_when (cond check : M bool) :
  oblivious cond -> oblivious check -> oblivious (when cond check).
Proof.
  intros Hc Hr. apply oblivious_bind; [exact Hc|].
  intros []; [exact Hr|apply oblivious_ret].
Qed.

Lemma oblivious_for_each {A} (body : A -> M bool) xs rest :
  (∀ x, oblivious (body x)) -> oblivious rest ->
  oblivious (for_each body xs rest).
Proof.
  intros Hbody Hrest. induction xs as [|x xs IH]; simpl; [exact Hrest|].
  apply oblivious_require; [apply Hbody|exact IH].
Qed.

(** An oblivious computation that returns from one state returns the same
    from every state. *)
Lemma oblivious_returns {A} (c : M A) s a d s' :
  oblivious c -> c s = Some (a, d, s') -> returns c a d.
Proof.
  intros (r & t & Hc) E. rewrite Hc in E. destruct r as [[a0 d0]|]; [|discriminate].
  injection E as -> -> _. intros s0. exists (touch t s0). apply Hc.
Qed.

(** Run again from the statics it left behind, it does the same and leaves
    them as they are. *)
Lemma oblivious_rerun {A} (c : M A) s a d s' :
  oblivious c -> c s = Some (a, d, s') -> c s' = Some (a, d, s').
Proof.
  intros (r & t & Hc) E. rewrite Hc in E. destruct r as [[a0 d0]|] eqn:Er; [|discriminate].
  injection E as -> -> <-. rewrite Hc, touch_idem. reflexivity.
Qed.

Lemma oblivious_null_everywhere {A} (c : M A) s :
  oblivious c -> c s = None -> ∀ s', c s' = None.
Proof.
  intros (r & t & Hc) E s'. rewrite Hc in E. destruct r as [[a0 d0]|]; [discriminate|].
  apply Hc.
Qed.

(** A computation either returns or dereferences null, the same from every
    state. *)
Lemma oblivious_cases {A} (c : M A) :
  oblivious c -> (∃ a d, returns c a d) \/ (∀ s, c s = None).
Proof.
  intros (r & t & Hc). destruct r as [[a d]|].
  - left. exists a, d. intros s. exists (touch t s). apply Hc.
  - right. exact Hc.
Qed.

Create HintDb oblivious.
#[local] Hint Resolve oblivious_ret oblivious_emit oblivious_null
  oblivious_IsTpuRegularOp_static oblivious_IsIntersectionXlaNonXlaOps_static : oblivious.

(** Takes an oblivious-goal apart along the combinators and the case
    distinctions of the computation. *)
Ltac oblivious_step :=
  match goal with
  | |- ∀ _, _ => intro
  | |- oblivious (bind _ _) => apply oblivious_bind
  | |- oblivious (require _ _) => apply oblivious_require
  | |- oblivious (when _ _) => apply oblivious_when
  | |- oblivious (for_each _ _ _) => apply oblivious_for_each
  | |- oblivious (if ?b then _ else _) => destruct b
  | |- oblivious (match ?x with _ => _ end) => destruct x
  | |- oblivious _ => solve [auto with oblivious]
  end.

Ltac solve_oblivious := repeat oblivious_step.

Lemma oblivious_emitOpError op msg : oblivious (emitOpError op msg).
Proof. apply oblivious_emit. Qed.

Lemma oblivious_emitWarning op msg : oblivious (emitWarning op msg).
Proof. apply oblivious_emit. Qed.

#[local] Hint Resolve oblivious_emitOpError oblivious_emitWarning : oblivious.

Lemma oblivious_IsTpuRegularOp op : oblivious (IsTpuRegularOp op).
Proof. unfold IsTpuRegularOp. solve_oblivious. Qed.

Lemma oblivious_IsIntersectionXlaNonXlaOps op :
  oblivious (IsIntersectionXlaNonXlaOps op).
Proof. unfold IsIntersectionXlaNonXlaOps. solve_oblivious. Qed.

#[local] Hint Resolve oblivious_IsTpuRegularOp
  oblivious_IsIntersectionXlaNonXlaOps : oblivious.

Lemma oblivious_GetSuccessors module op : oblivious (GetSuccessors module op).
Proof. unfold GetSuccessors. solve_oblivious. Qed.

Lemma oblivious_CheckTpuReplicateAttr op attr errormsg :
  oblivious (CheckTpuReplicateAttr op attr errormsg).
Proof. unfold CheckTpuReplicateAttr. solve_oblivious. Qed.

#[local] Hint Resolve oblivious_GetSuccessors oblivious_CheckTpuReplicateAttr
  : oblivious.

Lemma oblivious_ValidateReplicatedInput module rep num_replicas attr :
  oblivious (ValidateReplicatedInput module rep num_replicas attr).
Proof. unfold ValidateReplicatedInput. solve_oblivious. Qed.

Lemma oblivious_ValidateReplicatedOutput module rep num_replicas attr :
  oblivious (ValidateReplicatedOutput module rep num_replicas attr).
Proof. unfold ValidateReplicatedOutput. solve_oblivious. Qed.

Lemma oblivious_ValidatePartitionedInput rep n :
  oblivious (ValidatePartitionedInput rep n).
Proof. unfold ValidatePartitionedInput. solve_oblivious. Qed.

Lemma oblivious_ValidatePartitionedInputV2 rep n :
  oblivious (ValidatePartitionedInputV2 rep n).
Proof. unfold ValidatePartitionedInputV2. solve_oblivious. Qed.

Lemma oblivious_ValidatePartitionedOutput rep n :
  oblivious (ValidatePartitionedOutput rep n).
Proof. unfold ValidatePartitionedOutput. solve_oblivious. Qed.

#[local] Hint Resolve oblivious_ValidateReplicatedInput
  oblivious_ValidateReplicatedOutput oblivious_ValidatePartitionedInput
  oblivious_ValidatePartitionedInputV2 oblivious_ValidatePartitionedOutput
  : oblivious.

Lemma oblivious_when_isa kind op validate rest :
  oblivious validate -> oblivious rest -> oblivious (when_isa kind op validate rest).
Proof. intros Hv Hr. unfold when_isa. solve_oblivious. Qed.

Lemma oblivious_CheckReplicatedIOOp module op metadata parent :
  oblivious (CheckReplicatedIOOp module op metadata parent).
Proof.
  unfold CheckReplicatedIOOp.
  repeat (apply oblivious_when_isa; [auto with oblivious|]).
  apply oblivious_ret.
Qed.

Lemma oblivious_CheckClusterSuccessors op cluster parent :
  oblivious (CheckClusterSuccessors op cluster parent).
Proof. unfold CheckClusterSuccessors. solve_oblivious. Qed.

Lemma oblivious_CheckNonClusterSuccessors op parent :
  oblivious (CheckNonClusterSuccessors op parent).
Proof. unfold CheckNonClusterSuccessors. solve_oblivious. Qed.

Lemma oblivious_CheckNonClusterPredecessors op parent :
  oblivious (CheckNonClusterPredecessors op parent).
Proof. unfold CheckNonClusterPredecessors. solve_oblivious. Qed.

#[local] Hint Resolve oblivious_CheckReplicatedIOOp
  oblivious_CheckClusterSuccessors oblivious_CheckNonClusterSuccessors
  oblivious_CheckNonClusterPredecessors : oblivious.

Lemma oblivious_check_predecessor module op metadata_map is_cluster_op cluster pred :
  oblivious (check_predecessor module op metadata_map is_cluster_op cluster pred).
Proof.
  unfold check_predecessor, metadata_at, is_replicated_io_of_cluster.
  solve_oblivious.
Qed.

Lemma oblivious_check_successor module op metadata_map is_cluster_op cluster succ :
  oblivious (check_successor module op metadata_map is_cluster_op cluster succ).
Proof.
  unfold check_successor, metadata_at, is_replicated_io_of_cluster,
    is_regular_of_cluster.
  solve_oblivious.
Qed.

#[local] Hint Resolve oblivious_check_predecessor oblivious_check_successor
  : oblivious.

Lemma oblivious_CheckOpsClusterIO_neighbours module op metadata_map is_cluster_op cluster :
  oblivious (CheckOpsClusterIO_neighbours module op metadata_map is_cluster_op cluster).
Proof. unfold CheckOpsClusterIO_neighbours. solve_oblivious. Qed.

Lemma oblivious_CheckOpsClusterIO module op metadata_map :
  oblivious (CheckOpsClusterIO module op metadata_map).
Proof.
  unfold CheckOpsClusterIO.
  solve_oblivious; apply oblivious_CheckOpsClusterIO_neighbours.
Qed.

#[local] Hint Resolve oblivious_CheckOpsClusterIO : oblivious.

Section DriverOblivious.

Variable TypeValidForXLA : MlirType -> bool.
Variable kTpuDevice : string.

Lemma oblivious_ValidateIntersectionXlaNonXlaOps op metadata_map :
  oblivious (ValidateIntersectionXlaNonXlaOps TypeValidForXLA kTpuDevice op metadata_map).
Proof. unfold ValidateIntersectionXlaNonXlaOps. solve_oblivious. Qed.

Lemma oblivious_collect_metadata ops metadata_map :
  oblivious (collect_metadata ops metadata_map).
Proof.
  revert metadata_map. induction ops as [|meta rest IH]; intros metadata_map; simpl.
  - apply oblivious_ret.
  - solve_oblivious; apply IH.
Qed.

Lemma oblivious_check_cluster_io module metadata_map op success :
  oblivious (check_cluster_io module metadata_map op success).
Proof. unfold check_cluster_io. solve_oblivious. Qed.

Lemma oblivious_check_intersection metadata_map op success :
  oblivious (check_intersection TypeValidForXLA kTpuDevice metadata_map op success).
Proof.
  unfold check_intersection. pose proof oblivious_ValidateIntersectionXlaNonXlaOps.
  solve_oblivious.
Qed.

Lemma oblivious_check_op module metadata_map op success :
  oblivious (check_op TypeValidForXLA kTpuDevice module metadata_map op success).
Proof.
  unfold check_op. apply oblivious_bind.
  - apply oblivious_check_cluster_io.
  - intros. apply oblivious_check_intersection.
Qed.

Lemma oblivious_check_ops module metadata_map ops success :
  oblivious (check_ops TypeValidForXLA kTpuDevice module metadata_map ops success).
Proof.
  revert success. induction ops as [|op rest IH]; intros success; simpl.
  - apply oblivious_ret.
  - apply oblivious_bind; [apply oblivious_check_op|exact IH].
Qed.

Lemma oblivious_runOnOperation module :
  oblivious (runOnOperation TypeValidForXLA kTpuDevice module).
Proof.
  unfold runOnOperation. apply oblivious_bind; [apply oblivious_collect_metadata|].
  intros metadata_map. apply oblivious_bind; [apply oblivious_check_ops|].
  intros. apply oblivious_ret.
Qed.

End DriverOblivious.

(** * The module tree *)

Lemma Operation_nested_ind (P : Operation -> Prop) :
  (∀ data nested, Forall P nested -> P (Op data nested)) -> ∀ op, P op.
Proof.
  intros H. fix IH 1. intros [data nested]. apply H.
  revert nested. fix IHnested 1. intros [|o rest]; constructor.
  - apply IH.
  - apply IHnested.
Qed.

Lemma elem_of_flat_map {A B} (f : A -> list B) (l : list A) (y : B) :
  y ∈ flat_map f l <-> ∃ x, x ∈ l /\ y ∈ f x.
Proof.
  rewrite list_elem_of_In, in_flat_map. split.
  - intros (x & Hx & Hy). exists x. rewrite !list_elem_of_In. auto.
  - intros (x & Hx & Hy). exists x. rewrite <- !list_elem_of_In. auto.
Qed.

Lemma walk_self op : op ∈ walk op.
Proof. destruct op. simpl. apply elem_of_app. right. left. Qed.

Lemma walk_nested data nested o :
  o ∈ walk (Op data nested) <->
  (∃ n, n ∈ nested /\ o ∈ walk n) \/ o = Op data nested.
Proof.
  simpl. rewrite elem_of_app, elem_of_flat_map, list_elem_of_singleton. tauto.
Qed.

(** What is nested in an operation of the module is in the module. *)
Lemma walk_trans module o o' :
  o ∈ walk module -> o' ∈ walk o -> o' ∈ walk module.
Proof.
  revert o o'. induction module as [data nested IH] using Operation_nested_ind.
  intros o o' Ho Ho'. apply walk_nested in Ho as [(n & Hn & Ho)| ->].
  - apply walk_nested. left. exists n. split; [exact Hn|].
    rewrite Forall_forall in IH. exact (IH n Hn o o' Ho Ho').
  - exact Ho'.
Qed.

Lemma lookupOp_elem module id o : lookupOp module id = Some o -> o ∈ walk module.
Proof.
  unfold lookupOp. intros H. apply find_some in H as [H _].
  apply list_elem_of_In. exact H.
Qed.

Lemma getUsers_elem module result user :
  user ∈ getUsers module result -> user ∈ walk module.
Proof.
  unfold getUsers. rewrite list_elem_of_omap. intros (id & _ & H).
  exact (lookupOp_elem _ _ _ H).
Qed.

Lemma GetPredecessors_elem module op pred :
  pred ∈ GetPredecessors module op -> pred ∈ walk module.
Proof.
  unfold GetPredecessors. rewrite elem_of_flat_map. intros (operand & _ & H).
  destruct (getDefiningOp module (operand_value operand)) as [def|] eqn:E.
  - apply (walk_trans module def); [|exact H].
    unfold getDefiningOp in E. destruct (operand_value operand); [|discriminate].
    exact (lookupOp_elem _ _ _ E).
  - inversion H.
Qed.

Lemma successors_via_elem module parent succ :
  succ ∈ successors_via module parent -> succ ∈ walk module.
Proof.
  unfold successors_via. rewrite elem_of_flat_map. intros (result & _ & H).
  exact (getUsers_elem _ _ _ H).
Qed.

Lemma returns_GetSuccessors module op parent :
  getParentOp module op = Some parent ->
  returns (GetSuccessors module op) (successors_via module parent) [].
Proof. intros E. unfold GetSuccessors. rewrite E. apply returns_ret. Qed.

(** ** The classifiers *)

Lemma returns_IsTpuRegularOp op : returns (IsTpuRegularOp op) (plain op) [].
Proof.
  intros s. unfold IsTpuRegularOp, plain, kind_in, bind, IsTpuRegularOp_static.
  destruct (getRegisteredInfo op) as [id|]; simpl.
  - eexists. repeat f_equal. unfold IsTpuRegularOp_ops.
    destruct (bool_decide (id ∈ _)) eqn:E.
    + apply bool_decide_eq_true in E. apply bool_decide_eq_false. tauto.
    + apply bool_decide_eq_false in E. apply bool_decide_eq_true. exact E.
  - eexists. reflexivity.
Qed.

Lemma returns_IsIntersectionXlaNonXlaOps op :
  returns (IsIntersectionXlaNonXlaOps op) (negb (kind_in IsIntersectionXlaNonXlaOps_ops op)) [].
Proof.
  intros s. unfold IsIntersectionXlaNonXlaOps, kind_in, bind, IsIntersectionXlaNonXlaOps_static.
  destruct (getRegisteredInfo op) as [id|]; simpl.
  - eexists. repeat f_equal.
    destruct (bool_decide (id ∈ _)) eqn:E.
    + apply bool_decide_eq_true in E. apply bool_decide_eq_false. tauto.
    + apply bool_decide_eq_false in E. apply bool_decide_eq_true. exact E.
  - eexists. reflexivity.
Qed.

Lemma isa_registered kind op : isa kind op = true -> getRegisteredInfo op = Some kind.
Proof.
  unfold isa. destruct (getRegisteredInfo op) as [id|]; [|discriminate].
  intros H. apply bool_decide_eq_true in H. congruence.
Qed.

Lemma isa_kind_in kind ops op :
  isa kind op = true -> kind ∈ ops -> kind_in ops op = true.
Proof.
  intros H Hin. unfold kind_in. rewrite (isa_registered _ _ H).
  apply bool_decide_eq_true. exact Hin.
Qed.

Lemma isa_not_plain kind op :
  isa kind op = true -> kind ∈ IsTpuRegularOp_ops -> plain op = false.
Proof. intros H Hin. unfold plain. rewrite (isa_kind_in _ _ _ H Hin). reflexivity. Qed.

Lemma plain_not_isa kind op :
  plain op = true -> kind ∈ IsTpuRegularOp_ops -> isa kind op = false.
Proof.
  intros Hp Hin. destruct (isa kind op) eqn:E; [|reflexivity].
  rewrite (isa_not_plain _ _ E Hin) in Hp. discriminate.
Qed.

Lemma isa_unique k1 k2 op : isa k1 op = true -> k1 ≠ k2 -> isa k2 op = false.
Proof.
  intros H Hne. unfold isa. rewrite (isa_registered _ _ H).
  apply bool_decide_eq_false. exact Hne.
Qed.

(** * The checks, one by one *)

(** A loop whose iterations pass silently on the elements that are not [bad]
    and fail with [diag] on those that are: it stops at the first bad
    element ... *)
Lemma returns_for_each_stop {A} (body : A -> M bool) (bad : A -> bool)
    (diag : A -> list Diagnostic) xs rest x :
  (∀ y, y ∈ xs -> returns (body y) (negb (bad y)) (if bad y then diag y else [])) ->
  find bad xs = Some x ->
  returns (for_each body xs rest) false (diag x).
Proof.
  intros Hbody. induction xs as [|y xs IH]; simpl; [discriminate|].
  pose proof (Hbody y (list_elem_of_here _ _)) as Hy.
  destruct (bad y) eqn:By; intros E.
  - injection E as <-. apply returns_require_fail. exact Hy.
  - apply (returns_require_pass _ _ [] false (diag x)); [exact Hy|].
    apply IH; [|exact E]. intros z Hz. apply Hbody. right. exact Hz.
Qed.

(** ... and goes on to what follows it when there is none. *)
Lemma returns_for_each_through {A} (body : A -> M bool) (bad : A -> bool)
    (diag : A -> list Diagnostic) xs rest b d :
  (∀ y, y ∈ xs -> returns (body y) (negb (bad y)) (if bad y then diag y else [])) ->
  find bad xs = None ->
  returns rest b d ->
  returns (for_each body xs rest) b d.
Proof.
  intros Hbody Hnone Hrest. apply returns_for_each_pass; [|exact Hrest].
  intros y Hy. pose proof (Hbody y Hy) as H.
  assert (bad y = false) as By.
  { apply list_elem_of_In in Hy. exact (find_none _ _ Hnone y Hy). }
  rewrite By in H. exact H.
Qed.

Lemma existsb_find {A} (f : A -> bool) (l : list A) :
  existsb f l = match find f l with Some _ => true | None => false end.
Proof. induction l as [|x l IH]; simpl; [reflexivity|]. destruct (f x); auto. Qed.

Lemma find_elem {A} (f : A -> bool) (l : list A) x :
  find f l = Some x -> x ∈ l /\ f x = true.
Proof. intros H. apply find_some in H. rewrite list_elem_of_In. exact H. Qed.

Lemma returns_for_each_find {A} (body : A -> M bool) (bad : A -> bool)
    (diag : A -> list Diagnostic) xs rest b d :
  (∀ y, y ∈ xs -> returns (body y) (negb (bad y)) (if bad y then diag y else [])) ->
  returns rest b d ->
  returns (for_each body xs rest)
    (if existsb bad xs then false else b)
    (match find bad xs with Some x => diag x | None => d end).
Proof.
  intros Hbody Hrest. rewrite existsb_find. destruct (find bad xs) as [x|] eqn:E.
  - exact (returns_for_each_stop body bad diag xs rest x Hbody E).
  - exact (returns_for_each_through body bad diag xs rest b d Hbody E Hrest).
Qed.

Lemma returns_error_then op msg (b : bool) :
  returns (emitOpError op msg ;; ret b) b [mkDiagnostic Error (op_id (op_data op)) msg].
Proof. intros s. exists s. reflexivity. Qed.

Lemma returns_warning_then op msg (b : bool) :
  returns (emitWarning op msg ;; ret b) b [mkDiagnostic Warning (op_id (op_data op)) msg].
Proof. intros s. exists s. reflexivity. Qed.

Lemma returns_CheckTpuReplicateAttr op attr errormsg :
  returns (CheckTpuReplicateAttr op attr errormsg) (carries attr op)
    (if carries attr op then [] else [propagation_diagnostic op attr errormsg]).
Proof.
  unfold CheckTpuReplicateAttr, carries, propagation_diagnostic.
  destruct (getTpuReplicateAttr op) as [opattr|].
  - destruct (decide (Some opattr = attr)) as [E|E].
    + rewrite (bool_decide_eq_true_2 _ E), bool_decide_eq_false_2 by tauto.
      apply returns_ret.
    + rewrite (bool_decide_eq_false_2 _ E), bool_decide_eq_true_2 by exact E.
      apply returns_error_then.
  - apply returns_error_then.
Qed.

(** ** The replicated input *)

Lemma returns_ValidateReplicatedInput_arity module rep num_replicas attr :
  packed_arity_ok rep num_replicas = false ->
  returns (ValidateReplicatedInput module rep num_replicas attr) false
    [replicated_input_arity_diagnostic rep num_replicas].
Proof.
  unfold packed_arity_ok, ValidateReplicatedInput, replicated_input_arity_diagnostic.
  destruct (getIsPacked rep); intros H; apply bool_decide_eq_false in H; simpl.
  - rewrite bool_decide_eq_true_2 by exact H. apply returns_error_then.
  - rewrite bool_decide_eq_true_2 by exact H. apply returns_error_then.
Qed.

Lemma returns_propagation_step attr errormsg n :
  returns
    (regular <- IsTpuRegularOp n ;;
     if negb regular then ret true else CheckTpuReplicateAttr n attr errormsg)
    (negb (breaks_propagation attr n))
    (if breaks_propagation attr n then [propagation_diagnostic n attr errormsg] else []).
Proof.
  unfold breaks_propagation.
  eapply returns_bind_nil; [apply returns_IsTpuRegularOp|].
  destruct (plain n); simpl.
  - pose proof (returns_CheckTpuReplicateAttr n attr errormsg) as H.
    destruct (carries attr n); exact H.
  - apply returns_ret.
Qed.

Lemma returns_ValidateReplicatedInput_propagation module rep num_replicas attr parent :
  packed_arity_ok rep num_replicas = true ->
  getParentOp module rep = Some parent ->
  returns (ValidateReplicatedInput module rep num_replicas attr)
    (negb (existsb (breaks_propagation attr) (successors_via module parent)))
    (match find (breaks_propagation attr) (successors_via module parent) with
     | Some succ =>
         [propagation_diagnostic succ attr (HasSuccessor (getName rep) (getName succ))]
     | None => []
     end).
Proof.
  intros Harity Hparent. unfold ValidateReplicatedInput.
  assert ((getIsPacked rep && bool_decide (num_inputs rep ≠ 1)) = false) as ->.
  { unfold packed_arity_ok in Harity. destruct (getIsPacked rep); [|reflexivity].
    apply bool_decide_eq_true in Harity. simpl. apply bool_decide_eq_false. tauto. }
  assert ((negb (getIsPacked rep) && bool_decide (num_inputs rep ≠ num_replicas)) = false)
    as ->.
  { unfold packed_arity_ok in Harity. destruct (getIsPacked rep); [reflexivity|].
    apply bool_decide_eq_true in Harity. simpl. apply bool_decide_eq_false. tauto. }
  eapply returns_bind_nil; [apply (returns_GetSuccessors _ _ _ Hparent)|].
  pose proof (returns_for_each_find
    (fun succ =>
       regular <- IsTpuRegularOp succ ;;
       if negb regular then ret true
       else CheckTpuReplicateAttr succ attr (HasSuccessor (getName rep) (getName succ)))
    (breaks_propagation attr)
    (fun succ => [propagation_diagnostic succ attr
                    (HasSuccessor (getName rep) (getName succ))])
    (successors_via module parent) (ret true) true []) as H.
  destruct (existsb (breaks_propagation attr) (successors_via module parent));
    apply H; try apply returns_ret; intros; apply returns_propagation_step.
Qed.

(** ** Neighbours of an operation outside every cluster *)

Lemma replicated_io_kinds_structural kind :
  kind ∈ replicated_io_kinds -> kind ∈ IsTpuRegularOp_ops.
Proof. unfold replicated_io_kinds, IsTpuRegularOp_ops. set_unfold. tauto. Qed.

Lemma returns_CheckNonClusterPredecessors op parent :
  returns (CheckNonClusterPredecessors op parent)
    (negb (isa TPUReplicatedInputOp op))
    (if isa TPUReplicatedInputOp op
     then [mkDiagnostic Error (op_id (op_data op))
             (NonClusterInvalidPredecessor (getName parent) (getName op))]
     else []).
Proof.
  unfold CheckNonClusterPredecessors.
  eapply returns_bind_nil; [apply returns_IsTpuRegularOp|].
  destruct (isa TPUReplicatedInputOp op) eqn:E.
  - rewrite (isa_not_plain _ _ E) by (unfold IsTpuRegularOp_ops; set_solver).
    apply returns_error_then.
  - destruct (plain op); apply returns_ret.
Qed.

Lemma returns_CheckNonClusterSuccessors op parent :
  returns (CheckNonClusterSuccessors op parent)
    (negb (isa TPUReplicatedOutputOp op))
    (if isa TPUReplicatedOutputOp op
     then [mkDiagnostic Error (op_id (op_data op))
             (NonClusterInvalidSuccessor (getName parent) (getName op))]
     else []).
Proof.
  unfold CheckNonClusterSuccessors.
  eapply returns_bind_nil; [apply returns_IsTpuRegularOp|].
  destruct (isa TPUReplicatedOutputOp op) eqn:E.
  - rewrite (isa_not_plain _ _ E) by (unfold IsTpuRegularOp_ops; set_solver).
    apply returns_error_then.
  - destruct (plain op); apply returns_ret.
Qed.

Lemma returns_check_predecessor_non_cluster module op metadata_map cluster pred :
  returns (check_predecessor module op metadata_map false cluster pred)
    (negb (isa TPUReplicatedInputOp pred))
    (if isa TPUReplicatedInputOp pred
     then [mkDiagnostic Error (op_id (op_data pred))
             (NonClusterInvalidPredecessor (getName op) (getName pred))]
     else []).
Proof.
  unfold check_predecessor, is_replicated_io_of_cluster.
  eapply (returns_require_pass _ _ []).
  - apply returns_when_skip. apply returns_ret.
  - eapply (returns_when_run _ _ []); [apply returns_ret|].
    apply returns_CheckNonClusterPredecessors.
Qed.

Lemma returns_check_successor_non_cluster module op metadata_map cluster succ :
  returns (check_successor module op metadata_map false cluster succ)
    (negb (isa TPUReplicatedOutputOp succ))
    (if isa TPUReplicatedOutputOp succ
     then [mkDiagnostic Error (op_id (op_data succ))
             (NonClusterInvalidSuccessor (getName op) (getName succ))]
     else []).
Proof.
  unfold check_successor, is_replicated_io_of_cluster, is_regular_of_cluster.
  eapply (returns_require_pass _ _ []).
  - apply returns_when_skip. apply returns_ret.
  - eapply (returns_require_pass _ _ []).
    + apply returns_when_skip. apply returns_ret.
    + eapply (returns_when_run _ _ []); [apply returns_ret|].
      apply returns_CheckNonClusterSuccessors.
Qed.

(** [CheckOpsClusterIO] on an operation without cluster attribute: the first
    replicated input among the predecessors stops it, then the first
    replicated output among the successors; nothing else does. *)
Lemma returns_CheckOpsClusterIO_non_cluster_pred module op metadata_map pred :
  getTpuReplicateAttr op = None ->
  find (isa TPUReplicatedInputOp) (GetPredecessors module op) = Some pred ->
  returns (CheckOpsClusterIO module op metadata_map) false
    [mkDiagnostic Error (op_id (op_data pred))
       (NonClusterInvalidPredecessor (getName op) (getName pred))].
Proof.
  intros Hattr Hfind. unfold CheckOpsClusterIO, CheckOpsClusterIO_neighbours.
  rewrite Hattr.
  apply (returns_for_each_stop _ (isa TPUReplicatedInputOp)
           (fun pred => [mkDiagnostic Error (op_id (op_data pred))
                           (NonClusterInvalidPredecessor (getName op) (getName pred))])).
  - intros y _. apply returns_check_predecessor_non_cluster.
  - exact Hfind.
Qed.

Lemma returns_CheckOpsClusterIO_non_cluster_succ module op metadata_map parent :
  getTpuReplicateAttr op = None ->
  find (isa TPUReplicatedInputOp) (GetPredecessors module op) = None ->
  getParentOp module op = Some parent ->
  returns (CheckOpsClusterIO module op metadata_map)
    (negb (existsb (isa TPUReplicatedOutputOp) (successors_via module parent)))
    (match find (isa TPUReplicatedOutputOp) (successors_via module parent) with
     | Some succ =>
         [mkDiagnostic Error (op_id (op_data succ))
            (NonClusterInvalidSuccessor (getName op) (getName succ))]
     | None => []
     end).
Proof.
  intros Hattr Hfind Hparent. unfold CheckOpsClusterIO, CheckOpsClusterIO_neighbours.
  rewrite Hattr.
  apply (returns_for_each_through _ (isa TPUReplicatedInputOp)
           (fun pred => [mkDiagnostic Error (op_id (op_data pred))
                           (NonClusterInvalidPredecessor (getName op) (getName pred))])).
  - intros y _. apply returns_check_predecessor_non_cluster.
  - exact Hfind.
  - eapply returns_bind_nil; [apply (returns_GetSuccessors _ _ _ Hparent)|].
    pose proof (returns_for_each_find
      (check_successor module op metadata_map false "")
      (isa TPUReplicatedOutputOp)
      (fun succ => [mkDiagnostic Error (op_id (op_data succ))
                      (NonClusterInvalidSuccessor (getName op) (getName succ))])
      (successors_via module parent) (ret true) true []) as H.
    destruct (existsb (isa TPUReplicatedOutputOp) (successors_via module parent));
      apply H; try apply returns_ret; intros;
      apply returns_check_successor_non_cluster.
Qed.

Lemma returns_CheckOpsClusterIO_empty module op metadata_map :
  getTpuReplicateAttr op = Some "" ->
  returns (CheckOpsClusterIO module op metadata_map) false
    [mkDiagnostic Error (op_id (op_data op)) (EmptyTpuReplicateAttr (getName op))].
Proof.
  intros Hattr. unfold CheckOpsClusterIO. rewrite Hattr. simpl.
  apply returns_error_then.
Qed.

(** * The checks return *)

Lemma total_of_returns {A} (c : M A) a d : returns c a d -> total c.
Proof. intros H. exists a, d. exact H. Qed.

Lemma total_ret {A} (a : A) : total (ret a).
Proof. exact (total_of_returns _ _ _ (returns_ret a)). Qed.

Lemma total_bind {A B} (c : M A) (k : A -> M B) :
  total c -> (∀ a, total (k a)) -> total (bind c k).
Proof.
  intros (a & d & Hc) Hk. destruct (Hk a) as (b & d' & Hb).
  exists b, (d ++ d'). exact (returns_bind c k a d b d' Hc Hb).
Qed.

Lemma total_require (check rest : M bool) :
  total check -> total rest -> total (require check rest).
Proof.
  intros Hc Hr. apply total_bind; [exact Hc|]. intros []; [exact Hr|apply total_ret].
Qed.

Lemma total_when (cond check : M bool) :
  total cond -> total check -> total (when cond check).
Proof.
  intros Hc Hr. apply total_bind; [exact Hc|]. intros []; [exact Hr|apply total_ret].
Qed.

Lemma total_for_each {A} (body : A -> M bool) xs rest :
  (∀ x, x ∈ xs -> total (body x)) -> total rest -> total (for_each body xs rest).
Proof.
  intros Hbody Hrest. induction xs as [|x xs IH]; simpl; [exact Hrest|].
  apply total_require; [apply Hbody; left|].
  apply IH. intros y Hy. apply Hbody. right. exact Hy.
Qed.

Lemma total_error_then op msg (b : bool) : total (emitOpError op msg ;; ret b).
Proof. exact (total_of_returns _ _ _ (returns_error_then op msg b)). Qed.

Lemma total_warning_then op msg (b : bool) : total (emitWarning op msg ;; ret b).
Proof. exact (total_of_returns _ _ _ (returns_warning_then op msg b)). Qed.

Lemma total_emitOpError op msg : total (emitOpError op msg).
Proof. exact (total_of_returns _ _ _ (returns_emit _)). Qed.

Lemma total_emitWarning op msg : total (emitWarning op msg).
Proof. exact (total_of_returns _ _ _ (returns_emit _)). Qed.

Lemma total_IsTpuRegularOp op : total (IsTpuRegularOp op).
Proof. exact (total_of_returns _ _ _ (returns_IsTpuRegularOp op)). Qed.

Lemma total_IsIntersectionXlaNonXlaOps op : total (IsIntersectionXlaNonXlaOps op).
Proof. exact (total_of_returns _ _ _ (returns_IsIntersectionXlaNonXlaOps op)). Qed.

Lemma total_CheckTpuReplicateAttr op attr errormsg :
  total (CheckTpuReplicateAttr op attr errormsg).
Proof. exact (total_of_returns _ _ _ (returns_CheckTpuReplicateAttr op attr errormsg)). Qed.

Create HintDb total.
#[local] Hint Resolve total_ret total_emitOpError total_emitWarning
  total_error_then total_warning_then
  total_IsTpuRegularOp total_IsIntersectionXlaNonXlaOps
  total_CheckTpuReplicateAttr : total.

(** Takes a total-goal apart along the combinators and the case distinctions
    of the computation. *)
Ltac total_step :=
  match goal with
  | |- ∀ _, _ => intro
  | |- total (bind _ _) => apply total_bind
  | |- total (require _ _) => apply total_require
  | |- total (when _ _) => apply total_when
  | |- total (for_each _ _ _) => apply total_for_each
  | |- total (if ?b then _ else _) => destruct b
  | |- total (match ?x with _ => _ end) => destruct x
  | |- total _ => solve [auto with total]
  end.

Ltac solve_total := repeat total_step.

Lemma total_GetSuccessors module op :
  is_Some (getParentOp module op) -> total (GetSuccessors module op).
Proof.
  intros [parent H]. exact (total_of_returns _ _ _ (returns_GetSuccessors _ _ _ H)).
Qed.

Lemma total_ValidateReplicatedInput module rep num_replicas attr :
  is_Some (getParentOp module rep) ->
  total (ValidateReplicatedInput module rep num_replicas attr).
Proof.
  intros Hparent. pose proof (total_GetSuccessors _ _ Hparent).
  unfold ValidateReplicatedInput. solve_total.
Qed.

Lemma total_ValidateReplicatedOutput module rep num_replicas attr :
  total (ValidateReplicatedOutput module rep num_replicas attr).
Proof. unfold ValidateReplicatedOutput. solve_total. Qed.

Lemma total_ValidatePartitionedInput rep n : total (ValidatePartitionedInput rep n).
Proof. unfold ValidatePartitionedInput. solve_total. Qed.

Lemma total_ValidatePartitionedInputV2 rep n : total (ValidatePartitionedInputV2 rep n).
Proof. unfold ValidatePartitionedInputV2. solve_total. Qed.

Lemma total_ValidatePartitionedOutput rep n : total (ValidatePartitionedOutput rep n).
Proof. unfold ValidatePartitionedOutput. solve_total. Qed.

#[local] Hint Resolve total_ValidateReplicatedOutput total_ValidatePartitionedInput
  total_ValidatePartitionedInputV2 total_ValidatePartitionedOutput : total.

Lemma total_when_isa kind op validate rest :
  (isa kind op = true -> total validate) -> total rest ->
  total (when_isa kind op validate rest).
Proof.
  intros Hv Hr. unfold when_isa. destruct (isa kind op); [|exact Hr].
  apply total_require; [apply Hv; reflexivity|exact Hr].
Qed.

Lemma total_CheckReplicatedIOOp module op metadata parent :
  input_has_parent module op ->
  total (CheckReplicatedIOOp module op metadata parent).
Proof.
  intros Hparent. unfold CheckReplicatedIOOp.
  apply total_when_isa.
  { intros E. apply total_ValidateReplicatedInput. exact (Hparent E). }
  repeat (apply total_when_isa; [auto with total|]).
  apply total_ret.
Qed.

(** The delegation to [CheckReplicatedIOOp] finds the metadata whenever its
    condition holds. *)
Lemma total_delegation module op metadata_map is_cluster_op cluster n :
  input_has_parent module n ->
  total (when (is_replicated_io_of_cluster is_cluster_op
                 (bool_decide (is_Some (metadata_map !! cluster))) n)
              (metadata_at metadata_map cluster
                 (fun metadata => CheckReplicatedIOOp module n metadata op))).
Proof.
  intros Hparent. unfold is_replicated_io_of_cluster, metadata_at.
  destruct (metadata_map !! cluster) as [metadata|] eqn:E.
  - apply total_when; [solve_total|]. apply total_CheckReplicatedIOOp. exact Hparent.
  - destruct is_cluster_op.
    + eapply total_of_returns. apply returns_when_skip.
      eapply returns_bind_nil; [apply returns_IsTpuRegularOp|].
      rewrite bool_decide_eq_false_2 by (intros [? ?]; discriminate).
      rewrite andb_false_r. apply returns_ret.
    + eapply total_of_returns. apply returns_when_skip. apply returns_ret.
Qed.

Lemma total_CheckClusterSuccessors op cluster parent :
  total (CheckClusterSuccessors op cluster parent).
Proof. unfold CheckClusterSuccessors. solve_total. Qed.

Lemma total_CheckNonClusterSuccessors op parent :
  total (CheckNonClusterSuccessors op parent).
Proof. exact (total_of_returns _ _ _ (returns_CheckNonClusterSuccessors op parent)). Qed.

Lemma total_CheckNonClusterPredecessors op parent :
  total (CheckNonClusterPredecessors op parent).
Proof. exact (total_of_returns _ _ _ (returns_CheckNonClusterPredecessors op parent)). Qed.

#[local] Hint Resolve total_CheckClusterSuccessors total_CheckNonClusterSuccessors
  total_CheckNonClusterPredecessors : total.

Lemma total_check_predecessor module op metadata_map is_cluster_op cluster pred :
  input_has_parent module pred ->
  total (check_predecessor module op metadata_map is_cluster_op cluster pred).
Proof.
  intros Hparent. unfold check_predecessor.
  apply total_require; [apply total_delegation; exact Hparent|].
  solve_total.
Qed.

Lemma total_check_successor module op metadata_map is_cluster_op cluster succ :
  input_has_parent module succ ->
  total (check_successor module op metadata_map is_cluster_op cluster succ).
Proof.
  intros Hparent. unfold check_successor.
  apply total_require; [apply total_delegation; exact Hparent|].
  unfold is_regular_of_cluster. solve_total.
Qed.

Lemma total_CheckOpsClusterIO module op metadata_map :
  (getTpuReplicateAttr op ≠ Some "" -> is_Some (getParentOp module op)) ->
  (∀ n, n ∈ walk module -> input_has_parent module n) ->
  total (CheckOpsClusterIO module op metadata_map).
Proof.
  intros Hparent Hinputs.
  assert (∀ is_cluster_op cluster, is_Some (getParentOp module op) ->
          total (CheckOpsClusterIO_neighbours module op metadata_map
                   is_cluster_op cluster)) as Hloops.
  { intros is_cluster_op cluster [parent Hp]. unfold CheckOpsClusterIO_neighbours.
    apply total_for_each.
    - intros pred Hpred. apply total_check_predecessor, Hinputs.
      exact (GetPredecessors_elem _ _ _ Hpred).
    - assert (total (for_each
                       (check_successor module op metadata_map is_cluster_op cluster)
                       (successors_via module parent) (ret true))) as (b & d & H).
      { apply total_for_each; [|apply total_ret].
        intros succ Hsucc. apply total_check_successor, Hinputs.
        exact (successors_via_elem _ _ _ Hsucc). }
      exists b, d.
      eapply returns_bind_nil; [apply (returns_GetSuccessors _ _ _ Hp)|exact H]. }
  unfold CheckOpsClusterIO. destruct (getTpuReplicateAttr op) as [cluster|] eqn:E.
  - destruct (bool_decide (cluster = "")) eqn:Ec.
    + apply total_error_then.
    + apply Hloops, Hparent. apply bool_decide_eq_false in Ec. congruence.
  - apply Hloops, Hparent. discriminate.
Qed.

(** * The driver *)

Lemma Forall2_elem_l {A B} (P : A -> B -> Prop) l k x :
  Forall2 P l k -> x ∈ l -> ∃ y, y ∈ k /\ P x y.
Proof.
  induction 1 as [|a b l k Hab _ IH]; intros Hx.
  - inversion Hx.
  - apply elem_of_cons in Hx as [->|Hx].
    + exists b. split; [left|exact Hab].
    + destruct (IH Hx) as (y & Hy & Py). exists y. split; [right; exact Hy|exact Py].
Qed.

Lemma forallb_elem_false {A} (f : A -> bool) l x :
  x ∈ l -> f x = false -> forallb f l = false.
Proof.
  intros Hx Hf. destruct (forallb f l) eqn:E; [|reflexivity].
  rewrite forallb_forall in E. rewrite <- Hf. symmetry. apply E, list_elem_of_In, Hx.
Qed.

Lemma elem_of_concat_snd {A B} (vds : list (A * list B)) vd x :
  vd ∈ vds -> x ∈ vd.2 -> x ∈ concat (vds.*2).
Proof.
  intros Hvd Hx. apply list_elem_of_In, in_concat. exists vd.2. split.
  - apply list_elem_of_In. apply list_elem_of_fmap. exists vd. auto.
  - apply list_elem_of_In. exact Hx.
Qed.

Lemma runnable_elem module op :
  runnable module = true -> op ∈ walk module -> runnable_op module op = true.
Proof.
  unfold runnable. rewrite forallb_forall. intros H Hop.
  apply H, list_elem_of_In, Hop.
Qed.

Lemma runnable_op_parent module op :
  runnable_op module op = true -> isa ModuleOp op = false ->
  is_Some (getParentOp module op).
Proof.
  unfold runnable_op. intros H Hkind. rewrite Hkind in H.
  apply andb_true_iff in H as [H _]. apply bool_decide_eq_true in H. exact H.
Qed.

Lemma runnable_input_has_parent module n :
  runnable module = true -> n ∈ walk module -> input_has_parent module n.
Proof.
  intros Hrun Hn E. apply runnable_op_parent; [exact (runnable_elem _ _ Hrun Hn)|].
  apply (isa_unique _ _ _ E). discriminate.
Qed.

Lemma ModuleOp_structural : ModuleOp ∈ IsTpuRegularOp_ops.
Proof. unfold IsTpuRegularOp_ops. set_unfold. tauto. Qed.

Lemma runnable_total_CheckOpsClusterIO module metadata_map op :
  runnable module = true -> op ∈ walk module -> plain op = true ->
  total (CheckOpsClusterIO module op metadata_map).
Proof.
  intros Hrun Hop Hplain. apply total_CheckOpsClusterIO.
  - intros _. apply runnable_op_parent; [exact (runnable_elem _ _ Hrun Hop)|].
    exact (plain_not_isa _ _ Hplain ModuleOp_structural).
  - intros n Hn. exact (runnable_input_has_parent _ _ Hrun Hn).
Qed.

Section Driver.

Variable TypeValidForXLA : MlirType -> bool.
Variable kTpuDevice : string.

Lemma returns_ValidateIntersectionXlaNonXlaOps op metadata_map :
  returns (ValidateIntersectionXlaNonXlaOps TypeValidForXLA kTpuDevice op metadata_map)
    (negb (type_class_conflict TypeValidForXLA kTpuDevice op metadata_map))
    (if type_class_conflict TypeValidForXLA kTpuDevice op metadata_map
     then [mkDiagnostic Error (op_id (op_data op)) BothXlaAndNonXla]
     else []).
Proof.
  unfold ValidateIntersectionXlaNonXlaOps, type_class_conflict.
  destruct (is_tpu_bookkeeping_op op); simpl; [apply returns_ret|].
  destruct (IsMustBeXlaOp kTpuDevice op metadata_map &&
            IsMustNotBeXlaOp TypeValidForXLA op).
  - apply returns_error_then.
  - apply returns_ret.
Qed.

(** The first statement of the walk body. *)
Lemma returns_check_cluster_io_plain module metadata_map op success v d :
  plain op = true ->
  returns (CheckOpsClusterIO module op metadata_map) v d ->
  returns (check_cluster_io module metadata_map op success) (success && v) d.
Proof.
  intros Hplain Hcheck. unfold check_cluster_io.
  eapply returns_bind_nil; [apply returns_IsTpuRegularOp|]. rewrite Hplain.
  rewrite <- (app_nil_r d). eapply returns_bind; [exact Hcheck|apply returns_ret].
Qed.

Lemma returns_check_cluster_io_structural module metadata_map op success :
  plain op = false ->
  returns (check_cluster_io module metadata_map op success) success [].
Proof.
  intros Hplain. unfold check_cluster_io.
  eapply returns_bind_nil; [apply returns_IsTpuRegularOp|]. rewrite Hplain.
  apply returns_ret.
Qed.

(** The second statement of the walk body. *)
Lemma returns_check_intersection_run metadata_map op success v d :
  kind_in IsIntersectionXlaNonXlaOps_ops op = false ->
  returns (ValidateIntersectionXlaNonXlaOps TypeValidForXLA kTpuDevice op metadata_map)
    v d ->
  returns (check_intersection TypeValidForXLA kTpuDevice metadata_map op success)
    (success && v) d.
Proof.
  intros Hkind Hcheck. unfold check_intersection.
  eapply returns_bind_nil; [apply returns_IsIntersectionXlaNonXlaOps|].
  rewrite Hkind. simpl.
  rewrite <- (app_nil_r d). eapply returns_bind; [exact Hcheck|apply returns_ret].
Qed.

Lemma returns_check_intersection_skip metadata_map op success :
  kind_in IsIntersectionXlaNonXlaOps_ops op = true ->
  returns (check_intersection TypeValidForXLA kTpuDevice metadata_map op success)
    success [].
Proof.
  intros Hkind. unfold check_intersection.
  eapply returns_bind_nil; [apply returns_IsIntersectionXlaNonXlaOps|].
  rewrite Hkind. apply returns_ret.
Qed.

Lemma check_cluster_io_contributes module metadata_map op :
  (plain op = true -> total (CheckOpsClusterIO module op metadata_map)) ->
  ∃ v d, ∀ success,
    returns (check_cluster_io module metadata_map op success) (success && v) d.
Proof.
  intros Htotal. destruct (plain op) eqn:Hplain.
  - destruct (Htotal eq_refl) as (v & d & H). exists v, d. intros success.
    exact (returns_check_cluster_io_plain _ _ _ _ _ _ Hplain H).
  - exists true, []. intros success. rewrite andb_true_r.
    exact (returns_check_cluster_io_structural _ _ _ _ Hplain).
Qed.

Lemma check_intersection_contributes metadata_map op :
  ∃ v d, ∀ success,
    returns (check_intersection TypeValidForXLA kTpuDevice metadata_map op success)
      (success && v) d.
Proof.
  destruct (kind_in IsIntersectionXlaNonXlaOps_ops op) eqn:Hkind.
  - exists true, []. intros success. rewrite andb_true_r.
    exact (returns_check_intersection_skip _ _ _ Hkind).
  - eexists _, _. intros success.
    exact (returns_check_intersection_run _ _ _ _ _ Hkind
             (returns_ValidateIntersectionXlaNonXlaOps op metadata_map)).
Qed.

Lemma check_op_contributes module metadata_map op :
  (plain op = true -> total (CheckOpsClusterIO module op metadata_map)) ->
  ∃ vd, contributes TypeValidForXLA kTpuDevice module metadata_map op vd.
Proof.
  intros Htotal.
  destruct (check_cluster_io_contributes module metadata_map op Htotal)
    as (v1 & d1 & H1).
  destruct (check_intersection_contributes metadata_map op) as (v2 & d2 & H2).
  exists (v1 && v2, d1 ++ d2). intros success. simpl. unfold check_op.
  rewrite andb_assoc. eapply returns_bind; [apply H1|apply H2].
Qed.

Lemma check_ops_contributions module metadata_map ops :
  (∀ op, op ∈ ops -> ∃ vd, contributes TypeValidForXLA kTpuDevice module metadata_map op vd) ->
  ∃ vds, Forall2 (contributes TypeValidForXLA kTpuDevice module metadata_map) ops vds /\
         ∀ success,
           returns (check_ops TypeValidForXLA kTpuDevice module metadata_map ops success)
             (success && forallb fst vds) (concat (vds.*2)).
Proof.
  induction ops as [|op rest IH]; intros Hops.
  - exists []. split; [constructor|]. intros success. simpl.
    rewrite andb_true_r. apply returns_ret.
  - destruct (Hops op (list_elem_of_here _ _)) as (vd & Hvd).
    destruct IH as (vds & Hall & Hrest).
    { intros o Ho. apply Hops. right. exact Ho. }
    exists (vd :: vds). split; [constructor; assumption|].
    intros success. simpl. rewrite andb_assoc.
    eapply returns_bind; [apply Hvd|apply Hrest].
Qed.

Lemma total_collect_metadata ops metadata_map :
  (∀ op, op ∈ ops -> isa TPUReplicateMetadataOp op = true ->
         is_Some (getTpuReplicateAttr op)) ->
  ∃ collected, returns (collect_metadata ops metadata_map) collected [].
Proof.
  revert metadata_map. induction ops as [|meta rest IH]; intros metadata_map Hops.
  - exists metadata_map. apply returns_ret.
  - simpl. assert (∀ op, op ∈ rest -> isa TPUReplicateMetadataOp op = true ->
                         is_Some (getTpuReplicateAttr op)) as Hrest.
    { intros o Ho. apply Hops. right. exact Ho. }
    destruct (isa TPUReplicateMetadataOp meta) eqn:E.
    + destruct (Hops meta (list_elem_of_here _ _) E) as [cluster ->].
      apply IH, Hrest.
    + apply IH, Hrest.
Qed.

Lemma runnable_collect_metadata module :
  runnable module = true ->
  ∃ metadata_map, returns (collect_metadata (walk module) ∅) metadata_map [].
Proof.
  intros Hrun. apply total_collect_metadata. intros op Hop E.
  pose proof (runnable_elem _ _ Hrun Hop) as H. unfold runnable_op in H.
  apply andb_true_iff in H as [_ H]. rewrite E in H. simpl in H.
  apply bool_decide_eq_true in H. exact H.
Qed.

(** A run on a runnable module: the metadata are collected, every operation
    of the walk contributes, and the run returns the conjunction of the
    verdicts and the diagnostics in the order of the walk. *)
Lemma runOnOperation_contributions module :
  runnable module = true ->
  ∃ metadata_map vds,
    returns (collect_metadata (walk module) ∅) metadata_map [] /\
    Forall2 (contributes TypeValidForXLA kTpuDevice module metadata_map) (walk module) vds /\
    returns (runOnOperation TypeValidForXLA kTpuDevice module)
      (forallb fst vds) (concat (vds.*2)).
Proof.
  intros Hrun. destruct (runnable_collect_metadata module Hrun) as (metadata_map & Hmm).
  destruct (check_ops_contributions module metadata_map (walk module))
    as (vds & Hall & Hops).
  { intros op Hop. apply check_op_contributes. intros Hplain.
    exact (runnable_total_CheckOpsClusterIO _ _ _ Hrun Hop Hplain). }
  exists metadata_map, vds. split; [exact Hmm|]. split; [exact Hall|].
  unfold runOnOperation. eapply returns_bind_nil; [exact Hmm|].
  rewrite <- (app_nil_r (concat _)).
  eapply returns_bind; [apply (Hops true)|apply returns_ret].
Qed.

(** An operation of the walk whose own check fails makes the run fail, and
    what it reported is among what the run reports. *)
Lemma runOnOperation_fails module metadata_map op d :
  runnable module = true ->
  returns (collect_metadata (walk module) ∅) metadata_map [] ->
  op ∈ walk module ->
  returns (check_op TypeValidForXLA kTpuDevice module metadata_map op true) false d ->
  ∃ ds, returns (runOnOperation TypeValidForXLA kTpuDevice module) false ds /\
        ∀ x, x ∈ d -> x ∈ ds.
Proof.
  intros Hrun Hmm Hop Hfail.
  destruct (runOnOperation_contributions module Hrun)
    as (metadata_map' & vds & Hmm' & Hall & Hret).
  destruct (returns_inj _ _ _ _ _ Hmm Hmm') as [<- _].
  destruct (Forall2_elem_l _ _ _ _ Hall Hop) as (vd & Hvd & Hcontrib).
  destruct (returns_inj _ _ _ _ _ Hfail (Hcontrib true)) as [Hv Hd].
  simpl in Hv. exists (concat (vds.*2)). split.
  - rewrite (forallb_elem_false fst vds vd Hvd) in Hret by congruence. exact Hret.
  - intros x Hx. apply (elem_of_concat_snd vds vd); [exact Hvd|]. congruence.
Qed.

End Driver.

(** * The properties of the specification *)

Lemma metadata_of_returns module metadata_map :
  returns (collect_metadata (walk module) ∅) metadata_map [] ->
  metadata_of module = metadata_map.
Proof.
  intros H. unfold metadata_of. destruct (H fresh_statics) as [s' ->]. reflexivity.
Qed.

Lemma runnable_metadata_of module :
  runnable module = true ->
  returns (collect_metadata (walk module) ∅) (metadata_of module) [].
Proof.
  intros Hrun. destruct (runnable_collect_metadata module Hrun) as (metadata_map & H).
  rewrite (metadata_of_returns _ _ H). exact H.
Qed.

Lemma unregistered_not_kind_in ops op :
  unregistered op = true -> kind_in ops op = false.
Proof.
  unfold unregistered, kind_in. intros H. apply bool_decide_eq_true in H.
  rewrite H. reflexivity.
Qed.

(** Settles a statement about every element of a list that evaluates to a
    closed list. *)
Ltac by_enumeration :=
  let x := fresh "x" in
  let Hx := fresh "Hx" in
  intros x Hx; apply list_elem_of_In in Hx; vm_compute in Hx;
  repeat (destruct Hx as [<-|Hx]; [vm_compute; reflexivity|]);
  destruct Hx.

(** ** C1: which operations are classified for the type constraint check *)

(** Were the validator run on the kinds of the intersection set and on
    unregistered operations only, the first thing it does, letting the seven
    replication, partition and metadata kinds through, could never apply. *)
Lemma bookkeeping_outside_the_intersection_set op :
  is_tpu_bookkeeping_op op = true ->
  kind_in IsIntersectionXlaNonXlaOps_ops op = false /\ unregistered op = false.
Proof.
  unfold is_tpu_bookkeeping_op, kind_in, unregistered, isa.
  destruct (getRegisteredInfo op) as [id|]; [|discriminate].
  intros H. split; [|reflexivity].
  repeat (apply orb_true_iff in H as [H|H]);
    apply bool_decide_eq_true in H; subst id; vm_compute; reflexivity.
Qed.

(** C1, as the code has it.  [IsIntersectionXlaNonXlaOps] answers [true]
    exactly when the kind of the operation is unregistered or is NOT in the
    intersection set: the set lists the kinds that are let through.  The walk
    runs [ValidateIntersectionXlaNonXlaOps] on an operation exactly when it is
    so classified: on the seven kinds of the set the verdict so far is
    handed on and nothing is reported, on every other operation the verdict
    of the validator is added and its diagnostics are reported. *)
Theorem C1_classified_when_outside_the_intersection_set
    (TypeValidForXLA : MlirType -> bool) (kTpuDevice : string)
    (metadata_map : MetadataMap) (op : Operation) (success : bool) :
  let validator :=
    ValidateIntersectionXlaNonXlaOps TypeValidForXLA kTpuDevice op metadata_map in
  let conflict := type_class_conflict TypeValidForXLA kTpuDevice op metadata_map in
  let complaint :=
    if conflict then [mkDiagnostic Error (op_id (op_data op)) BothXlaAndNonXla]
    else [] in
  returns (IsIntersectionXlaNonXlaOps op)
    (unregistered op || negb (kind_in IsIntersectionXlaNonXlaOps_ops op)) [] /\
  returns validator (negb conflict) complaint /\
  returns (check_intersection TypeValidForXLA kTpuDevice metadata_map op success)
    (if unregistered op || negb (kind_in IsIntersectionXlaNonXlaOps_ops op)
     then success && negb conflict else success)
    (if unregistered op || negb (kind_in IsIntersectionXlaNonXlaOps_ops op)
     then complaint else []).
Proof.
  intros validator conflict complaint.
  assert (unregistered op || negb (kind_in IsIntersectionXlaNonXlaOps_ops op)
          = negb (kind_in IsIntersectionXlaNonXlaOps_ops op)) as ->.
  { destruct (unregistered op) eqn:E; [|reflexivity].
    rewrite (unregistered_not_kind_in _ _ E). reflexivity. }
  split; [apply returns_IsIntersectionXlaNonXlaOps|].
  split; [apply returns_ValidateIntersectionXlaNonXlaOps|].
  destruct (kind_in IsIntersectionXlaNonXlaOps_ops op) eqn:Hkind; simpl.
  - exact (returns_check_intersection_skip _ _ _ _ _ Hkind).
  - exact (returns_check_intersection_run _ _ _ _ _ _ _ Hkind
             (returns_ValidateIntersectionXlaNonXlaOps _ _ op metadata_map)).
Qed.

(** C1 as stated fails on an identity: its kind is in the intersection set,
    yet the classifier answers [false]; the validator would report it, and the
    walk body does not run the validator on it. *)
Lemma C1_counterexample_identity :
  let module := identity_on_strings in
  let op := the_op module 71 in
  consistent module = true /\
  getName op = Registered IdentityOp /\
  IdentityOp ∈ IsIntersectionXlaNonXlaOps_ops /\
  IsIntersectionXlaNonXlaOps op fresh_statics
    = Some (false, [], mkStatics false true) /\
  ValidateIntersectionXlaNonXlaOps TypeValidForXLA_tf "TPU" op (metadata_of module)
      fresh_statics
    = Some (false, [mkDiagnostic Error 71 BothXlaAndNonXla], fresh_statics) /\
  check_intersection TypeValidForXLA_tf "TPU" (metadata_of module) op true
      fresh_statics
    = Some (true, [], mkStatics false true).
Proof.
  repeat split; vm_compute; reflexivity.
Qed.

(** ** C2: a node that must and must not be compiled for the accelerator *)

(** C2, as the code has it.  In a runnable module, a node whose kind is
    unregistered or outside the intersection set, and is none of the seven
    replication, partition and metadata kinds, makes the run fail with the
    type class conflict reported on it as soon as it both must and must not
    be compiled for the accelerator. *)
Theorem C2_conflict_fails_outside_the_intersection_set
    (TypeValidForXLA : MlirType -> bool) (kTpuDevice : string)
    (module op : Operation) :
  runnable module = true ->
  op ∈ walk module ->
  kind_in IsIntersectionXlaNonXlaOps_ops op = false ->
  is_tpu_bookkeeping_op op = false ->
  IsMustBeXlaOp kTpuDevice op (metadata_of module) = true ->
  IsMustNotBeXlaOp TypeValidForXLA op = true ->
  ∃ ds,
    returns (runOnOperation TypeValidForXLA kTpuDevice module) false ds /\
    mkDiagnostic Error (op_id (op_data op)) BothXlaAndNonXla ∈ ds.
Proof.
  intros Hrun Hop Hkind Hbook Hmust Hmustnot.
  destruct (check_cluster_io_contributes module (metadata_of module) op)
    as (v1 & d1 & H1).
  { intros Hplain. exact (runnable_total_CheckOpsClusterIO _ _ _ Hrun Hop Hplain). }
  pose proof (returns_ValidateIntersectionXlaNonXlaOps TypeValidForXLA kTpuDevice
                op (metadata_of module)) as Hv.
  unfold type_class_conflict in Hv. rewrite Hbook, Hmust, Hmustnot in Hv. simpl in Hv.
  pose proof (returns_check_intersection_run TypeValidForXLA kTpuDevice
                (metadata_of module) op (true && v1) _ _ Hkind Hv) as H2.
  rewrite andb_false_r in H2.
  destruct (runOnOperation_fails TypeValidForXLA kTpuDevice module (metadata_of module)
              op (d1 ++ [mkDiagnostic Error (op_id (op_data op)) BothXlaAndNonXla])
              Hrun (runnable_metadata_of _ Hrun) Hop) as (ds & Hds & Hin).
  { unfold check_op. eapply returns_bind; [apply (H1 true)|exact H2]. }
  exists ds. split; [exact Hds|]. apply Hin, elem_of_app. right. left.
Qed.

Lemma C2_witness_foo_on_strings :
  ∃ ds,
    returns (runOnOperation TypeValidForXLA_tf "TPU" foo_on_strings) false ds /\
    mkDiagnostic Error 71 BothXlaAndNonXla ∈ ds.
Proof.
  apply (C2_conflict_fails_outside_the_intersection_set TypeValidForXLA_tf "TPU"
           foo_on_strings (the_op foo_on_strings 71)).
  - vm_compute; reflexivity.
  - apply (lookupOp_elem _ 71). vm_compute; reflexivity.
  - vm_compute; reflexivity.
  - vm_compute; reflexivity.
  - vm_compute; reflexivity.
  - vm_compute; reflexivity.
Defined.

(** C2 as stated fails on an identity on strings in a cluster without soft
    placement: its kind is in the intersection set, it must and must not be
    compiled for the accelerator, and the run succeeds without a
    diagnostic. *)
Lemma C2_counterexample_identity :
  let module := identity_on_strings in
  let op := the_op module 71 in
  consistent module = true /\
  lookupOp module 71 = Some op /\
  getName op = Registered IdentityOp /\
  IdentityOp ∈ IsIntersectionXlaNonXlaOps_ops /\
  IsMustBeXlaOp "TPU" op (metadata_of module) = true /\
  IsMustNotBeXlaOp TypeValidForXLA_tf op = true /\
  runOnOperation TypeValidForXLA_tf "TPU" module fresh_statics
    = Some (true, [], mkStatics true true).
Proof.
  repeat split; vm_compute; reflexivity.
Qed.

(** ** C3: whose metadata the delegated checks are evaluated against *)

Lemma returns_delegation module op metadata_map cluster metadata n v d :
  metadata_map !! cluster = Some metadata ->
  plain n = false ->
  returns (CheckReplicatedIOOp module n metadata op) v d ->
  returns
    (when (is_replicated_io_of_cluster true
             (bool_decide (is_Some (metadata_map !! cluster))) n)
          (metadata_at metadata_map cluster
             (fun metadata => CheckReplicatedIOOp module n metadata op)))
    v d.
Proof.
  intros Hmd Hplain Hcheck. unfold is_replicated_io_of_cluster, metadata_at.
  rewrite Hmd. eapply (returns_when_run _ _ []); [|exact Hcheck].
  eapply returns_bind_nil; [apply returns_IsTpuRegularOp|].
  rewrite Hplain, bool_decide_eq_true_2 by eauto. apply returns_ret.
Qed.

Lemma returns_require_same (check rest : M bool) v d :
  returns check v d -> returns rest true [] -> returns (require check rest) v d.
Proof.
  intros Hc Hr. destruct v.
  - rewrite <- (app_nil_r d). exact (returns_require_pass _ _ _ _ _ Hc Hr).
  - exact (returns_require_fail _ _ _ Hc).
Qed.

(** C3, as the code has it.  When [CheckOpsClusterIO] runs on an operation
    [op] of cluster [cluster] and meets one of the six replication and
    partition kinds among its neighbours, the arity and propagation rules are
    evaluated against the metadata stored under [cluster], the cluster of the
    operation that delegates; whatever [CheckReplicatedIOOp] returns and
    reports with that record is what the step of the loop returns and
    reports.  The cluster attribute of the neighbour is not consulted. *)
Theorem C3_delegation_uses_the_cluster_of_the_delegating_node
    (module op : Operation) (metadata_map : MetadataMap) (cluster : string)
    (metadata n : Operation) (v : bool) (d : list Diagnostic) (s' : Statics) :
  getTpuReplicateAttr op = Some cluster ->
  cluster ≠ "" ->
  metadata_map !! cluster = Some metadata ->
  kind_in replicated_io_kinds n = true ->
  CheckReplicatedIOOp module n metadata op fresh_statics = Some (v, d, s') ->
  (∀ s, CheckOpsClusterIO module op metadata_map s
        = CheckOpsClusterIO_neighbours module op metadata_map true cluster s) /\
  returns (check_predecessor module op metadata_map true cluster n) v d /\
  returns (check_successor module op metadata_map true cluster n) v d.
Proof.
  intros Hattr Hne Hmd Hkind Hrun.
  assert (returns (CheckReplicatedIOOp module n metadata op) v d) as Hcheck.
  { exact (oblivious_returns _ _ _ _ _ (oblivious_CheckReplicatedIOOp _ _ _ _) Hrun). }
  assert (plain n = false) as Hplain.
  { unfold plain. unfold kind_in in *.
    destruct (getRegisteredInfo n) as [id|]; [|discriminate].
    apply bool_decide_eq_true in Hkind.
    rewrite bool_decide_eq_true_2; [reflexivity|].
    exact (replicated_io_kinds_structural _ Hkind). }
  split; [|split].
  - intros s. unfold CheckOpsClusterIO. rewrite Hattr.
    rewrite bool_decide_eq_false_2 by exact Hne. reflexivity.
  - unfold check_predecessor. apply returns_require_same.
    + exact (returns_delegation _ _ _ _ _ _ _ _ Hmd Hplain Hcheck).
    + apply returns_when_skip. apply returns_ret.
  - unfold check_successor. apply returns_require_same.
    + exact (returns_delegation _ _ _ _ _ _ _ _ Hmd Hplain Hcheck).
    + apply (returns_require_pass _ _ [] true []).
      * apply returns_when_skip. unfold is_regular_of_cluster.
        rewrite <- Hplain. apply returns_IsTpuRegularOp.
      * apply returns_when_skip. apply returns_ret.
Qed.

Lemma C3_witness_cross_cluster :
  let module := cross_cluster in
  let op := the_op module 71 in
  let n := the_op module 41 in
  (∀ s, CheckOpsClusterIO module op (metadata_of module) s
        = CheckOpsClusterIO_neighbours module op (metadata_of module) true "c1" s) /\
  returns (check_predecessor module op (metadata_of module) true "c1" n) false
    [mkDiagnostic Error 41 (PartitionedInputsInconsistent 1 2)] /\
  returns (check_successor module op (metadata_of module) true "c1" n) false
    [mkDiagnostic Error 41 (PartitionedInputsInconsistent 1 2)].
Proof.
  apply (C3_delegation_uses_the_cluster_of_the_delegating_node cross_cluster
           (the_op cross_cluster 71) (metadata_of cross_cluster) "c1"
           (the_op cross_cluster 11) (the_op cross_cluster 41) false
           [mkDiagnostic Error 41 (PartitionedInputsInconsistent 1 2)]
           fresh_statics).
  - vm_compute; reflexivity.
  - discriminate.
  - vm_compute; reflexivity.
  - vm_compute; reflexivity.
  - vm_compute; reflexivity.
Defined.

(** C3 as stated fails on a partitioned input that names cluster c2 and is
    consumed by an operation of cluster c1: against the metadata of its own
    cluster its two inputs are right, yet the pass reports them, citing the
    one core per replica of c1. *)
Lemma C3_counterexample_cross_cluster :
  let module := cross_cluster in
  let op := the_op module 71 in
  let n := the_op module 41 in
  let own_metadata := the_op module 14 in
  consistent module = true /\
  getName n = Registered TPUPartitionedInputOp /\
  n ∈ GetPredecessors module op /\
  getTpuReplicateAttr n = Some "c2" /\
  metadata_of module !! "c2" = Some own_metadata /\
  to_int (getNumCoresPerReplica own_metadata) = 2 /\
  num_inputs n = 2 /\
  CheckReplicatedIOOp module n own_metadata op fresh_statics
    = Some (true, [], fresh_statics) /\
  CheckOpsClusterIO module op (metadata_of module) fresh_statics
    = Some (false, [mkDiagnostic Error 41 (PartitionedInputsInconsistent 1 2)],
            mkStatics true false) /\
  runOnOperation TypeValidForXLA_tf "TPU" module fresh_statics
    = Some (false, [mkDiagnostic Error 41 (PartitionedInputsInconsistent 1 2)],
            mkStatics true true).
Proof.
  repeat split; try (vm_compute; reflexivity).
  apply list_elem_of_In. vm_compute. tauto.
Qed.

(** ** C4: what one run reports *)

(** C4, as the code has it.  A run on a runnable module visits every
    operation of the walk, whatever failed before: each operation contributes
    a verdict and diagnostics of its own, the verdict of the run is the
    conjunction of these verdicts, known only once the walk is over, and the
    diagnostics of the run are those of the operations, in the order of the
    walk.  On a plain operation the type constraint check is made whatever
    [CheckOpsClusterIO] returned.  (Within [CheckOpsClusterIO] the first
    failing check returns; the checks on the remaining neighbours are not
    made.) *)
Theorem C4_every_operation_contributes
    (TypeValidForXLA : MlirType -> bool) (kTpuDevice : string) (module : Operation) :
  runnable module = true ->
  (∃ vds : list (bool * list Diagnostic),
     Forall2 (contributes TypeValidForXLA kTpuDevice module (metadata_of module))
       (walk module) vds /\
     returns (runOnOperation TypeValidForXLA kTpuDevice module)
       (forallb fst vds) (concat (vds.*2))) /\
  (∀ op v1 d1,
     plain op = true ->
     returns (CheckOpsClusterIO module op (metadata_of module)) v1 d1 ->
     ∃ v2 d2,
       (∀ success,
          returns (check_intersection TypeValidForXLA kTpuDevice (metadata_of module)
                     op success) (success && v2) d2) /\
       contributes TypeValidForXLA kTpuDevice module (metadata_of module) op
         (v1 && v2, d1 ++ d2)).
Proof.
  intros Hrun. split.
  - destruct (runOnOperation_contributions TypeValidForXLA kTpuDevice module Hrun)
      as (metadata_map & vds & Hmm & Hall & Hret).
    rewrite <- (metadata_of_returns _ _ Hmm) in Hall. exists vds. split; assumption.
  - intros op v1 d1 Hplain Hcheck.
    destruct (check_intersection_contributes TypeValidForXLA kTpuDevice
                (metadata_of module) op) as (v2 & d2 & H2).
    exists v2, d2. split; [exact H2|].
    intros success. simpl. unfold check_op. rewrite andb_assoc.
    eapply returns_bind; [|apply H2].
    exact (returns_check_cluster_io_plain _ _ _ _ _ _ Hplain Hcheck).
Qed.

Lemma C4_witness_unpropagated :
  ∃ vds : list (bool * list Diagnostic),
    Forall2 (contributes TypeValidForXLA_tf "TPU" unpropagated (metadata_of unpropagated))
      (walk unpropagated) vds /\
    returns (runOnOperation TypeValidForXLA_tf "TPU" unpropagated)
      (forallb fst vds) (concat (vds.*2)).
Proof.
  apply (proj1 (C4_every_operation_contributes TypeValidForXLA_tf "TPU" unpropagated
                  ltac:(vm_compute; reflexivity))).
Defined.

(** C4 as stated fails on an operation outside every cluster that consumes two
    replicated inputs: each of the two is a violation that
    [CheckNonClusterPredecessors] reports when asked, and the run reports
    the first only. *)
Lemma C4_counterexample_two_inputs :
  let module := two_inputs in
  let op := the_op module 71 in
  let first := the_op module 41 in
  let second := the_op module 44 in
  let report n :=
    mkDiagnostic Error n
      (NonClusterInvalidPredecessor (Registered tf_Foo)
         (Registered TPUReplicatedInputOp)) in
  consistent module = true /\
  getTpuReplicateAttr op = None /\
  first ∈ GetPredecessors module op /\
  second ∈ GetPredecessors module op /\
  CheckNonClusterPredecessors first op fresh_statics
    = Some (false, [report 41%nat], mkStatics true false) /\
  CheckNonClusterPredecessors second op fresh_statics
    = Some (false, [report 44%nat], mkStatics true false) /\
  runOnOperation TypeValidForXLA_tf "TPU" module fresh_statics
    = Some (false, [report 41%nat], mkStatics true true) /\
  report 44%nat ∉ [report 41%nat].
Proof.
  repeat split; try (vm_compute; reflexivity).
  - apply list_elem_of_In. vm_compute. tauto.
  - apply list_elem_of_In. vm_compute. tauto.
  - intros H. apply list_elem_of_singleton in H. discriminate.
Qed.

(** ** C5: the arity of a replicated input *)

(** C5, as the code has it.  [ValidateReplicatedInput] against [num_replicas]
    replicas: a packed input with other than one operand, and an input that
    is not packed with other than [num_replicas] operands, is reported with
    one diagnostic, an arity error on the input, and fails.  With the right
    number of operands the check goes on to the successors: it passes
    exactly when no plain successor lacks the cluster attribute of the
    metadata; when one does it fails, and all it reports is the propagation
    diagnostic on the first such successor, which is an error and not an
    arity diagnostic; when none does it reports nothing. *)
Theorem C5_replicated_input_arity_then_propagation
    (module rep : Operation) (num_replicas : Z) (attr : option string) :
  (packed_arity_ok rep num_replicas = false ->
   let x := replicated_input_arity_diagnostic rep num_replicas in
   returns (ValidateReplicatedInput module rep num_replicas attr) false [x] /\
   diag_severity x = Error /\
   diag_op x = op_id (op_data rep) /\
   is_arity_message (diag_message x) = true) /\
  (∀ parent,
     packed_arity_ok rep num_replicas = true ->
     getParentOp module rep = Some parent ->
     let offender := find (breaks_propagation attr) (successors_via module parent) in
     returns (ValidateReplicatedInput module rep num_replicas attr)
       (bool_decide (offender = None))
       match offender with
       | Some succ =>
           [propagation_diagnostic succ attr (HasSuccessor (getName rep) (getName succ))]
       | None => []
       end /\
     bool_decide (offender = None)
       = negb (existsb (breaks_propagation attr) (successors_via module parent)) /\
     ∀ succ, offender = Some succ ->
       succ ∈ successors_via module parent /\
       plain succ = true /\
       carries attr succ = false /\
       let x := propagation_diagnostic succ attr
                  (HasSuccessor (getName rep) (getName succ)) in
       diag_severity x = Error /\
       diag_op x = op_id (op_data succ) /\
       is_arity_message (diag_message x) = false).
Proof.
  split.
  - intros Harity x. split; [|split; [|split]].
    + exact (returns_ValidateReplicatedInput_arity _ _ _ _ Harity).
    + reflexivity.
    + reflexivity.
    + unfold x, replicated_input_arity_diagnostic. simpl.
      destruct (getIsPacked rep); reflexivity.
  - intros parent Harity Hparent offender.
    pose proof (returns_ValidateReplicatedInput_propagation _ _ _ attr _ Harity Hparent)
      as H.
    rewrite existsb_find in H. fold offender in H.
    split; [|split].
    + destruct offender; exact H.
    + rewrite existsb_find. fold offender. destruct offender; reflexivity.
    + intros succ E. destruct (find_elem _ _ _ E) as [Hin Hbreaks].
      unfold breaks_propagation in Hbreaks.
      apply andb_true_iff in Hbreaks as [Hplain Hcarries].
      apply negb_true_iff in Hcarries.
      repeat split; try assumption.
      unfold propagation_diagnostic. simpl.
      destruct (getTpuReplicateAttr succ); reflexivity.
Qed.

Lemma C5_witness_scenario_A :
  let module := scenario_A in
  let rep := the_op module 41 in
  returns (ValidateReplicatedInput module rep 3 (Some "c1")) false
    [replicated_input_arity_diagnostic rep 3] /\
  returns (ValidateReplicatedInput unpropagated (the_op unpropagated 41) 2 (Some "c1"))
    false
    [mkDiagnostic Error 81
       (MissingTpuReplicateAttr
          (HasSuccessor (Registered TPUReplicatedInputOp) (Registered tf_Foo)))].
Proof.
  split.
  - apply (proj1 (proj1 (C5_replicated_input_arity_then_propagation scenario_A
                           (the_op scenario_A 41) 3 (Some "c1")) eq_refl)).
  - apply (proj1 (proj2 (C5_replicated_input_arity_then_propagation unpropagated
                           (the_op unpropagated 41) 2 (Some "c1"))
                    (the_op unpropagated 40) eq_refl eq_refl)).
Defined.

(** C5 as stated fails on a replicated input with the two operands its cluster
    of two replicas asks for, one of whose consumers is outside every
    cluster: the number of operands equals the number of replicas, and the
    check fails. *)
Lemma C5_counterexample_unpropagated :
  let module := unpropagated in
  let rep := the_op module 41 in
  consistent module = true /\
  getName rep = Registered TPUReplicatedInputOp /\
  getIsPacked rep = false /\
  num_inputs rep = 2 /\
  to_int (getNumReplicas (the_op module 11)) = 2 /\
  ValidateReplicatedInput module rep 2 (Some "c1") fresh_statics
    = Some (false,
            [mkDiagnostic Error 81
               (MissingTpuReplicateAttr
                  (HasSuccessor (Registered TPUReplicatedInputOp) (Registered tf_Foo)))],
            mkStatics true false).
Proof. repeat split; vm_compute; reflexivity. Qed.

(** ** Steps of the loops on a plain neighbour *)



(** ** C8: an empty cluster attribute *)

(** C8, as the code has it.  In a runnable module, a plain operation whose
    cluster attribute is the empty string is reported with an error and the
    run fails.  (Operations of the structural kinds are not looked at.) *)
Theorem C8_empty_cluster_attribute_on_a_plain_operation
    (TypeValidForXLA : MlirType -> bool) (kTpuDevice : string)
    (module op : Operation) :
  runnable module = true ->
  op ∈ walk module ->
  plain op = true ->
  getTpuReplicateAttr op = Some "" ->
  ∃ ds,
    returns (runOnOperation TypeValidForXLA kTpuDevice module) false ds /\
    mkDiagnostic Error (op_id (op_data op)) (EmptyTpuReplicateAttr (getName op)) ∈ ds.
Proof.
  intros Hrun Hop Hplain Hattr.
  pose proof (returns_check_cluster_io_plain module (metadata_of module) op true _ _
                Hplain (returns_CheckOpsClusterIO_empty _ _ _ Hattr)) as H1.
  destruct (check_intersection_contributes TypeValidForXLA kTpuDevice
              (metadata_of module) op) as (v2 & d2 & H2).
  destruct (runOnOperation_fails TypeValidForXLA kTpuDevice module (metadata_of module)
              op ([mkDiagnostic Error (op_id (op_data op))
                     (EmptyTpuReplicateAttr (getName op))] ++ d2)
              Hrun (runnable_metadata_of _ Hrun) Hop) as (ds & Hds & Hin).
  { unfold check_op. eapply returns_bind; [exact H1|apply (H2 (true && false))]. }
  exists ds. split; [exact Hds|]. apply Hin. left.
Qed.

Lemma C8_witness_empty_on_consumer :
  ∃ ds,
    returns (runOnOperation TypeValidForXLA_tf "TPU" empty_on_consumer) false ds /\
    mkDiagnostic Error 71 (EmptyTpuReplicateAttr (Registered tf_Foo)) ∈ ds.
Proof.
  apply (C8_empty_cluster_attribute_on_a_plain_operation TypeValidForXLA_tf "TPU"
           empty_on_consumer (the_op empty_on_consumer 71)).
  - vm_compute; reflexivity.
  - apply (lookupOp_elem _ 71). vm_compute; reflexivity.
  - vm_compute; reflexivity.
  - vm_compute; reflexivity.
Defined.

(** C8 as stated fails on a metadata operation, and on a replicated input,
    whose cluster attribute is the empty string: the run succeeds without a
    diagnostic. *)
Lemma C8_counterexample_empty_on_structural :
  (let module := empty_on_metadata in
   let op := the_op module 11 in
   consistent module = true /\
   lookupOp module 11 = Some op /\
   getName op = Registered TPUReplicateMetadataOp /\
   getTpuReplicateAttr op = Some "" /\
   runOnOperation TypeValidForXLA_tf "TPU" module fresh_statics
     = Some (true, [], mkStatics true true)) /\
  (let module := empty_on_input in
   let op := the_op module 41 in
   consistent module = true /\
   lookupOp module 41 = Some op /\
   getName op = Registered TPUReplicatedInputOp /\
   getTpuReplicateAttr op = Some "" /\
   runOnOperation TypeValidForXLA_tf "TPU" module fresh_statics
     = Some (true, [], mkStatics true true)).
Proof. repeat split; vm_compute; reflexivity. Qed.

(** ** C9: two runs on the same module *)

(** C9.  A run leaves nothing behind but the two static sets, and they do not
    change what a run does: run again on the same module from the statics
    the first run left, the pass returns the same verdict and emits the same
    diagnostics in the same order, and leaves the statics as they are; and
    from whatever statics two runs start, they return and emit the same. *)
Theorem C9_a_second_run_does_the_same
    (TypeValidForXLA : MlirType -> bool) (kTpuDevice : string)
    (module : Operation) (s : Statics) :
  match runOnOperation TypeValidForXLA kTpuDevice module s with
  | Some (verdict, diagnostics, s') =>
      runOnOperation TypeValidForXLA kTpuDevice module s'
        = Some (verdict, diagnostics, s') /\
      ∀ s0, ∃ s1,
        runOnOperation TypeValidForXLA kTpuDevice module s0
          = Some (verdict, diagnostics, s1)
  | None => ∀ s0, runOnOperation TypeValidForXLA kTpuDevice module s0 = None
  end.
Proof.
  pose proof (oblivious_runOnOperation TypeValidForXLA kTpuDevice module) as Hobl.
  destruct (runOnOperation TypeValidForXLA kTpuDevice module s)
    as [[[verdict diagnostics] s']|] eqn:E.
  - split.
    + exact (oblivious_rerun _ _ _ _ _ Hobl E).
    + exact (oblivious_returns _ _ _ _ _ Hobl E).
  - exact (oblivious_null_everywhere _ _ Hobl E).
Qed.

(** ** The six replication and partition kinds *)

Lemma replicated_io_kind_cases op :
  kind_in replicated_io_kinds op = true ->
  plain op = false /\
  kind_in IsIntersectionXlaNonXlaOps_ops op = false /\
  is_tpu_bookkeeping_op op = true.
Proof.
  unfold plain, kind_in, is_tpu_bookkeeping_op, isa.
  destruct (getRegisteredInfo op) as [id|]; [|discriminate].
  intros H. apply bool_decide_eq_true in H. unfold replicated_io_kinds in H.
  set_unfold in H.
  repeat match goal with H : _ ∨ _ |- _ => destruct H end;
    subst id; repeat split; vm_compute; reflexivity.
Qed.

(** Without metadata for its cluster, an operation delegates nothing. *)
Lemma no_delegation_without_metadata module op metadata_map cluster n :
  metadata_map !! cluster = None ->
  returns
    (when (is_replicated_io_of_cluster true
             (bool_decide (is_Some (metadata_map !! cluster))) n)
          (metadata_at metadata_map cluster
             (fun metadata => CheckReplicatedIOOp module n metadata op)))
    true [].
Proof.
  intros Hnone. apply returns_when_skip. unfold is_replicated_io_of_cluster.
  eapply returns_bind_nil; [apply returns_IsTpuRegularOp|].
  rewrite Hnone, bool_decide_eq_false_2 by (intros [? ?]; discriminate).
  rewrite andb_false_r. apply returns_ret.
Qed.


(** * Further properties of the pass *)

(** ** The verdict and the errors *)

Lemma count_errors_app d1 d2 :
  count_errors (d1 ++ d2) = (count_errors d1 + count_errors d2)%nat.
Proof. unfold count_errors. rewrite List.filter_app, length_app. reflexivity. Qed.

Lemma bind_Some {A B} (c : M A) (k : A -> M B) s b d s' :
  bind c k s = Some (b, d, s') ->
  ∃ a d1 s1 d2, c s = Some (a, d1, s1) /\ k a s1 = Some (b, d2, s') /\ d = d1 ++ d2.
Proof.
  unfold bind. destruct (c s) as [[[a d1] s1]|]; [|discriminate].
  destruct (k a s1) as [[[b' d2] s2]|] eqn:Ek; [|discriminate].
  intros E. injection E as <- <- <-. exists a, d1, s1, d2. auto.
Qed.

Lemma silent_ret {A} (a : A) : silent (ret a).
Proof. intros s a' d s' E. injection E as _ <- _. reflexivity. Qed.

Lemma silent_null {A} : silent (@null_dereference A).
Proof. intros s a d s' E. discriminate. Qed.

Lemma silent_bind {A B} (c : M A) (k : A -> M B) :
  silent c -> (∀ a, silent (k a)) -> silent (bind c k).
Proof.
  intros Hc Hk s b d s' E.
  apply bind_Some in E as (a & d1 & s1 & d2 & E1 & E2 & ->).
  rewrite (Hc _ _ _ _ E1), (Hk _ _ _ _ _ E2). reflexivity.
Qed.

Lemma silent_IsTpuRegularOp op : silent (IsTpuRegularOp op).
Proof.
  intros s a d s' E. destruct (returns_IsTpuRegularOp op s) as [s0 E0].
  rewrite E0 in E. injection E as _ <- _. reflexivity.
Qed.

Lemma silent_IsIntersectionXlaNonXlaOps op : silent (IsIntersectionXlaNonXlaOps op).
Proof.
  intros s a d s' E. destruct (returns_IsIntersectionXlaNonXlaOps op s) as [s0 E0].
  rewrite E0 in E. injection E as _ <- _. reflexivity.
Qed.

Lemma silent_GetSuccessors module op : silent (GetSuccessors module op).
Proof.
  unfold GetSuccessors. destruct (getParentOp module op);
    [apply silent_ret|apply silent_null].
Qed.

Lemma reports_ret_true : reports_verdict (ret true).
Proof. intros s b d s' E. injection E as <- <- _. reflexivity. Qed.

Lemma reports_null : reports_verdict null_dereference.
Proof. intros s b d s' E. discriminate. Qed.

Lemma reports_error_then op msg : reports_verdict (emitOpError op msg ;; ret false).
Proof. intros s b d s' E. injection E as <- <- _. reflexivity. Qed.

Lemma reports_warning_then op msg : reports_verdict (emitWarning op msg ;; ret true).
Proof. intros s b d s' E. injection E as <- <- _. reflexivity. Qed.

Lemma reports_after_silent {A} (c : M A) (k : A -> M bool) :
  silent c -> (∀ a, reports_verdict (k a)) -> reports_verdict (bind c k).
Proof.
  intros Hc Hk s b d s' E.
  apply bind_Some in E as (a & d1 & s1 & d2 & E1 & E2 & ->).
  rewrite (Hc _ _ _ _ E1). exact (Hk _ _ _ _ _ E2).
Qed.

Lemma reports_require (check rest : M bool) :
  reports_verdict check -> reports_verdict rest -> reports_verdict (require check rest).
Proof.
  intros Hc Hr s b d s' E. unfold require in E.
  apply bind_Some in E as (ok & d1 & s1 & d2 & E1 & E2 & ->).
  rewrite count_errors_app, (Hc _ _ _ _ E1). destruct ok.
  - exact (Hr _ _ _ _ E2).
  - injection E2 as <- <- _. reflexivity.
Qed.

Lemma reports_when (cond check : M bool) :
  silent cond -> reports_verdict check -> reports_verdict (when cond check).
Proof.
  intros Hc Hr. apply reports_after_silent; [exact Hc|].
  intros []; [exact Hr|apply reports_ret_true].
Qed.

Lemma reports_for_each {A} (body : A -> M bool) xs rest :
  (∀ x, reports_verdict (body x)) -> reports_verdict rest ->
  reports_verdict (for_each body xs rest).
Proof.
  intros Hbody Hrest. induction xs as [|x xs IH]; simpl; [exact Hrest|].
  apply reports_require; [apply Hbody|exact IH].
Qed.

Create HintDb reports.
#[local] Hint Resolve silent_ret silent_null silent_IsTpuRegularOp
  silent_IsIntersectionXlaNonXlaOps silent_GetSuccessors
  reports_ret_true reports_null reports_error_then reports_warning_then : reports.

(** Takes a goal about the diagnostics of a checker apart along its
    combinators and case distinctions. *)
Ltac reports_step :=
  match goal with
  | |- ∀ _, _ => intro
  | |- reports_verdict (emitOpError _ _ ;; ret false) => apply reports_error_then
  | |- reports_verdict (emitWarning _ _ ;; ret true) => apply reports_warning_then
  | |- reports_verdict (require _ _) => apply reports_require
  | |- reports_verdict (when _ _) => apply reports_when
  | |- reports_verdict (for_each _ _ _) => apply reports_for_each
  | |- reports_verdict (bind _ _) => apply reports_after_silent
  | |- silent (bind _ _) => apply silent_bind
  | |- reports_verdict (if ?b then _ else _) => destruct b
  | |- reports_verdict (match ?x with _ => _ end) => destruct x
  | |- silent (if ?b then _ else _) => destruct b
  | |- silent (match ?x with _ => _ end) => destruct x
  | |- _ => solve [auto with reports]
  end.

Ltac solve_reports := repeat reports_step.

Lemma reports_CheckTpuReplicateAttr op attr errormsg :
  reports_verdict (CheckTpuReplicateAttr op attr errormsg).
Proof. unfold CheckTpuReplicateAttr. solve_reports. Qed.

#[local] Hint Resolve reports_CheckTpuReplicateAttr : reports.

Lemma reports_ValidateReplicatedInput module rep num_replicas attr :
  reports_verdict (ValidateReplicatedInput module rep num_replicas attr).
Proof. unfold ValidateReplicatedInput. solve_reports. Qed.

Lemma reports_ValidateReplicatedOutput module rep num_replicas attr :
  reports_verdict (ValidateReplicatedOutput module rep num_replicas attr).
Proof. unfold ValidateReplicatedOutput. solve_reports. Qed.

Lemma reports_ValidatePartitionedInput rep n :
  reports_verdict (ValidatePartitionedInput rep n).
Proof. unfold ValidatePartitionedInput. solve_reports. Qed.

Lemma reports_ValidatePartitionedInputV2 rep n :
  reports_verdict (ValidatePartitionedInputV2 rep n).
Proof. unfold ValidatePartitionedInputV2. solve_reports. Qed.

Lemma reports_ValidatePartitionedOutput rep n :
  reports_verdict (ValidatePartitionedOutput rep n).
Proof. unfold ValidatePartitionedOutput. solve_reports. Qed.

#[local] Hint Resolve reports_ValidateReplicatedInput reports_ValidateReplicatedOutput
  reports_ValidatePartitionedInput reports_ValidatePartitionedInputV2
  reports_ValidatePartitionedOutput : reports.

Lemma reports_when_isa kind op validate rest :
  reports_verdict validate -> reports_verdict rest ->
  reports_verdict (when_isa kind op validate rest).
Proof. intros Hv Hr. unfold when_isa. solve_reports. Qed.

Lemma reports_CheckReplicatedIOOp module op metadata parent :
  reports_verdict (CheckReplicatedIOOp module op metadata parent).
Proof.
  unfold CheckReplicatedIOOp.
  repeat (apply reports_when_isa; [auto with reports|]).
  apply reports_ret_true.
Qed.

Lemma reports_CheckClusterSuccessors op cluster parent :
  reports_verdict (CheckClusterSuccessors op cluster parent).
Proof. unfold CheckClusterSuccessors. solve_reports. Qed.

Lemma reports_CheckNonClusterSuccessors op parent :
  reports_verdict (CheckNonClusterSuccessors op parent).
Proof. unfold CheckNonClusterSuccessors. solve_reports. Qed.

Lemma reports_CheckNonClusterPredecessors op parent :
  reports_verdict (CheckNonClusterPredecessors op parent).
Proof. unfold CheckNonClusterPredecessors. solve_reports. Qed.

#[local] Hint Resolve reports_CheckReplicatedIOOp reports_CheckClusterSuccessors
  reports_CheckNonClusterSuccessors reports_CheckNonClusterPredecessors : reports.

Lemma reports_check_predecessor module op metadata_map is_cluster_op cluster pred :
  reports_verdict (check_predecessor module op metadata_map is_cluster_op cluster pred).
Proof.
  unfold check_predecessor, metadata_at, is_replicated_io_of_cluster. solve_reports.
Qed.

Lemma reports_check_successor module op metadata_map is_cluster_op cluster succ :
  reports_verdict (check_successor module op metadata_map is_cluster_op cluster succ).
Proof.
  unfold check_successor, metadata_at, is_replicated_io_of_cluster,
    is_regular_of_cluster.
  solve_reports.
Qed.

#[local] Hint Resolve reports_check_predecessor reports_check_successor : reports.

Lemma reports_CheckOpsClusterIO module op metadata_map :
  reports_verdict (CheckOpsClusterIO module op metadata_map).
Proof.
  unfold CheckOpsClusterIO, CheckOpsClusterIO_neighbours. solve_reports.
Qed.

Lemma accumulates_bind (c : M bool) (k : bool -> M bool) success n1 n2 :
  accumulates c success n1 ->
  (∀ x, accumulates (k x) x n2) ->
  accumulates (bind c k) success (n1 + n2).
Proof.
  intros Hc Hk s b d s' E.
  apply bind_Some in E as (x & d1 & s1 & d2 & E1 & E2 & ->).
  destruct (Hc _ _ _ _ E1) as [-> Hn1]. destruct (Hk _ _ _ _ _ E2) as [-> Hn2].
  rewrite count_errors_app. split; [|lia].
  destruct success; simpl; [|reflexivity].
  repeat case_bool_decide; simpl; try reflexivity; lia.
Qed.

Lemma accumulates_verdict (check : M bool) success :
  reports_verdict check ->
  accumulates (ok <- check ;; ret (success && ok)) success 1.
Proof.
  intros Hcheck s b d s' E.
  apply bind_Some in E as (ok & d1 & s1 & d2 & E1 & E2 & ->).
  injection E2 as <- <- _. rewrite app_nil_r, (Hcheck _ _ _ _ E1).
  destruct ok; split; try lia; destruct success; reflexivity.
Qed.

Lemma accumulates_ret success n : accumulates (ret success) success n.
Proof.
  intros s b d s' E. injection E as <- <- _. split; [|apply Nat.le_0_l].
  rewrite andb_true_r. reflexivity.
Qed.

Lemma accumulates_weaken (c : M bool) success n m :
  (n <= m)%nat -> accumulates c success n -> accumulates c success m.
Proof.
  intros Hle Hc s b d s' E. destruct (Hc _ _ _ _ E) as [Hb Hn]. split; [exact Hb|lia].
Qed.

Lemma accumulates_after_classifier (classify : M bool) (answer : bool)
    (k : bool -> M bool) success n :
  returns classify answer [] ->
  accumulates (k answer) success n ->
  accumulates (bind classify k) success n.
Proof.
  intros Hclass Hk s b d s' E. unfold bind in E.
  destruct (Hclass s) as [s1 E1]. rewrite E1 in E.
  destruct (k answer s1) as [[[b' d'] s2]|] eqn:Ek; [|discriminate].
  injection E as <- <- <-. exact (Hk _ _ _ _ Ek).
Qed.

Section VerdictAndErrors.

Variable TypeValidForXLA : MlirType -> bool.
Variable kTpuDevice : string.

Lemma reports_ValidateIntersectionXlaNonXlaOps op metadata_map :
  reports_verdict
    (ValidateIntersectionXlaNonXlaOps TypeValidForXLA kTpuDevice op metadata_map).
Proof. unfold ValidateIntersectionXlaNonXlaOps. solve_reports. Qed.

Lemma silent_collect_metadata ops metadata_map :
  silent (collect_metadata ops metadata_map).
Proof.
  revert metadata_map. induction ops as [|meta rest IH]; intros metadata_map; simpl.
  - apply silent_ret.
  - destruct (isa TPUReplicateMetadataOp meta); [|apply IH].
    destruct (getTpuReplicateAttr meta); [apply IH|apply silent_null].
Qed.

Lemma accumulates_check_cluster_io module metadata_map op success :
  accumulates (check_cluster_io module metadata_map op success) success
    (if checked_for_cluster_io op then 1 else 0).
Proof.
  unfold check_cluster_io, checked_for_cluster_io.
  apply (accumulates_after_classifier _ (plain op)); [apply returns_IsTpuRegularOp|].
  destruct (plain op).
  - apply accumulates_verdict, reports_CheckOpsClusterIO.
  - apply accumulates_ret.
Qed.

Lemma accumulates_check_intersection metadata_map op success :
  accumulates (check_intersection TypeValidForXLA kTpuDevice metadata_map op success)
    success (if checked_for_type_constraints op then 1 else 0).
Proof.
  unfold check_intersection, checked_for_type_constraints.
  apply (accumulates_after_classifier _ (negb (kind_in IsIntersectionXlaNonXlaOps_ops op)));
    [apply returns_IsIntersectionXlaNonXlaOps|].
  destruct (kind_in IsIntersectionXlaNonXlaOps_ops op); simpl;
    [apply accumulates_ret|].
  destruct (is_tpu_bookkeeping_op op) eqn:Hbook; simpl.
  - unfold ValidateIntersectionXlaNonXlaOps. rewrite Hbook.
    intros s b d s' E. injection E as <- <- _. split; [|apply Nat.le_0_l].
    reflexivity.
  - apply accumulates_verdict, reports_ValidateIntersectionXlaNonXlaOps.
Qed.

Lemma error_bound_cons op ops :
  error_bound (op :: ops)
  = ((if checked_for_cluster_io op then 1 else 0) +
     (if checked_for_type_constraints op then 1 else 0) + error_bound ops)%nat.
Proof.
  unfold error_bound. simpl.
  destruct (checked_for_cluster_io op), (checked_for_type_constraints op); simpl; lia.
Qed.

Lemma accumulates_check_op module metadata_map op success :
  accumulates (check_op TypeValidForXLA kTpuDevice module metadata_map op success)
    success
    ((if checked_for_cluster_io op then 1 else 0) +
     (if checked_for_type_constraints op then 1 else 0)).
Proof.
  unfold check_op. apply accumulates_bind.
  - apply accumulates_check_cluster_io.
  - intros x. apply accumulates_check_intersection.
Qed.

Lemma accumulates_check_ops module metadata_map ops success :
  accumulates (check_ops TypeValidForXLA kTpuDevice module metadata_map ops success)
    success (error_bound ops).
Proof.
  revert success. induction ops as [|op rest IH]; intros success; simpl.
  - apply accumulates_ret.
  - rewrite error_bound_cons. apply accumulates_bind.
    + apply accumulates_check_op.
    + exact IH.
Qed.

Lemma accumulates_runOnOperation module :
  accumulates (runOnOperation TypeValidForXLA kTpuDevice module) true
    (error_bound (walk module)).
Proof.
  intros s b d s' E. unfold runOnOperation in E.
  apply bind_Some in E as (metadata_map & d0 & s0 & d1 & E0 & E1 & ->).
  rewrite (silent_collect_metadata _ _ _ _ _ _ E0). simpl.
  apply bind_Some in E1 as (success & d2 & s2 & d3 & E2 & E3 & ->).
  injection E3 as <- <- _. rewrite app_nil_r.
  exact (accumulates_check_ops _ _ _ _ _ _ _ _ E2).
Qed.

End VerdictAndErrors.

(** X1.  The verdict says what the diagnostics say.  A run on a runnable
    module returns, and it returns failure exactly when it emitted an error:
    no failure without an error diagnostic, no error diagnostic without
    failure, and warnings alone never fail the pass.  The number of errors
    of one run is at most the number of plain operations plus the number of
    operations the type constraint check is made on: each operation is
    reported at most once by each of the two checks. *)
Theorem X1_failure_exactly_when_an_error_was_emitted
    (TypeValidForXLA : MlirType -> bool) (kTpuDevice : string) (module : Operation) :
  runnable module = true ->
  ∃ verdict diagnostics,
    returns (runOnOperation TypeValidForXLA kTpuDevice module) verdict diagnostics /\
    verdict = bool_decide (count_errors diagnostics = 0%nat) /\
    (count_errors diagnostics <= error_bound (walk module))%nat.
Proof.
  intros Hrun.
  destruct (runOnOperation_contributions TypeValidForXLA kTpuDevice module Hrun)
    as (metadata_map & vds & _ & _ & Hret).
  exists (forallb fst vds), (concat (vds.*2)). split; [exact Hret|].
  destruct (Hret fresh_statics) as [s' E].
  exact (accumulates_runOnOperation _ _ _ _ _ _ _ E).
Qed.

Lemma X1_witness_unpropagated :
  ∃ verdict diagnostics,
    returns (runOnOperation TypeValidForXLA_tf "TPU" unpropagated) verdict diagnostics /\
    verdict = bool_decide (count_errors diagnostics = 0%nat) /\
    (count_errors diagnostics <= error_bound (walk unpropagated))%nat.
Proof.
  apply (X1_failure_exactly_when_an_error_was_emitted TypeValidForXLA_tf "TPU"
           unpropagated).
  vm_compute; reflexivity.
Defined.

(** ** One call of the cluster checks *)

(** X2.  One call of [CheckOpsClusterIO] reports at most one error, and it
    returns [false] exactly when it does: the first violation it meets
    among the cluster attribute, the predecessors and the successors of the
    operation ends the call.  Warnings do not count. *)
Theorem X2_CheckOpsClusterIO_reports_its_first_violation
    (module op : Operation) (metadata_map : MetadataMap) :
  (getTpuReplicateAttr op ≠ Some "" -> is_Some (getParentOp module op)) ->
  (∀ n, n ∈ walk module -> input_has_parent module n) ->
  ∃ b d,
    returns (CheckOpsClusterIO module op metadata_map) b d /\
    count_errors d = if b then 0%nat else 1%nat.
Proof.
  intros Hparent Hinputs.
  destruct (total_CheckOpsClusterIO module op metadata_map Hparent Hinputs)
    as (b & d & H).
  exists b, d. split; [exact H|].
  destruct (H fresh_statics) as [s' E].
  exact (reports_CheckOpsClusterIO _ _ _ _ _ _ _ E).
Qed.

Lemma X2_witness_unpropagated :
  ∃ b d,
    returns (CheckOpsClusterIO unpropagated (the_op unpropagated 71)
               (metadata_of unpropagated)) b d /\
    count_errors d = if b then 0%nat else 1%nat.
Proof.
  apply (X2_CheckOpsClusterIO_reports_its_first_violation unpropagated
           (the_op unpropagated 71) (metadata_of unpropagated)).
  - intros _. vm_compute. eauto.
  - intros n Hn. apply runnable_input_has_parent; [vm_compute; reflexivity|exact Hn].
Defined.

(** ** Modules without clusters *)

Lemma tpu_free_elem module op :
  tpu_free module = true -> op ∈ walk module ->
  getTpuReplicateAttr op = None /\
  isa TPUReplicatedInputOp op = false /\
  isa TPUReplicatedOutputOp op = false.
Proof.
  unfold tpu_free. rewrite forallb_forall. intros H Hop.
  specialize (H op (proj1 (list_elem_of_In _ _) Hop)). unfold tpu_free_op in H.
  apply andb_true_iff in H as [H Hout]. apply andb_true_iff in H as [Hattr Hin].
  apply bool_decide_eq_true in Hattr. apply negb_true_iff in Hin, Hout. auto.
Qed.

Lemma find_none_elem {A} (f : A -> bool) (l : list A) :
  (∀ x, x ∈ l -> f x = false) -> find f l = None.
Proof.
  intros H. destruct (find f l) as [x|] eqn:E; [|reflexivity].
  destruct (find_elem _ _ _ E) as [Hin Hx]. rewrite (H x Hin) in Hx. discriminate.
Qed.

(** X3.  No cluster, no complaint.  On a runnable module none of whose
    operations carries a cluster attribute or is a replicated input or
    output, the pass succeeds and emits nothing, whatever the types and the
    devices of the operations are. *)
Theorem X3_module_without_clusters_passes_silently
    (TypeValidForXLA : MlirType -> bool) (kTpuDevice : string) (module : Operation) :
  runnable module = true ->
  tpu_free module = true ->
  returns (runOnOperation TypeValidForXLA kTpuDevice module) true [].
Proof.
  intros Hrun Hfree.
  assert (∀ op success, op ∈ walk module ->
            returns (check_op TypeValidForXLA kTpuDevice module (metadata_of module)
                       op success) success []) as Hop.
  { intros op success Hin. destruct (tpu_free_elem _ _ Hfree Hin) as (Hattr & _ & _).
    unfold check_op. apply (returns_bind_nil _ _ success).
    - destruct (plain op) eqn:Hplain.
      + destruct (runnable_op_parent module op (runnable_elem _ _ Hrun Hin)
                    (plain_not_isa _ _ Hplain ModuleOp_structural)) as [parent Hparent].
        pose proof (returns_CheckOpsClusterIO_non_cluster_succ module op
                      (metadata_of module) parent Hattr) as H.
        rewrite existsb_find in H.
        rewrite (find_none_elem (isa TPUReplicatedOutputOp)) in H.
        * replace success with (success && true) at 2 by apply andb_true_r.
          apply returns_check_cluster_io_plain; [exact Hplain|].
          apply H; [|exact Hparent]. apply find_none_elem.
          intros pred Hpred.
          exact (proj1 (proj2 (tpu_free_elem _ _ Hfree
                                 (GetPredecessors_elem _ _ _ Hpred)))).
        * intros succ Hsucc.
          exact (proj2 (proj2 (tpu_free_elem _ _ Hfree
                                 (successors_via_elem _ _ _ Hsucc)))).
      + exact (returns_check_cluster_io_structural _ _ _ _ Hplain).
    - destruct (kind_in IsIntersectionXlaNonXlaOps_ops op) eqn:Hkind.
      + exact (returns_check_intersection_skip _ _ _ _ _ Hkind).
      + replace success with (success && true) at 2 by apply andb_true_r.
        apply returns_check_intersection_run; [exact Hkind|].
        pose proof (returns_ValidateIntersectionXlaNonXlaOps TypeValidForXLA
                      kTpuDevice op (metadata_of module)) as H.
        unfold type_class_conflict, IsMustBeXlaOp in H. rewrite Hattr in H.
        rewrite andb_false_r in H. exact H. }
  assert (∀ ops success, (∀ op, op ∈ ops -> op ∈ walk module) ->
            returns (check_ops TypeValidForXLA kTpuDevice module (metadata_of module)
                       ops success) success []) as Hops.
  { induction ops as [|op rest IH]; intros success Hsub; simpl.
    - apply returns_ret.
    - apply (returns_bind_nil _ _ success).
      + apply Hop, Hsub. left.
      + apply IH. intros o Ho. apply Hsub. right. exact Ho. }
  unfold runOnOperation.
  eapply returns_bind_nil; [exact (runnable_metadata_of _ Hrun)|].
  apply (returns_bind_nil _ _ true); [|apply returns_ret].
  apply Hops. auto.
Qed.

Lemma X3_witness_no_tpu :
  returns (runOnOperation TypeValidForXLA_tf "TPU" no_tpu) true [].
Proof.
  apply (X3_module_without_clusters_passes_silently TypeValidForXLA_tf "TPU" no_tpu).
  - vm_compute; reflexivity.
  - vm_compute; reflexivity.
Defined.

(** ** The metadata map *)

Lemma collect_metadata_lookup ops :
  ∀ metadata_map,
    (∀ op, op ∈ ops -> isa TPUReplicateMetadataOp op = true ->
           is_Some (getTpuReplicateAttr op)) ->
    ∃ collected,
      returns (collect_metadata ops metadata_map) collected [] /\
      ∀ cluster,
        collected !! cluster
        = match last (List.filter (declares cluster) ops) with
          | Some metadata => Some metadata
          | None => metadata_map !! cluster
          end.
Proof.
  induction ops as [|meta rest IH]; intros metadata_map Hops.
  - exists metadata_map. split; [apply returns_ret|]. reflexivity.
  - assert (∀ op, op ∈ rest -> isa TPUReplicateMetadataOp op = true ->
                  is_Some (getTpuReplicateAttr op)) as Hrest.
    { intros o Ho. apply Hops. right. exact Ho. }
    simpl. unfold declares at 1.
    destruct (isa TPUReplicateMetadataOp meta) eqn:Hkind; simpl.
    + destruct (Hops meta (list_elem_of_here _ _) Hkind) as [c Hc]. rewrite Hc.
      destruct (IH (<[c := meta]> metadata_map) Hrest) as (collected & Hret & Hlook).
      exists collected. split; [exact Hret|]. intros cluster. rewrite Hlook.
      destruct (decide (c = cluster)) as [->|Hne].
      * rewrite bool_decide_eq_true_2 by reflexivity. rewrite last_cons.
        destruct (last _); [reflexivity|]. apply lookup_insert_eq.
      * rewrite bool_decide_eq_false_2 by congruence.
        destruct (last _); [reflexivity|]. apply lookup_insert_ne. exact Hne.
    + exact (IH metadata_map Hrest).
Qed.

(** X4.  The later metadata wins.  After the first walk of a run on a
    runnable module, the metadata map holds, under each cluster name, the
    last operation of the walk that is a metadata operation with that name
    as its cluster attribute, and nothing under every other name: an earlier
    metadata operation of the same cluster is dropped without a
    diagnostic.  So every entry of the map is a metadata operation of the
    module filed under its own cluster attribute. *)
Theorem X4_metadata_map_holds_the_last_declaration
    (module : Operation) :
  runnable module = true ->
  ∃ metadata_map,
    returns (collect_metadata (walk module) ∅) metadata_map [] /\
    (∀ cluster,
       metadata_map !! cluster = last (List.filter (declares cluster) (walk module))) /\
    (∀ cluster metadata,
       metadata_map !! cluster = Some metadata ->
       metadata ∈ walk module /\
       isa TPUReplicateMetadataOp metadata = true /\
       getTpuReplicateAttr metadata = Some cluster).
Proof.
  intros Hrun.
  destruct (collect_metadata_lookup (walk module) ∅) as (collected & Hret & Hlook).
  { intros op Hop E. pose proof (runnable_elem _ _ Hrun Hop) as H.
    unfold runnable_op in H. apply andb_true_iff in H as [_ H].
    rewrite E in H. simpl in H. apply bool_decide_eq_true in H. exact H. }
  assert (∀ cluster,
            collected !! cluster = last (List.filter (declares cluster) (walk module)))
    as Hlast.
  { intros cluster. rewrite Hlook. destruct (last _); reflexivity. }
  exists collected. split; [exact Hret|]. split; [exact Hlast|].
  intros cluster metadata Hmd. rewrite Hlast in Hmd.
  apply last_Some_elem_of, list_elem_of_In, List.filter_In in Hmd as [Hin Hdecl].
  unfold declares in Hdecl. apply andb_true_iff in Hdecl as [Hkind Hattr].
  apply bool_decide_eq_true in Hattr. rewrite list_elem_of_In. auto.
Qed.

Lemma X4_witness_duplicate_metadata :
  ∃ metadata_map,
    returns (collect_metadata (walk duplicate_metadata) ∅) metadata_map [] /\
    (∀ cluster,
       metadata_map !! cluster
       = last (List.filter (declares cluster) (walk duplicate_metadata))) /\
    (∀ cluster metadata,
       metadata_map !! cluster = Some metadata ->
       metadata ∈ walk duplicate_metadata /\
       isa TPUReplicateMetadataOp metadata = true /\
       getTpuReplicateAttr metadata = Some cluster).
Proof.
  apply (X4_metadata_map_holds_the_last_declaration duplicate_metadata).
  vm_compute; reflexivity.
Defined.

Lemma collect_metadata_null ops :
  ∀ metadata_map s,
    (∃ meta, meta ∈ ops /\ anonymous_metadata meta = true) ->
    collect_metadata ops metadata_map s = None.
Proof.
  induction ops as [|op rest IH]; intros metadata_map s (meta & Hin & Hanon).
  - inversion Hin.
  - simpl. destruct (isa TPUReplicateMetadataOp op) eqn:Hkind.
    + destruct (getTpuReplicateAttr op) as [c|] eqn:Hattr; [|reflexivity].
      apply IH. exists meta. split; [|exact Hanon].
      apply elem_of_cons in Hin as [->|Hin]; [|exact Hin].
      unfold anonymous_metadata in Hanon. rewrite Hattr in Hanon.
      rewrite andb_false_r in Hanon. discriminate.
    + apply IH. exists meta. split; [|exact Hanon].
      apply elem_of_cons in Hin as [->|Hin]; [|exact Hin].
      unfold anonymous_metadata in Hanon. rewrite Hkind in Hanon. discriminate.
Qed.

(** X5.  A metadata operation without cluster attribute is fatal.  The first
    walk reads the cluster attribute of every metadata operation as a string
    without testing that it is there; on a module with a metadata operation
    that carries none, a run has no result, from whatever statics it starts:
    no verdict and no diagnostic.  Otherwise the first walk returns. *)
Theorem X5_metadata_without_cluster_attribute_is_dereferenced
    (TypeValidForXLA : MlirType -> bool) (kTpuDevice : string) (module : Operation) :
  ((∃ meta, meta ∈ walk module /\ anonymous_metadata meta = true) ->
   ∀ s, runOnOperation TypeValidForXLA kTpuDevice module s = None) /\
  ((∀ meta, meta ∈ walk module -> anonymous_metadata meta = false) ->
   ∃ metadata_map, returns (collect_metadata (walk module) ∅) metadata_map []).
Proof.
  split.
  - intros Hex s. unfold runOnOperation, bind.
    rewrite (collect_metadata_null _ _ _ Hex). reflexivity.
  - intros Hall. apply total_collect_metadata. intros op Hop Hkind.
    specialize (Hall op Hop). unfold anonymous_metadata in Hall.
    rewrite Hkind in Hall. simpl in Hall. apply bool_decide_eq_false in Hall.
    destruct (getTpuReplicateAttr op); [eauto|contradiction].
Qed.

Lemma X5_witness_metadata_without_cluster :
  (∀ s, runOnOperation TypeValidForXLA_tf "TPU" metadata_without_cluster s = None) /\
  (∃ metadata_map, returns (collect_metadata (walk scenario_A) ∅) metadata_map []).
Proof.
  split.
  - apply (proj1 (X5_metadata_without_cluster_attribute_is_dereferenced
                    TypeValidForXLA_tf "TPU" metadata_without_cluster)).
    exists (the_op metadata_without_cluster 11). split.
    + apply (lookupOp_elem _ 11). vm_compute; reflexivity.
    + vm_compute; reflexivity.
  - apply (proj2 (X5_metadata_without_cluster_attribute_is_dereferenced
                    TypeValidForXLA_tf "TPU" scenario_A)).
    by_enumeration.
Defined.

(** ** Which metadata a call consults *)

Lemma bind_ext {A B} (c c' : M A) (k k' : A -> M B) s :
  (∀ s, c s = c' s) -> (∀ a s, k a s = k' a s) -> bind c k s = bind c' k' s.
Proof.
  intros Hc Hk. unfold bind. rewrite Hc.
  destruct (c' s) as [[[a d1] s1]|]; [|reflexivity]. rewrite Hk. reflexivity.
Qed.

Lemma require_ext (check check' rest rest' : M bool) s :
  (∀ s, check s = check' s) -> (∀ s, rest s = rest' s) ->
  require check rest s = require check' rest' s.
Proof.
  intros Hc Hr. unfold require. apply bind_ext; [exact Hc|].
  intros [] s0; [apply Hr|reflexivity].
Qed.

Lemma for_each_ext {A} (body body' : A -> M bool) xs rest rest' s :
  (∀ x s, body x s = body' x s) -> (∀ s, rest s = rest' s) ->
  for_each body xs rest s = for_each body' xs rest' s.
Proof.
  intros Hbody Hrest. revert s. induction xs as [|x xs IH]; intros s; simpl.
  - apply Hrest.
  - apply require_ext; [apply Hbody|exact IH].
Qed.

Lemma CheckOpsClusterIO_neighbours_cluster_ext module op m1 m2 cluster s :
  m1 !! cluster = m2 !! cluster ->
  CheckOpsClusterIO_neighbours module op m1 true cluster s
  = CheckOpsClusterIO_neighbours module op m2 true cluster s.
Proof.
  intros H. unfold CheckOpsClusterIO_neighbours, check_predecessor, check_successor,
    metadata_at.
  rewrite H. reflexivity.
Qed.

Lemma CheckOpsClusterIO_neighbours_non_cluster_ext module op m1 m2 s :
  CheckOpsClusterIO_neighbours module op m1 false "" s
  = CheckOpsClusterIO_neighbours module op m2 false "" s.
Proof.
  unfold CheckOpsClusterIO_neighbours.
  apply for_each_ext.
  - intros pred s0. unfold check_predecessor. apply require_ext; reflexivity.
  - intros s0. apply bind_ext; [reflexivity|]. intros successors s1.
    apply for_each_ext; [|reflexivity].
    intros succ s2. unfold check_successor. apply require_ext; reflexivity.
Qed.

(** X6.  [CheckOpsClusterIO] on an operation reads the metadata map at the
    cluster name of that operation and nowhere else: two maps with the same
    entry there give the same verdict and the same diagnostics.  On an
    operation without cluster attribute the map is not read at all. *)
Theorem X6_CheckOpsClusterIO_reads_one_entry_of_the_map
    (module op : Operation) (m1 m2 : MetadataMap) :
  (∀ cluster, getTpuReplicateAttr op = Some cluster -> m1 !! cluster = m2 !! cluster) ->
  ∀ s, CheckOpsClusterIO module op m1 s = CheckOpsClusterIO module op m2 s.
Proof.
  intros H s. unfold CheckOpsClusterIO.
  destruct (getTpuReplicateAttr op) as [cluster|].
  - destruct (bool_decide (cluster = "")); [reflexivity|].
    apply CheckOpsClusterIO_neighbours_cluster_ext, H. reflexivity.
  - apply CheckOpsClusterIO_neighbours_non_cluster_ext.
Qed.

Lemma X6_witness_cross_cluster :
  CheckOpsClusterIO cross_cluster (the_op cross_cluster 71)
    (delete "c2" (metadata_of cross_cluster)) fresh_statics
  = CheckOpsClusterIO cross_cluster (the_op cross_cluster 71)
      (metadata_of cross_cluster) fresh_statics.
Proof.
  apply (X6_CheckOpsClusterIO_reads_one_entry_of_the_map cross_cluster
           (the_op cross_cluster 71)).
  intros cluster E. vm_compute in E. injection E as <-. vm_compute. reflexivity.
Defined.

(** ** The replicated output *)

(** X7.  [ValidateReplicatedOutput] against [num_replicas] replicas: an output
    operation with other than [num_replicas] results is reported with an arity
    diagnostic and fails.  Otherwise the check passes exactly when every plain
    operation among its predecessors carries the cluster attribute of the
    metadata, and reports the first that does not.  It never asks for the
    parent of the operation, so it always returns. *)
Theorem X7_replicated_output_arity_then_propagation
    (module rep : Operation) (num_replicas : Z) (attr : option string) :
  (num_outputs rep ≠ num_replicas ->
   returns (ValidateReplicatedOutput module rep num_replicas attr) false
     [mkDiagnostic Error (op_id (op_data rep))
        (ReplicatedOutputsInconsistent num_replicas (num_outputs rep))]) /\
  (num_outputs rep = num_replicas ->
   returns (ValidateReplicatedOutput module rep num_replicas attr)
     (negb (existsb (breaks_propagation attr) (GetPredecessors module rep)))
     (match find (breaks_propagation attr) (GetPredecessors module rep) with
      | Some pred =>
          [propagation_diagnostic pred attr
             (HasPredecessor (getName rep) (getName pred))]
      | None => []
      end)).
Proof.
  split; intros Harity; unfold ValidateReplicatedOutput.
  - rewrite bool_decide_eq_true_2 by exact Harity. apply returns_error_then.
  - rewrite bool_decide_eq_false_2 by tauto.
    pose proof (returns_for_each_find
      (fun pred =>
         regular <- IsTpuRegularOp pred ;;
         if negb regular then ret true
         else CheckTpuReplicateAttr pred attr
                (HasPredecessor (getName rep) (getName pred)))
      (breaks_propagation attr)
      (fun pred => [propagation_diagnostic pred attr
                      (HasPredecessor (getName rep) (getName pred))])
      (GetPredecessors module rep) (ret true) true []) as H.
    destruct (existsb (breaks_propagation attr) (GetPredecessors module rep));
      apply H; try apply returns_ret; intros; apply returns_propagation_step.
Qed.

Lemma X7_witness_replicated_output_of_two :
  let module := replicated_output_of_two in
  let rep := the_op module 71 in
  returns (ValidateReplicatedOutput module rep 3 (Some "c1")) false
    [mkDiagnostic Error 71 (ReplicatedOutputsInconsistent 3 2)] /\
  returns (ValidateReplicatedOutput module rep 2 (Some "c1"))
    (negb (existsb (breaks_propagation (Some "c1")) (GetPredecessors module rep)))
    (match find (breaks_propagation (Some "c1")) (GetPredecessors module rep) with
     | Some pred =>
         [propagation_diagnostic pred (Some "c1")
            (HasPredecessor (getName rep) (getName pred))]
     | None => []
     end).
Proof.
  split.
  - apply (proj1 (X7_replicated_output_arity_then_propagation
                    replicated_output_of_two (the_op replicated_output_of_two 71)
                    3 (Some "c1"))).
    vm_compute. discriminate.
  - apply (proj2 (X7_replicated_output_arity_then_propagation
                    replicated_output_of_two (the_op replicated_output_of_two 71)
                    2 (Some "c1"))).
    vm_compute; reflexivity.
Defined.

(** ** The dispatch on the kind of a neighbour *)

Lemma returns_when_isa_run kind op validate rest b d :
  isa kind op = true ->
  returns validate b d -> returns rest true [] ->
  returns (when_isa kind op validate rest) b d.
Proof.
  intros Hkind Hv Hr. unfold when_isa. rewrite Hkind.
  exact (returns_require_same _ _ _ _ Hv Hr).
Qed.

Lemma returns_when_isa_skip kind op validate rest b d :
  isa kind op = false -> returns rest b d ->
  returns (when_isa kind op validate rest) b d.
Proof. intros Hkind Hr. unfold when_isa. rewrite Hkind. exact Hr. Qed.

Lemma isa_of_registered kind kind' op :
  getRegisteredInfo op = Some kind -> isa kind' op = bool_decide (kind = kind').
Proof. intros E. unfold isa. rewrite E. reflexivity. Qed.

(** Settles the six tests of [CheckReplicatedIOOp] on an operation whose kind
    is known. *)
Ltac dispatch E :=
  unfold CheckReplicatedIOOp;
  repeat first
    [ apply returns_ret
    | apply returns_when_isa_skip;
        [rewrite (isa_of_registered _ _ _ E); reflexivity|]
    | apply returns_when_isa_run;
        [rewrite (isa_of_registered _ _ _ E); reflexivity|assumption|] ].

(** X8.  [CheckReplicatedIOOp] on an operation does what the validator of the
    kind of the operation does, with the replication counts of the metadata
    converted to [int] and the cluster attribute of the metadata: it returns
    and reports the same.  On an operation of no replication or partition
    kind, registered or not, it passes without a diagnostic.  The operation
    [parent] the call is made for has no part in it. *)
Theorem X8_CheckReplicatedIOOp_runs_the_validator_of_the_kind
    (module op metadata parent : Operation) (b : bool) (d : list Diagnostic)
    (s' : Statics) :
  validator_of (getRegisteredInfo op) module op metadata fresh_statics
    = Some (b, d, s') ->
  returns (CheckReplicatedIOOp module op metadata parent) b d.
Proof.
  intros Hrun.
  assert (oblivious (validator_of (getRegisteredInfo op) module op metadata)) as Hobl.
  { unfold validator_of. destruct (getRegisteredInfo op) as [[]|];
      auto using oblivious_ret, oblivious_ValidateReplicatedInput,
        oblivious_ValidateReplicatedOutput, oblivious_ValidatePartitionedInput,
        oblivious_ValidatePartitionedInputV2, oblivious_ValidatePartitionedOutput. }
  pose proof (oblivious_returns _ _ _ _ _ Hobl Hrun) as H. clear Hrun Hobl.
  unfold validator_of in H.
  destruct (getRegisteredInfo op) as [kind|] eqn:E.
  - destruct kind; try (destruct (returns_inj _ _ _ _ _ H (returns_ret true)) as [-> ->]);
      dispatch E.
  - destruct (returns_inj _ _ _ _ _ H (returns_ret true)) as [-> ->].
    unfold CheckReplicatedIOOp, when_isa, isa. rewrite E. apply returns_ret.
Qed.

Lemma X8_witness_cross_cluster :
  returns (CheckReplicatedIOOp cross_cluster (the_op cross_cluster 41)
             (the_op cross_cluster 11) (the_op cross_cluster 71))
    false [mkDiagnostic Error 41 (PartitionedInputsInconsistent 1 2)].
Proof.
  apply (X8_CheckReplicatedIOOp_runs_the_validator_of_the_kind cross_cluster
           (the_op cross_cluster 41) (the_op cross_cluster 11)
           (the_op cross_cluster 71) false
           [mkDiagnostic Error 41 (PartitionedInputsInconsistent 1 2)] fresh_statics).
  vm_compute; reflexivity.
Defined.

(** ** The replication counts as [int] *)

Lemma to_int_in_range n : - 2 ^ 31 <= n < 2 ^ 31 -> to_int n = n.
Proof. intros H. unfold to_int. rewrite Z.mod_small; lia. Qed.

Lemma to_int_periodic n k : to_int (n + k * 2 ^ 32) = to_int n.
Proof.
  unfold to_int. replace (n + k * 2 ^ 32 + 2 ^ 31) with (n + 2 ^ 31 + k * 2 ^ 32) by lia.
  rewrite Z.mod_add by lia. reflexivity.
Qed.

(** X9.  The replication counts of the metadata reach the arity rules as
    [int]: [CheckReplicatedIOOp] compares against the count itself when it
    is in the range of [int], and against the same number when a multiple of
    2^32 is added to the count in the attribute. *)
Theorem X9_replication_counts_are_read_modulo_two_to_the_32
    (module op metadata parent : Operation) (num_replicas num_cores : Z)
    (k1 k2 : Z) :
  - 2 ^ 31 <= num_replicas < 2 ^ 31 ->
  - 2 ^ 31 <= num_cores < 2 ^ 31 ->
  let wrapped :=
    with_counts (num_replicas + k1 * 2 ^ 32) (num_cores + k2 * 2 ^ 32) metadata in
  to_int (getNumReplicas wrapped) = num_replicas /\
  to_int (getNumCoresPerReplica wrapped) = num_cores /\
  ∀ s, CheckReplicatedIOOp module op wrapped parent s
       = CheckReplicatedIOOp module op (with_counts num_replicas num_cores metadata)
           parent s.
Proof.
  intros Hr Hc wrapped. unfold wrapped, with_counts, getNumReplicas,
    getNumCoresPerReplica. simpl.
  rewrite !to_int_periodic, !to_int_in_range by assumption.
  repeat split. intros s. unfold CheckReplicatedIOOp, getNumReplicas,
    getNumCoresPerReplica, getTpuReplicateAttr. simpl.
  rewrite !to_int_periodic. reflexivity.
Qed.

Lemma X9_witness_scenario_A :
  let wrapped := with_counts (2 + 1 * 2 ^ 32) (1 + 0 * 2 ^ 32) (the_op scenario_A 11) in
  to_int (getNumReplicas wrapped) = 2 /\
  to_int (getNumCoresPerReplica wrapped) = 1 /\
  ∀ s, CheckReplicatedIOOp scenario_A (the_op scenario_A 41) wrapped
         (the_op scenario_A 71) s
       = CheckReplicatedIOOp scenario_A (the_op scenario_A 41)
           (with_counts 2 1 (the_op scenario_A 11)) (the_op scenario_A 71) s.
Proof.
  apply (X9_replication_counts_are_read_modulo_two_to_the_32 scenario_A
           (the_op scenario_A 41) (the_op scenario_A 11) (the_op scenario_A 71)
           2 1 1 0); lia.
Defined.

(** ** The two classifiers together *)

Lemma classifier_sets_disjoint kind :
  kind ∈ IsTpuRegularOp_ops -> kind ∈ IsIntersectionXlaNonXlaOps_ops -> False.
Proof.
  unfold IsTpuRegularOp_ops, IsIntersectionXlaNonXlaOps_ops. set_unfold.
  intros H1 H2.
  repeat match goal with H : _ ∨ _ |- _ => destruct H end; congruence.
Qed.

(** X10.  Every operation is looked at.  No kind is in both static sets, so
    of the two classifiers at least one answers [true] on every operation:
    both on an unregistered operation and on a kind in neither set, the
    first only on the seven kinds of the intersection set, the second only
    on the fourteen kinds of the other set. *)
Theorem X10_every_operation_passes_a_classifier (op : Operation) :
  ∃ regular candidate,
    returns (IsTpuRegularOp op) regular [] /\
    returns (IsIntersectionXlaNonXlaOps op) candidate [] /\
    regular || candidate = true /\
    (regular = false <-> kind_in IsTpuRegularOp_ops op = true) /\
    (candidate = false <-> kind_in IsIntersectionXlaNonXlaOps_ops op = true).
Proof.
  exists (plain op), (negb (kind_in IsIntersectionXlaNonXlaOps_ops op)).
  split; [apply returns_IsTpuRegularOp|].
  split; [apply returns_IsIntersectionXlaNonXlaOps|].
  split; [|split].
  - unfold plain, kind_in. destruct (getRegisteredInfo op) as [kind|]; [|reflexivity].
    destruct (bool_decide (kind ∈ IsTpuRegularOp_ops)) eqn:E1; [|reflexivity].
    destruct (bool_decide (kind ∈ IsIntersectionXlaNonXlaOps_ops)) eqn:E2;
      [|reflexivity].
    apply bool_decide_eq_true in E1, E2.
    destruct (classifier_sets_disjoint kind E1 E2).
  - unfold plain. destruct (kind_in IsTpuRegularOp_ops op); simpl; split; congruence.
  - destruct (kind_in IsIntersectionXlaNonXlaOps_ops op); simpl; split; congruence.
Qed.

(** ** Must and must not be compiled for the accelerator *)

Lemma append_cons a s t :
  String.append (String a s) t = String a (String.append s t).
Proof. reflexivity. Qed.

Lemma append_nil t : String.append EmptyString t = t.
Proof. reflexivity. Qed.

Lemma prefix_iff n h :
  String.prefix n h = true <-> ∃ post, h = String.append n post.
Proof.
  revert h. induction n as [|a n IH]; intros [|b h]; simpl.
  - split; [intros _; exists EmptyString; reflexivity|reflexivity].
  - split; [intros _; exists (String b h); reflexivity|reflexivity].
  - split; [discriminate|intros [post E]; rewrite append_cons in E; discriminate].
  - destruct (ascii_dec a b) as [->|Hne].
    + rewrite IH. split; intros [post E]; exists post.
      * rewrite append_cons. congruence.
      * rewrite append_cons in E. congruence.
    + split; [discriminate|intros [post E]; rewrite append_cons in E; congruence].
Qed.

Lemma StrContains_nil n :
  StrContains EmptyString n = String.prefix n EmptyString || false.
Proof. reflexivity. Qed.

Lemma StrContains_cons a h n :
  StrContains (String a h) n = String.prefix n (String a h) || StrContains h n.
Proof. reflexivity. Qed.

Lemma StrContains_iff h n :
  StrContains h n = true <->
  ∃ pre post, h = String.append pre (String.append n post).
Proof.
  induction h as [|a h IH].
  - rewrite StrContains_nil, orb_false_r, prefix_iff. split.
    + intros [post E]. exists EmptyString, post. exact E.
    + intros (pre & post & E). destruct pre as [|a' pre].
      * exists post. exact E.
      * rewrite append_cons in E. discriminate.
  - rewrite StrContains_cons, orb_true_iff, prefix_iff, IH. split.
    + intros [[post E]|(pre & post & E)].
      * exists EmptyString, post. exact E.
      * exists (String a pre), post. rewrite append_cons. congruence.
    + intros (pre & post & E). destruct pre as [|a' pre].
      * left. exists post. exact E.
      * right. exists pre, post. rewrite append_cons in E. congruence.
Qed.

(** X11.  [IsMustBeXlaOp] answers [true] exactly on an operation that carries
    a cluster attribute under which the metadata map has an entry, and for
    which either that metadata forbids soft placement while the operation is
    not marked for outside compilation, or the device attribute of the
    operation has the device substring somewhere inside.  Without cluster
    attribute or without metadata for it the answer is [false], whatever the
    device. *)
Theorem X11_IsMustBeXlaOp_characterised
    (kTpuDevice : string) (op : Operation) (metadata_map : MetadataMap) :
  IsMustBeXlaOp kTpuDevice op metadata_map = true <->
  ∃ cluster metadata,
    getTpuReplicateAttr op = Some cluster /\
    metadata_map !! cluster = Some metadata /\
    ((getAllowSoftPlacement metadata = false /\
      attr_xla_outside_compilation (op_data op) = false) \/
     ∃ pre post,
       attr_device (op_data op)
       = Some (String.append pre (String.append kTpuDevice post))).
Proof.
  unfold IsMustBeXlaOp. split.
  - destruct (getTpuReplicateAttr op) as [cluster|]; [|discriminate].
    destruct (metadata_map !! cluster) as [metadata|] eqn:Hmd; [|discriminate].
    intros H. exists cluster, metadata. split; [reflexivity|]. split; [exact Hmd|].
    destruct (negb (getAllowSoftPlacement metadata) &&
              negb (attr_xla_outside_compilation (op_data op))) eqn:Hsoft.
    + left. apply andb_true_iff in Hsoft as [H1 H2].
      apply negb_true_iff in H1, H2. auto.
    + right. destruct (attr_device (op_data op)) as [device|]; [|discriminate].
      destruct (StrContains device kTpuDevice) eqn:Hdev; [|discriminate].
      apply StrContains_iff in Hdev as (pre & post & ->). eauto.
  - intros (cluster & metadata & -> & -> & [[H1 H2]|(pre & post & Hdev)]).
    + rewrite H1, H2. reflexivity.
    + rewrite Hdev.
      assert (StrContains (String.append pre (String.append kTpuDevice post))
                kTpuDevice = true) as ->.
      { apply StrContains_iff. eauto. }
      destruct (negb (getAllowSoftPlacement metadata) &&
                negb (attr_xla_outside_compilation (op_data op))); reflexivity.
Qed.

(** X12.  [IsMustNotBeXlaOp] answers [true] exactly on an operation with an
    operand whose type is not valid for XLA and not of resource elements, or
    with a result whose type is not valid for XLA.  So a resource among the
    operands never forbids compilation, while a result is judged by
    [TypeValidForXLA] alone. *)
Theorem X12_IsMustNotBeXlaOp_characterised
    (TypeValidForXLA : MlirType -> bool) (op : Operation) :
  IsMustNotBeXlaOp TypeValidForXLA op = true <->
  (∃ input, input ∈ getOperands op /\
            getElementTypeOrSelf (operand_type input) ≠ ResourceType /\
            TypeValidForXLA (operand_type input) = false) \/
  (∃ output, output ∈ getOpResults op /\
             TypeValidForXLA (result_type output) = false).
Proof.
  unfold IsMustNotBeXlaOp, InTypeMustBeNonXLA, getResultTypes. split.
  - destruct (existsb _ (getOperands op)) eqn:Hin.
    + intros _. left. apply existsb_exists in Hin as (input & Hin & H).
      apply andb_true_iff in H as [H1 H2]. apply negb_true_iff in H1, H2.
      apply bool_decide_eq_false in H1. exists input.
      rewrite list_elem_of_In. auto.
    + destruct (existsb _ (map result_type (getOpResults op))) eqn:Hout;
        [|discriminate].
      intros _. right. apply existsb_exists in Hout as (type & Hout & H).
      apply in_map_iff in Hout as (output & <- & Hout).
      apply negb_true_iff in H. exists output. rewrite list_elem_of_In. auto.
  - intros [(input & Hin & Hres & Hvalid)|(output & Hout & Hvalid)].
    + assert (existsb
                (fun input =>
                   negb (bool_decide (getElementTypeOrSelf (operand_type input)
                                      = ResourceType)) &&
                   negb (TypeValidForXLA (operand_type input)))
                (getOperands op) = true) as ->; [|reflexivity].
      apply existsb_exists. exists input. rewrite <- list_elem_of_In.
      split; [exact Hin|]. rewrite Hvalid, bool_decide_eq_false_2 by exact Hres.
      reflexivity.
    + destruct (existsb _ (getOperands op)); [reflexivity|].
      assert (existsb (fun output_types => negb (TypeValidForXLA output_types))
                (map result_type (getOpResults op)) = true) as ->; [|reflexivity].
      apply existsb_exists. exists (result_type output). split.
      * apply in_map, list_elem_of_In, Hout.
      * rewrite Hvalid. reflexivity.
Qed.

(** ** A cluster without metadata *)

Lemma returns_for_each_verdict {A} (body : A -> M bool) (bad : A -> bool)
    (Q : Diagnostic -> Prop) xs :
  (∀ x, x ∈ xs -> ∃ d, returns (body x) (negb (bad x)) d /\ Forall Q d) ->
  ∃ d, returns (for_each body xs (ret true)) (negb (existsb bad xs)) d /\ Forall Q d.
Proof.
  intros Hbody. induction xs as [|x xs IH]; simpl.
  - exists []. split; [apply returns_ret|constructor].
  - destruct (Hbody x (list_elem_of_here _ _)) as (d1 & H1 & Q1).
    destruct (bad x); simpl in *.
    + exists d1. split; [|exact Q1]. apply returns_require_fail. exact H1.
    + destruct IH as (d2 & H2 & Q2).
      { intros y Hy. apply Hbody. right. exact Hy. }
      exists (d1 ++ d2). split.
      * exact (returns_require_pass _ _ _ _ _ H1 H2).
      * apply Forall_app. split; assumption.
Qed.

Lemma returns_CheckClusterSuccessors succ cluster op :
  plain succ = true ->
  ∃ d,
    returns (CheckClusterSuccessors succ cluster op) (negb (mismatched cluster succ)) d /\
    Forall (fun x => is_boundary_message (diag_message x) = true) d.
Proof.
  intros Hplain. unfold CheckClusterSuccessors, mismatched. rewrite Hplain. simpl.
  destruct (getTpuReplicateAttr succ) as [cluster_succ|]; simpl.
  - destruct (bool_decide (cluster_succ = "")); simpl.
    + eexists. split; [apply returns_warning_then|]. repeat constructor.
    + destruct (bool_decide (cluster = cluster_succ)) eqn:E; simpl.
      * apply bool_decide_eq_true in E.
        rewrite bool_decide_eq_false_2 by tauto.
        eexists. split; [apply returns_ret|constructor].
      * apply bool_decide_eq_false in E.
        rewrite bool_decide_eq_true_2 by exact E.
        eexists. split; [apply returns_error_then|]. repeat constructor.
  - eexists. split; [apply returns_warning_then|]. repeat constructor.
Qed.

(** X13.  A cluster without metadata gets the boundary check only.  On an
    operation whose cluster has no entry in the metadata map, no replicated
    or partitioned neighbour is validated, whatever its number of operands and
    results; [CheckOpsClusterIO] fails exactly when a plain successor carries
    another, non-empty cluster attribute, and all it reports are the
    warnings and the error of [CheckClusterSuccessors]. *)
Theorem X13_cluster_without_metadata_gets_the_boundary_check_only
    (module op parent : Operation) (metadata_map : MetadataMap) (cluster : string) :
  getTpuReplicateAttr op = Some cluster ->
  cluster ≠ "" ->
  metadata_map !! cluster = None ->
  getParentOp module op = Some parent ->
  ∃ d,
    returns (CheckOpsClusterIO module op metadata_map)
      (negb (existsb (mismatched cluster) (successors_via module parent))) d /\
    Forall (fun x => is_boundary_message (diag_message x) = true) d.
Proof.
  intros Hattr Hne Hnone Hparent.
  destruct (returns_for_each_verdict
              (check_successor module op metadata_map true cluster)
              (mismatched cluster)
              (fun x => is_boundary_message (diag_message x) = true)
              (successors_via module parent)) as (d & Hd & Hbound).
  { intros succ _. unfold check_successor.
    destruct (plain succ) eqn:Hplain.
    - destruct (returns_CheckClusterSuccessors succ cluster op Hplain)
        as (d & Hd & Hbound).
      exists d. split; [|exact Hbound].
      apply (returns_require_pass _ _ [] _ d).
      + exact (no_delegation_without_metadata _ _ _ _ _ Hnone).
      + apply returns_require_same.
        * eapply (returns_when_run _ _ []); [|exact Hd].
          unfold is_regular_of_cluster. rewrite <- Hplain.
          apply returns_IsTpuRegularOp.
        * apply returns_when_skip. apply returns_ret.
    - exists []. split; [|constructor].
      unfold mismatched. rewrite Hplain. simpl.
      apply (returns_require_pass _ _ [] true []).
      + exact (no_delegation_without_metadata _ _ _ _ _ Hnone).
      + apply (returns_require_pass _ _ [] true []).
        * apply returns_when_skip. unfold is_regular_of_cluster.
          rewrite <- Hplain. apply returns_IsTpuRegularOp.
        * apply returns_when_skip. apply returns_ret. }
  exists d. split; [|exact Hbound].
  unfold CheckOpsClusterIO. rewrite Hattr.
  rewrite bool_decide_eq_false_2 by exact Hne.
  unfold CheckOpsClusterIO_neighbours. apply returns_for_each_pass.
  - intros pred _. unfold check_predecessor.
    apply (returns_require_pass _ _ [] true []).
    + exact (no_delegation_without_metadata _ _ _ _ _ Hnone).
    + apply returns_when_skip. apply returns_ret.
  - eapply returns_bind_nil; [apply (returns_GetSuccessors _ _ _ Hparent)|exact Hd].
Qed.

(** ** The order of the walk *)

Lemma check_ops_of_contributions
    (TypeValidForXLA : MlirType -> bool) (kTpuDevice : string)
    module metadata_map ops vds :
  Forall2 (contributes TypeValidForXLA kTpuDevice module metadata_map) ops vds ->
  ∀ success,
    returns (check_ops TypeValidForXLA kTpuDevice module metadata_map ops success)
      (success && forallb fst vds) (concat (vds.*2)).
Proof.
  induction 1 as [|op vd ops vds Hvd _ IH]; intros success; simpl.
  - rewrite andb_true_r. apply returns_ret.
  - rewrite andb_assoc. eapply returns_bind; [apply Hvd|apply IH].
Qed.

Lemma forallb_Permutation {A} (f : A -> bool) l l' :
  l ≡ₚ l' -> forallb f l = forallb f l'.
Proof.
  induction 1 as [|x l l' _ IH|x y l|l l' l'' _ IH1 _ IH2]; simpl.
  - reflexivity.
  - rewrite IH. reflexivity.
  - destruct (f x), (f y); reflexivity.
  - congruence.
Qed.

Lemma concat_Permutation {A} (l l' : list (list A)) :
  l ≡ₚ l' -> concat l ≡ₚ concat l'.
Proof.
  induction 1 as [|x l l' _ IH|x y l|l l' l'' _ IH1 _ IH2]; simpl.
  - reflexivity.
  - rewrite IH. reflexivity.
  - rewrite !app_assoc. apply Permutation_app_tail, Permutation_app_comm.
  - etransitivity; eassumption.
Qed.

(** X14.  The order of the walk decides the order of the diagnostics and
    nothing else.  With the metadata map of a runnable module, the second
    walk over the operations of the module in any other order returns the
    same verdict and emits the same diagnostics, up to their order: no check
    on an operation depends on what was checked before. *)
Theorem X14_the_verdict_does_not_depend_on_the_order_of_the_walk
    (TypeValidForXLA : MlirType -> bool) (kTpuDevice : string)
    (module : Operation) (ops' : list Operation) :
  runnable module = true ->
  walk module ≡ₚ ops' ->
  ∃ verdict d d',
    returns (check_ops TypeValidForXLA kTpuDevice module (metadata_of module)
               (walk module) true) verdict d /\
    returns (check_ops TypeValidForXLA kTpuDevice module (metadata_of module)
               ops' true) verdict d' /\
    d ≡ₚ d'.
Proof.
  intros Hrun Hperm.
  destruct (check_ops_contributions TypeValidForXLA kTpuDevice module
              (metadata_of module) (walk module)) as (vds & Hall & _).
  { intros op Hop. apply check_op_contributes. intros Hplain.
    exact (runnable_total_CheckOpsClusterIO _ _ _ Hrun Hop Hplain). }
  destruct (Permutation_Forall2 Hperm Hall) as (vds' & Hperm' & Hall').
  exists (forallb fst vds), (concat (vds.*2)), (concat (vds'.*2)).
  split; [exact (check_ops_of_contributions _ _ _ _ _ _ Hall true)|]. split.
  - rewrite (forallb_Permutation fst _ _ Hperm').
    exact (check_ops_of_contributions _ _ _ _ _ _ Hall' true).
  - apply concat_Permutation, fmap_Permutation, Hperm'.
Qed.

Lemma X14_witness_unpropagated_reversed :
  ∃ verdict d d',
    returns (check_ops TypeValidForXLA_tf "TPU" unpropagated (metadata_of unpropagated)
               (walk unpropagated) true) verdict d /\
    returns (check_ops TypeValidForXLA_tf "TPU" unpropagated (metadata_of unpropagated)
               (reverse (walk unpropagated)) true) verdict d' /\
    d ≡ₚ d'.
Proof.
  apply (X14_the_verdict_does_not_depend_on_the_order_of_the_walk
           TypeValidForXLA_tf "TPU" unpropagated (reverse (walk unpropagated))).
  - vm_compute; reflexivity.
  - symmetry. apply reverse_Permutation.
Defined.

Lemma X13_witness_cluster_without_metadata :
  ∃ d,
    returns (CheckOpsClusterIO cluster_without_metadata
               (the_op cluster_without_metadata 71)
               (metadata_of cluster_without_metadata))
      (negb (existsb (mismatched "c9")
               (successors_via cluster_without_metadata
                  (the_op cluster_without_metadata 70)))) d /\
    Forall (fun x => is_boundary_message (diag_message x) = true) d.
Proof.
  apply (X13_cluster_without_metadata_gets_the_boundary_check_only
           cluster_without_metadata (the_op cluster_without_metadata 71)
           (the_op cluster_without_metadata 70)
           (metadata_of cluster_without_metadata) "c9").
  - vm_compute; reflexivity.
  - discriminate.
  - vm_compute; reflexivity.
  - vm_compute; reflexivity.
Defined.

(** ** A replicated input and the clusters of its consumers *)

Lemma returns_CheckReplicatedIOOp_input module rep metadata parent b d :
  isa TPUReplicatedInputOp rep = true ->
  returns (ValidateReplicatedInput module rep (to_int (getNumReplicas metadata))
             (getTpuReplicateAttr metadata)) b d ->
  returns (CheckReplicatedIOOp module rep metadata parent) b d.
Proof.
  intros Hkind H. pose proof (isa_registered _ _ Hkind) as E. dispatch E.
Qed.

(** X15.  A replicated input belongs to the cluster of the operation it
    feeds.  In a run on a runnable module, when [CheckOpsClusterIO] on an
    operation of a cluster that has metadata meets a replicated input with
    the right number of operands among its predecessors, the step passes
    exactly when every plain successor of that input carries the cluster
    attribute of the operation being checked: the metadata found under a
    cluster name carries that name.  A replicated input consumed by
    operations of two clusters is therefore reported. *)
Theorem X15_replicated_input_must_feed_one_cluster
    (module op rep rep_parent metadata : Operation) (cluster : string) :
  runnable module = true ->
  metadata_of module !! cluster = Some metadata ->
  isa TPUReplicatedInputOp rep = true ->
  getParentOp module rep = Some rep_parent ->
  packed_arity_ok rep (to_int (getNumReplicas metadata)) = true ->
  returns (check_predecessor module op (metadata_of module) true cluster rep)
    (negb (existsb (breaks_propagation (Some cluster))
             (successors_via module rep_parent)))
    (match find (breaks_propagation (Some cluster))
             (successors_via module rep_parent) with
     | Some succ =>
         [propagation_diagnostic succ (Some cluster)
            (HasSuccessor (getName rep) (getName succ))]
     | None => []
     end).
Proof.
  intros Hrun Hmd Hkind Hparent Harity.
  assert (getTpuReplicateAttr metadata = Some cluster) as Hname.
  { destruct (collect_metadata_lookup (walk module) ∅) as (collected & Hret & Hlook).
    { intros o Ho E. pose proof (runnable_elem _ _ Hrun Ho) as H.
      unfold runnable_op in H. apply andb_true_iff in H as [_ H].
      rewrite E in H. simpl in H. apply bool_decide_eq_true in H. exact H. }
    rewrite (metadata_of_returns _ _ Hret) in Hmd. rewrite Hlook in Hmd.
    destruct (last _) as [md|] eqn:Hlast; [|discriminate].
    injection Hmd as ->.
    apply last_Some_elem_of, list_elem_of_In, List.filter_In in Hlast as [_ Hdecl].
    unfold declares in Hdecl. apply andb_true_iff in Hdecl as [_ Hattr].
    apply bool_decide_eq_true in Hattr. exact Hattr. }
  unfold check_predecessor. apply returns_require_same.
  - apply (returns_delegation _ _ _ _ metadata); [exact Hmd| |].
    + apply (isa_not_plain _ _ Hkind). unfold IsTpuRegularOp_ops. set_unfold. tauto.
    + apply returns_CheckReplicatedIOOp_input; [exact Hkind|]. rewrite Hname.
      exact (returns_ValidateReplicatedInput_propagation _ _ _ _ _ Harity Hparent).
  - apply returns_when_skip. apply returns_ret.
Qed.

Lemma X15_witness_input_of_two_clusters :
  let module := input_of_two_clusters in
  returns (check_predecessor module (the_op module 71) (metadata_of module) true "c1"
             (the_op module 41))
    (negb (existsb (breaks_propagation (Some "c1"))
             (successors_via module (the_op module 40))))
    (match find (breaks_propagation (Some "c1"))
             (successors_via module (the_op module 40)) with
     | Some succ =>
         [propagation_diagnostic succ (Some "c1")
            (HasSuccessor (getName (the_op module 41)) (getName succ))]
     | None => []
     end).
Proof.
  apply (X15_replicated_input_must_feed_one_cluster input_of_two_clusters
           (the_op input_of_two_clusters 71) (the_op input_of_two_clusters 41)
           (the_op input_of_two_clusters 40) (the_op input_of_two_clusters 11) "c1").
  - vm_compute; reflexivity.
  - vm_compute; reflexivity.
  - vm_compute; reflexivity.
  - vm_compute; reflexivity.
  - vm_compute; reflexivity.
Defined.

(** ** The partitioned kinds *)

(** X16.  The partitioned kinds are judged by their arity alone.
    [CheckReplicatedIOOp] on a partitioned input or output passes exactly when
    its number of operands (inputs) or results (outputs) is the number of
    cores per replica of the metadata, as [int]; a packed v2 input passes
    exactly with one operand.  Neighbours, cluster attributes and the number
    of replicas have no part in it, and a violation is reported with one
    arity diagnostic on the operation. *)
Theorem X16_partitioned_kinds_are_judged_by_arity_alone
    (module op metadata parent : Operation) (kind : TypeID) :
  kind ∈ partitioned_kinds ->
  getRegisteredInfo op = Some kind ->
  let n := to_int (getNumCoresPerReplica metadata) in
  returns (CheckReplicatedIOOp module op metadata parent)
    (partitioned_arity_ok kind op n)
    (if partitioned_arity_ok kind op n then []
     else [mkDiagnostic Error (op_id (op_data op))
             (partitioned_arity_message kind op n)]).
Proof.
  intros Hkind E n. unfold partitioned_kinds in Hkind. set_unfold in Hkind.
  assert (∀ b d,
            returns (validator_of (Some kind) module op metadata) b d ->
            returns (CheckReplicatedIOOp module op metadata parent) b d) as Hdispatch.
  { intros b d H. unfold validator_of in H.
    repeat match goal with H : _ ∨ _ |- _ => destruct H end; subst kind; dispatch E. }
  apply Hdispatch. unfold validator_of. fold n.
  repeat match goal with H : _ ∨ _ |- _ => destruct H end; subst kind;
    unfold partitioned_arity_ok, partitioned_arity_message, packed_arity_ok,
      ValidatePartitionedInput, ValidatePartitionedInputV2, ValidatePartitionedOutput.
  - destruct (decide (num_inputs op = n)) as [Heq|Hne].
    + rewrite (bool_decide_eq_true_2 _ Heq), bool_decide_eq_false_2 by tauto.
      apply returns_ret.
    + rewrite (bool_decide_eq_false_2 _ Hne), bool_decide_eq_true_2 by exact Hne.
      apply returns_error_then.
  - destruct (getIsPacked op); simpl.
    + destruct (decide (num_inputs op = 1)) as [Heq|Hne].
      * rewrite (bool_decide_eq_true_2 _ Heq), bool_decide_eq_false_2 by tauto.
        apply returns_ret.
      * rewrite (bool_decide_eq_false_2 _ Hne), bool_decide_eq_true_2 by exact Hne.
        apply returns_error_then.
    + destruct (decide (num_inputs op = n)) as [Heq|Hne].
      * rewrite (bool_decide_eq_true_2 _ Heq), bool_decide_eq_false_2 by tauto.
        apply returns_ret.
      * rewrite (bool_decide_eq_false_2 _ Hne), bool_decide_eq_true_2 by exact Hne.
        apply returns_error_then.
  - destruct (decide (num_outputs op = n)) as [Heq|Hne].
    + rewrite (bool_decide_eq_true_2 _ Heq), bool_decide_eq_false_2 by tauto.
      apply returns_ret.
    + rewrite (bool_decide_eq_false_2 _ Hne), bool_decide_eq_true_2 by exact Hne.
      apply returns_error_then.
  - destruct (decide (num_outputs op = n)) as [Heq|Hne].
    + rewrite (bool_decide_eq_true_2 _ Heq), bool_decide_eq_false_2 by tauto.
      apply returns_ret.
    + rewrite (bool_decide_eq_false_2 _ Hne), bool_decide_eq_true_2 by exact Hne.
      apply returns_error_then.
Qed.

Lemma X16_witness_cross_cluster :
  returns (CheckReplicatedIOOp cross_cluster (the_op cross_cluster 41)
             (the_op cross_cluster 11) (the_op cross_cluster 71))
    (partitioned_arity_ok TPUPartitionedInputOp (the_op cross_cluster 41) 1)
    (if partitioned_arity_ok TPUPartitionedInputOp (the_op cross_cluster 41) 1 then []
     else [mkDiagnostic Error 41
             (partitioned_arity_message TPUPartitionedInputOp
                (the_op cross_cluster 41) 1)]).
Proof.
  apply (X16_partitioned_kinds_are_judged_by_arity_alone cross_cluster
           (the_op cross_cluster 41) (the_op cross_cluster 11)
           (the_op cross_cluster 71) TPUPartitionedInputOp).
  - unfold partitioned_kinds. set_unfold. tauto.
  - vm_compute; reflexivity.
Defined.

(** * The cluster checks within a run *)

(** ** What a computation can emit *)

Lemma emits_only_ret {A} Q (a : A) : emits_only Q (ret a).
Proof. intros s a' d s' E. injection E as _ <- _. constructor. Qed.

Lemma emits_only_null {A} Q : emits_only Q (@null_dereference A).
Proof. intros s a d s' E. discriminate. Qed.

Lemma emits_only_after_null {A B} Q (k : A -> M B) :
  emits_only Q (bind null_dereference k).
Proof. intros s a d s' E. discriminate. Qed.

Lemma emits_only_silent {A} Q (c : M A) : silent c -> emits_only Q c.
Proof. intros H s a d s' E. rewrite (H _ _ _ _ E). constructor. Qed.

Lemma emits_only_returns {A} Q (c : M A) a d :
  returns c a d -> Forall Q d -> emits_only Q c.
Proof.
  intros H HQ s a' d' s' E. destruct (H s) as [s0 E0]. rewrite E0 in E.
  injection E as _ <- _. exact HQ.
Qed.

Lemma emits_only_weaken {A} (Q Q' : Diagnostic -> Prop) (c : M A) :
  (∀ x, Q x -> Q' x) -> emits_only Q c -> emits_only Q' c.
Proof.
  intros HQ H s a d s' E. pose proof (H _ _ _ _ E) as Hd. clear E.
  induction Hd; constructor; auto.
Qed.

Lemma emits_only_bind {A B} Q (c : M A) (k : A -> M B) :
  emits_only Q c -> (∀ a, emits_only Q (k a)) -> emits_only Q (bind c k).
Proof.
  intros Hc Hk s b d s' E.
  apply bind_Some in E as (a & d1 & s1 & d2 & E1 & E2 & ->).
  apply Forall_app. split; [exact (Hc _ _ _ _ E1)|exact (Hk _ _ _ _ _ E2)].
Qed.

(** After a computation whose result is known and that emits nothing. *)
Lemma emits_only_after {A B} Q (c : M A) (k : A -> M B) a :
  returns c a [] -> emits_only Q (k a) -> emits_only Q (bind c k).
Proof.
  intros Hc Hk s b d s' E. unfold bind in E.
  destruct (Hc s) as [s1 E1]. rewrite E1 in E.
  destruct (k a s1) as [[[b' d'] s2]|] eqn:Ek; [|discriminate].
  injection E as <- <- <-. exact (Hk _ _ _ _ Ek).
Qed.

Lemma emits_only_error_then Q op msg (b : bool) :
  Q (mkDiagnostic Error (op_id (op_data op)) msg) ->
  emits_only Q (emitOpError op msg ;; ret b).
Proof.
  intros HQ s a d s' E. injection E as _ <- _. constructor; [exact HQ|constructor].
Qed.

Lemma emits_only_warning_then Q op msg (b : bool) :
  Q (mkDiagnostic Warning (op_id (op_data op)) msg) ->
  emits_only Q (emitWarning op msg ;; ret b).
Proof.
  intros HQ s a d s' E. injection E as _ <- _. constructor; [exact HQ|constructor].
Qed.

Lemma emits_only_require Q (check rest : M bool) :
  emits_only Q check -> emits_only Q rest -> emits_only Q (require check rest).
Proof.
  intros Hc Hr. unfold require. apply emits_only_bind; [exact Hc|].
  intros []; [exact Hr|apply emits_only_ret].
Qed.

Lemma emits_only_when Q (cond check : M bool) :
  emits_only Q cond -> emits_only Q check -> emits_only Q (when cond check).
Proof.
  intros Hc Hk. unfold when. apply emits_only_bind; [exact Hc|].
  intros []; [exact Hk|apply emits_only_ret].
Qed.

Lemma emits_only_for_each {A} Q (body : A -> M bool) xs rest :
  (∀ x, x ∈ xs -> emits_only Q (body x)) -> emits_only Q rest ->
  emits_only Q (for_each body xs rest).
Proof.
  intros Hbody Hrest. induction xs as [|x xs IH]; simpl; [exact Hrest|].
  apply emits_only_require.
  - apply Hbody. left.
  - apply IH. intros y Hy. apply Hbody. right. exact Hy.
Qed.

Lemma emits_only_for_each_all {A} Q (body : A -> M bool) xs rest :
  (∀ x, emits_only Q (body x)) -> emits_only Q rest ->
  emits_only Q (for_each body xs rest).
Proof. intros Hbody. apply emits_only_for_each. intros x _. apply Hbody. Qed.

(** A computation that returns emits, from wherever it starts, what it
    emits. *)
Lemma returns_emits_only {A} Q (c : M A) a d :
  returns c a d -> emits_only Q c -> Forall Q d.
Proof. intros H HQ. destruct (H fresh_statics) as [s' E]. exact (HQ _ _ _ _ E). Qed.

Create HintDb emits.

(** Takes a goal about what a checker can emit apart along its combinators
    and case distinctions, down to the diagnostics it emits. *)
Ltac emits_step :=
  match goal with
  | |- ∀ _, _ => intro
  | |- emits_only _ (ret _) => apply emits_only_ret
  | |- emits_only _ null_dereference => apply emits_only_null
  | |- emits_only _ (IsTpuRegularOp _) =>
      apply emits_only_silent, silent_IsTpuRegularOp
  | |- emits_only _ (IsIntersectionXlaNonXlaOps _) =>
      apply emits_only_silent, silent_IsIntersectionXlaNonXlaOps
  | |- emits_only _ (GetSuccessors _ _) =>
      apply emits_only_silent, silent_GetSuccessors
  | |- emits_only _ (emitOpError _ _ ;; ret _) => apply emits_only_error_then
  | |- emits_only _ (emitWarning _ _ ;; ret _) => apply emits_only_warning_then
  | |- emits_only _ (require _ _) => apply emits_only_require
  | |- emits_only _ (when _ _) => apply emits_only_when
  | |- emits_only _ (for_each _ _ _) => apply emits_only_for_each_all
  | |- emits_only _ (bind _ _) => apply emits_only_bind
  | |- emits_only _ (if ?b then _ else _) => destruct b
  | |- emits_only _ (match ?x with _ => _ end) => destruct x
  | |- emits_only _ _ => solve [auto with emits]
  end.

(** The diagnostic at hand is not of the kind the statement is about, or it
    is as the statement says. *)
Ltac emitted :=
  unfold lenient, arity_on, arity_of_step; simpl;
  let H := fresh "H" in
  intros H; first [discriminate H | reflexivity | split; reflexivity].

Ltac solve_emits := repeat emits_step; try emitted.

(** ** The message about a successor without cluster attribute is a warning *)

Lemma lenient_CheckTpuReplicateAttr op attr errormsg :
  emits_only lenient (CheckTpuReplicateAttr op attr errormsg).
Proof. unfold CheckTpuReplicateAttr. solve_emits. Qed.

#[local] Hint Resolve lenient_CheckTpuReplicateAttr : emits.

Lemma lenient_ValidateReplicatedInput module rep num_replicas attr :
  emits_only lenient (ValidateReplicatedInput module rep num_replicas attr).
Proof. unfold ValidateReplicatedInput. solve_emits. Qed.

Lemma lenient_ValidateReplicatedOutput module rep num_replicas attr :
  emits_only lenient (ValidateReplicatedOutput module rep num_replicas attr).
Proof. unfold ValidateReplicatedOutput. solve_emits. Qed.

Lemma lenient_ValidatePartitionedInput rep n :
  emits_only lenient (ValidatePartitionedInput rep n).
Proof. unfold ValidatePartitionedInput. solve_emits. Qed.

Lemma lenient_ValidatePartitionedInputV2 rep n :
  emits_only lenient (ValidatePartitionedInputV2 rep n).
Proof. unfold ValidatePartitionedInputV2. solve_emits. Qed.

Lemma lenient_ValidatePartitionedOutput rep n :
  emits_only lenient (ValidatePartitionedOutput rep n).
Proof. unfold ValidatePartitionedOutput. solve_emits. Qed.

#[local] Hint Resolve lenient_ValidateReplicatedInput lenient_ValidateReplicatedOutput
  lenient_ValidatePartitionedInput lenient_ValidatePartitionedInputV2
  lenient_ValidatePartitionedOutput : emits.

Lemma lenient_CheckReplicatedIOOp module op metadata parent :
  emits_only lenient (CheckReplicatedIOOp module op metadata parent).
Proof. unfold CheckReplicatedIOOp, when_isa. solve_emits. Qed.

Lemma lenient_CheckClusterSuccessors op cluster parent :
  emits_only lenient (CheckClusterSuccessors op cluster parent).
Proof. unfold CheckClusterSuccessors. solve_emits. Qed.

Lemma lenient_CheckNonClusterSuccessors op parent :
  emits_only lenient (CheckNonClusterSuccessors op parent).
Proof. unfold CheckNonClusterSuccessors. solve_emits. Qed.

Lemma lenient_CheckNonClusterPredecessors op parent :
  emits_only lenient (CheckNonClusterPredecessors op parent).
Proof. unfold CheckNonClusterPredecessors. solve_emits. Qed.

#[local] Hint Resolve lenient_CheckReplicatedIOOp lenient_CheckClusterSuccessors
  lenient_CheckNonClusterSuccessors lenient_CheckNonClusterPredecessors : emits.

Lemma lenient_check_predecessor module op metadata_map is_cluster_op cluster pred :
  emits_only lenient
    (check_predecessor module op metadata_map is_cluster_op cluster pred).
Proof.
  unfold check_predecessor, is_replicated_io_of_cluster, metadata_at. solve_emits.
Qed.

Lemma lenient_check_successor module op metadata_map is_cluster_op cluster succ :
  emits_only lenient
    (check_successor module op metadata_map is_cluster_op cluster succ).
Proof.
  unfold check_successor, is_replicated_io_of_cluster, is_regular_of_cluster,
    metadata_at.
  solve_emits.
Qed.

#[local] Hint Resolve lenient_check_predecessor lenient_check_successor : emits.

Lemma lenient_CheckOpsClusterIO module op metadata_map :
  emits_only lenient (CheckOpsClusterIO module op metadata_map).
Proof. unfold CheckOpsClusterIO, CheckOpsClusterIO_neighbours. solve_emits. Qed.

#[local] Hint Resolve lenient_CheckOpsClusterIO : emits.

(** ** An arity diagnostic is on the operation that was validated *)

Lemma arity_CheckTpuReplicateAttr rep op attr errormsg :
  emits_only (arity_on rep) (CheckTpuReplicateAttr op attr errormsg).
Proof. unfold CheckTpuReplicateAttr. solve_emits. Qed.

#[local] Hint Resolve arity_CheckTpuReplicateAttr : emits.

Lemma arity_ValidateReplicatedInput module rep num_replicas attr :
  emits_only (arity_on rep) (ValidateReplicatedInput module rep num_replicas attr).
Proof. unfold ValidateReplicatedInput. solve_emits. Qed.

Lemma arity_ValidateReplicatedOutput module rep num_replicas attr :
  emits_only (arity_on rep) (ValidateReplicatedOutput module rep num_replicas attr).
Proof. unfold ValidateReplicatedOutput. solve_emits. Qed.

Lemma arity_ValidatePartitionedInput rep n :
  emits_only (arity_on rep) (ValidatePartitionedInput rep n).
Proof. unfold ValidatePartitionedInput. solve_emits. Qed.

Lemma arity_ValidatePartitionedInputV2 rep n :
  emits_only (arity_on rep) (ValidatePartitionedInputV2 rep n).
Proof. unfold ValidatePartitionedInputV2. solve_emits. Qed.

Lemma arity_ValidatePartitionedOutput rep n :
  emits_only (arity_on rep) (ValidatePartitionedOutput rep n).
Proof. unfold ValidatePartitionedOutput. solve_emits. Qed.

#[local] Hint Resolve arity_ValidateReplicatedInput arity_ValidateReplicatedOutput
  arity_ValidatePartitionedInput arity_ValidatePartitionedInputV2
  arity_ValidatePartitionedOutput : emits.

Lemma arity_CheckReplicatedIOOp module op metadata parent :
  emits_only (arity_on op) (CheckReplicatedIOOp module op metadata parent).
Proof. unfold CheckReplicatedIOOp, when_isa. solve_emits. Qed.

(** ** An operation of none of the six kinds is not validated *)

Lemma not_kind_in_isa ops kind op :
  kind_in ops op = false -> kind ∈ ops -> isa kind op = false.
Proof.
  intros Hkind Hin. destruct (isa kind op) eqn:E; [|reflexivity].
  rewrite (isa_kind_in _ _ _ E Hin) in Hkind. discriminate.
Qed.

Lemma returns_CheckReplicatedIOOp_other module n metadata parent :
  kind_in replicated_io_kinds n = false ->
  returns (CheckReplicatedIOOp module n metadata parent) true [].
Proof.
  intros Hkind. unfold CheckReplicatedIOOp.
  repeat (apply returns_when_isa_skip;
          [apply (not_kind_in_isa replicated_io_kinds _ _ Hkind);
           unfold replicated_io_kinds; set_unfold; tauto|]).
  apply returns_ret.
Qed.

Lemma delegation_passes_off_kinds module op metadata_map is_cluster_op cluster n :
  kind_in replicated_io_kinds n = false ->
  returns
    (when (is_replicated_io_of_cluster is_cluster_op
             (bool_decide (is_Some (metadata_map !! cluster))) n)
          (metadata_at metadata_map cluster
             (fun metadata => CheckReplicatedIOOp module n metadata op)))
    true [].
Proof.
  intros Hkind. destruct is_cluster_op.
  - pose proof (no_delegation_without_metadata module op metadata_map cluster n)
      as Hnone.
    destruct (metadata_map !! cluster) as [metadata|] eqn:E.
    + unfold is_replicated_io_of_cluster, metadata_at. rewrite E.
      rewrite bool_decide_eq_true_2 by eauto.
      destruct (plain n) eqn:Hplain.
      * apply returns_when_skip.
        eapply returns_bind_nil; [apply returns_IsTpuRegularOp|].
        rewrite Hplain. apply returns_ret.
      * apply (returns_when_run _ _ [] true []).
        -- eapply returns_bind_nil; [apply returns_IsTpuRegularOp|].
           rewrite Hplain. apply returns_ret.
        -- exact (returns_CheckReplicatedIOOp_other _ _ _ _ Hkind).
    + exact (Hnone eq_refl).
  - apply returns_when_skip. apply returns_ret.
Qed.

(** ** An arity diagnostic comes from a delegation *)

Lemma arity_delegation module op metadata_map is_cluster_op cluster n :
  emits_only (arity_of_step metadata_map is_cluster_op cluster n)
    (when (is_replicated_io_of_cluster is_cluster_op
             (bool_decide (is_Some (metadata_map !! cluster))) n)
          (metadata_at metadata_map cluster
             (fun metadata => CheckReplicatedIOOp module n metadata op))).
Proof.
  destruct (kind_in replicated_io_kinds n) eqn:Hkind.
  - destruct is_cluster_op.
    + pose proof (no_delegation_without_metadata module op metadata_map cluster n)
        as Hnone.
      destruct (metadata_map !! cluster) as [metadata|] eqn:E.
      * apply emits_only_when.
        -- apply emits_only_silent. unfold is_replicated_io_of_cluster.
           apply silent_bind; [apply silent_IsTpuRegularOp|].
           intros regular. apply silent_ret.
        -- unfold metadata_at. rewrite E.
           eapply emits_only_weaken; [|apply arity_CheckReplicatedIOOp].
           intros x Hx Harity. destruct (Hx Harity) as [Hop Hsev].
           rewrite E. repeat split; eauto.
      * eapply emits_only_returns; [|constructor].
        exact (Hnone eq_refl).
    + eapply emits_only_returns; [|constructor].
      apply returns_when_skip. apply returns_ret.
  - eapply emits_only_returns; [|constructor].
    exact (delegation_passes_off_kinds _ _ _ _ _ _ Hkind).
Qed.

Lemma arity_check_predecessor module op metadata_map is_cluster_op cluster pred :
  emits_only (arity_of_step metadata_map is_cluster_op cluster pred)
    (check_predecessor module op metadata_map is_cluster_op cluster pred).
Proof.
  unfold check_predecessor. apply emits_only_require; [apply arity_delegation|].
  unfold CheckNonClusterPredecessors. solve_emits.
Qed.

Lemma arity_check_successor module op metadata_map is_cluster_op cluster succ :
  emits_only (arity_of_step metadata_map is_cluster_op cluster succ)
    (check_successor module op metadata_map is_cluster_op cluster succ).
Proof.
  unfold check_successor. apply emits_only_require; [apply arity_delegation|].
  apply emits_only_require.
  - apply emits_only_when.
    + unfold is_regular_of_cluster. solve_emits.
    + unfold CheckClusterSuccessors. solve_emits.
  - unfold CheckNonClusterSuccessors. solve_emits.
Qed.

Lemma arity_of_step_from module metadata_map op cluster n x :
  plain op = true ->
  getTpuReplicateAttr op = Some cluster -> cluster ≠ "" ->
  n ∈ neighbours module op ->
  arity_of_step metadata_map true cluster n x ->
  arity_from module metadata_map op x.
Proof.
  intros Hplain Hattr Hne Hn Hx Harity.
  destruct (Hx Harity) as (_ & Hmeta & Hkind & Hop & Hsev).
  exists n. split; [|split; assumption].
  split; [exact Hplain|]. split; [|split; assumption].
  exists cluster. auto.
Qed.

Lemma arity_CheckOpsClusterIO module op metadata_map :
  plain op = true ->
  emits_only (arity_from module metadata_map op)
    (CheckOpsClusterIO module op metadata_map).
Proof.
  intros Hplain. unfold CheckOpsClusterIO.
  destruct (getTpuReplicateAttr op) as [cluster|] eqn:Hattr.
  - destruct (bool_decide (cluster = "")) eqn:Hempty.
    + apply emits_only_error_then. intros Harity. discriminate Harity.
    + apply bool_decide_eq_false in Hempty.
      unfold CheckOpsClusterIO_neighbours. apply emits_only_for_each.
      * intros pred Hpred.
        eapply emits_only_weaken; [|apply arity_check_predecessor].
        intros x. apply arity_of_step_from; try assumption.
        unfold neighbours. apply elem_of_app. left. exact Hpred.
      * unfold GetSuccessors.
        destruct (getParentOp module op) as [parent|] eqn:Hparent;
          [|apply emits_only_after_null].
        eapply emits_only_after; [apply returns_ret|].
        apply emits_only_for_each; [|apply emits_only_ret].
        intros succ Hsucc.
        eapply emits_only_weaken; [|apply arity_check_successor].
        intros x. apply arity_of_step_from; try assumption.
        unfold neighbours. rewrite Hparent. apply elem_of_app. right. exact Hsucc.
  - unfold CheckOpsClusterIO_neighbours. apply emits_only_for_each.
    + intros pred _.
      eapply emits_only_weaken; [|apply arity_check_predecessor].
      intros x Hx Harity. destruct (Hx Harity) as [Hcluster _]. discriminate Hcluster.
    + apply emits_only_bind; [apply emits_only_silent, silent_GetSuccessors|].
      intros successors. apply emits_only_for_each; [|apply emits_only_ret].
      intros succ _.
      eapply emits_only_weaken; [|apply arity_check_successor].
      intros x Hx Harity. destruct (Hx Harity) as [Hcluster _]. discriminate Hcluster.
Qed.

(** ** Loops that fail *)

Lemma returns_for_each_fails_later {A} (body : A -> M bool) xs rest d :
  (∀ x, x ∈ xs -> total (body x)) ->
  returns rest false d ->
  ∃ d', returns (for_each body xs rest) false d'.
Proof.
  intros Hbody Hrest. induction xs as [|x xs IH]; simpl; [eauto|].
  destruct (Hbody x (list_elem_of_here _ _)) as (b & d1 & H1).
  destruct b.
  - destruct IH as [d2 H2].
    { intros y Hy. apply Hbody. right. exact Hy. }
    exists (d1 ++ d2). exact (returns_require_pass _ _ _ _ _ H1 H2).
  - exists d1. exact (returns_require_fail _ _ _ H1).
Qed.

Lemma returns_for_each_fails {A} (body : A -> M bool) xs rest x dx :
  (∀ y, y ∈ xs -> total (body y)) ->
  x ∈ xs -> returns (body x) false dx ->
  ∃ d', returns (for_each body xs rest) false d'.
Proof.
  intros Hbody Hx Hfail. induction xs as [|y xs IH]; [inversion Hx|]. simpl.
  destruct (Hbody y (list_elem_of_here _ _)) as (b & d1 & H1).
  destruct b.
  - apply elem_of_cons in Hx as [->|Hx].
    + destruct (returns_inj _ _ _ _ _ H1 Hfail) as [Hb _]. discriminate Hb.
    + destruct IH as [d2 H2]; [|exact Hx|].
      { intros z Hz. apply Hbody. right. exact Hz. }
      exists (d1 ++ d2). exact (returns_require_pass _ _ _ _ _ H1 H2).
  - exists d1. exact (returns_require_fail _ _ _ H1).
Qed.


(** [CheckOpsClusterIO] fails as soon as one step of one of its loops
    does. *)
Lemma returns_CheckOpsClusterIO_step_fails module op metadata_map cluster :
  (∀ n, n ∈ walk module -> input_has_parent module n) ->
  getTpuReplicateAttr op = Some cluster -> cluster ≠ "" ->
  is_Some (getParentOp module op) ->
  (∃ pred d, pred ∈ GetPredecessors module op /\
             returns (check_predecessor module op metadata_map true cluster pred)
               false d) \/
  (∃ parent succ d,
     getParentOp module op = Some parent /\
     succ ∈ successors_via module parent /\
     returns (check_successor module op metadata_map true cluster succ) false d) ->
  ∃ d, returns (CheckOpsClusterIO module op metadata_map) false d.
Proof.
  intros Hinputs Hattr Hne [parent Hparent] Hstep.
  unfold CheckOpsClusterIO. rewrite Hattr, bool_decide_eq_false_2 by exact Hne.
  unfold CheckOpsClusterIO_neighbours.
  assert (∀ pred, pred ∈ GetPredecessors module op ->
            total (check_predecessor module op metadata_map true cluster pred))
    as Hpreds.
  { intros pred Hpred. apply total_check_predecessor, Hinputs.
    exact (GetPredecessors_elem _ _ _ Hpred). }
  destruct Hstep as [(pred & d & Hpred & Hfail)|(parent' & succ & d & Hp & Hsucc & Hfail)].
  - exact (returns_for_each_fails _ _ _ pred d Hpreds Hpred Hfail).
  - assert (parent' = parent) as -> by congruence.
    destruct (returns_for_each_fails
                (check_successor module op metadata_map true cluster)
                (successors_via module parent) (ret true) succ d) as [d' Hd'].
    + intros y Hy. apply total_check_successor, Hinputs.
      exact (successors_via_elem _ _ _ Hy).
    + exact Hsucc.
    + exact Hfail.
    + apply (returns_for_each_fails_later _ _ _ d' Hpreds).
      eapply returns_bind_nil; [apply (returns_GetSuccessors _ _ _ Hparent)|exact Hd'].
Qed.

(** ** The steps in a module where nothing is wrong *)




Lemma returns_CheckOpsClusterIO_outside module op metadata_map parent :
  getTpuReplicateAttr op = None ->
  getParentOp module op = Some parent ->
  (∀ pred, pred ∈ GetPredecessors module op ->
           isa TPUReplicatedInputOp pred = false) ->
  (∀ succ, succ ∈ successors_via module parent ->
           isa TPUReplicatedOutputOp succ = false) ->
  returns (CheckOpsClusterIO module op metadata_map) true [].
Proof.
  intros Hattr Hparent Hpreds Hsuccs.
  pose proof (returns_CheckOpsClusterIO_non_cluster_succ module op metadata_map parent
                Hattr (find_none_elem _ _ Hpreds) Hparent) as H.
  rewrite existsb_find, (find_none_elem _ _ Hsuccs) in H. exact H.
Qed.

(** ** Runs *)

Section Runs.

Variable TypeValidForXLA : MlirType -> bool.
Variable kTpuDevice : string.


Lemma not_arity_check_intersection metadata_map op success :
  emits_only (fun x => is_arity_message (diag_message x) = false)
    (check_intersection TypeValidForXLA kTpuDevice metadata_map op success).
Proof.
  unfold check_intersection, ValidateIntersectionXlaNonXlaOps.
  repeat emits_step; reflexivity.
Qed.

Lemma arity_check_op module metadata_map op success :
  op ∈ walk module ->
  emits_only (arity_by_delegation module metadata_map)
    (check_op TypeValidForXLA kTpuDevice module metadata_map op success).
Proof.
  intros Hop. unfold check_op. apply emits_only_bind.
  - unfold check_cluster_io.
    eapply emits_only_after; [apply returns_IsTpuRegularOp|].
    destruct (plain op) eqn:Hplain; [|apply emits_only_ret].
    apply emits_only_bind; [|intros; apply emits_only_ret].
    eapply emits_only_weaken; [|exact (arity_CheckOpsClusterIO _ _ _ Hplain)].
    intros x Hx Harity. destruct (Hx Harity) as (n & Hn & Hon & Hsev).
    exists op, n. auto.
  - intros success'.
    eapply emits_only_weaken; [|apply not_arity_check_intersection].
    intros x Hx Harity. simpl in Hx. congruence.
Qed.

Lemma arity_runOnOperation module :
  runnable module = true ->
  emits_only (arity_by_delegation module (metadata_of module))
    (runOnOperation TypeValidForXLA kTpuDevice module).
Proof.
  intros Hrun. unfold runOnOperation.
  eapply emits_only_after; [exact (runnable_metadata_of _ Hrun)|].
  apply emits_only_bind; [|intros; apply emits_only_ret].
  assert (∀ ops success, (∀ op, op ∈ ops -> op ∈ walk module) ->
            emits_only (arity_by_delegation module (metadata_of module))
              (check_ops TypeValidForXLA kTpuDevice module (metadata_of module)
                 ops success)) as Hops.
  { induction ops as [|op rest IH]; intros success Hsub; simpl.
    - apply emits_only_ret.
    - apply emits_only_bind.
      + apply arity_check_op, Hsub. left.
      + intros success'. apply IH. intros o Ho. apply Hsub. right. exact Ho. }
  apply Hops. auto.
Qed.

(** A run in which every operation of the walk hands the verdict on reports
    what the operations report, in the order of the walk. *)
Lemma returns_check_ops_flat_map module metadata_map
    (diag : Operation -> list Diagnostic) ops success :
  (∀ op success, op ∈ ops ->
     returns (check_op TypeValidForXLA kTpuDevice module metadata_map op success)
       success (diag op)) ->
  returns (check_ops TypeValidForXLA kTpuDevice module metadata_map ops success)
    success (flat_map diag ops).
Proof.
  revert success. induction ops as [|op rest IH]; intros success Hops; simpl.
  - apply returns_ret.
  - eapply returns_bind.
    + apply Hops. left.
    + apply IH. intros o s Ho. apply Hops. right. exact Ho.
Qed.

Lemma returns_runOnOperation_flat_map module (diag : Operation -> list Diagnostic) :
  runnable module = true ->
  (∀ op success, op ∈ walk module ->
     returns (check_op TypeValidForXLA kTpuDevice module (metadata_of module)
                op success)
       success (diag op)) ->
  returns (runOnOperation TypeValidForXLA kTpuDevice module) true
    (flat_map diag (walk module)).
Proof.
  intros Hrun Hops. unfold runOnOperation.
  eapply returns_bind_nil; [exact (runnable_metadata_of _ Hrun)|].
  rewrite <- (app_nil_r (flat_map _ _)).
  eapply returns_bind; [|apply returns_ret].
  apply returns_check_ops_flat_map. exact Hops.
Qed.

Lemma flat_map_nil {A B} (l : list A) : flat_map (fun _ => @nil B) l = [].
Proof. induction l; simpl; auto. Qed.

(** The walk body on an operation without conflict of type classes. *)
Lemma returns_check_intersection_pass metadata_map op success :
  type_class_conflict TypeValidForXLA kTpuDevice op metadata_map = false ->
  returns (check_intersection TypeValidForXLA kTpuDevice metadata_map op success)
    success [].
Proof.
  intros Hconflict.
  destruct (kind_in IsIntersectionXlaNonXlaOps_ops op) eqn:Hkind.
  - exact (returns_check_intersection_skip _ _ _ _ _ Hkind).
  - replace success with (success && true) at 2 by apply andb_true_r.
    apply returns_check_intersection_run; [exact Hkind|].
    pose proof (returns_ValidateIntersectionXlaNonXlaOps TypeValidForXLA kTpuDevice
                  op metadata_map) as H.
    rewrite Hconflict in H. exact H.
Qed.

Lemma returns_check_op_pass module metadata_map op success d :
  type_class_conflict TypeValidForXLA kTpuDevice op metadata_map = false ->
  (if plain op then returns (CheckOpsClusterIO module op metadata_map) true d
   else d = []) ->
  returns (check_op TypeValidForXLA kTpuDevice module metadata_map op success)
    success d.
Proof.
  intros Hconflict Hcluster. unfold check_op.
  rewrite <- (app_nil_r d).
  eapply returns_bind; [|exact (returns_check_intersection_pass _ _ _ Hconflict)].
  destruct (plain op) eqn:Hplain.
  - replace success with (success && true) at 2 by apply andb_true_r.
    exact (returns_check_cluster_io_plain _ _ _ _ _ _ Hplain Hcluster).
  - subst d. exact (returns_check_cluster_io_structural _ _ _ _ Hplain).
Qed.

Lemma no_conflict_outside_clusters op metadata_map :
  getTpuReplicateAttr op = None ->
  type_class_conflict TypeValidForXLA kTpuDevice op metadata_map = false.
Proof.
  intros Hattr. unfold type_class_conflict, IsMustBeXlaOp. rewrite Hattr.
  apply andb_false_r.
Qed.

(** An operation whose own check fails makes the run fail. *)
Lemma runOnOperation_fails_on module op d :
  runnable module = true -> op ∈ walk module -> plain op = true ->
  returns (CheckOpsClusterIO module op (metadata_of module)) false d ->
  ∃ ds, returns (runOnOperation TypeValidForXLA kTpuDevice module) false ds /\
        ∀ x, x ∈ d -> x ∈ ds.
Proof.
  intros Hrun Hop Hplain Hfail.
  pose proof (returns_check_cluster_io_plain module (metadata_of module) op true _ _
                Hplain Hfail) as H1.
  destruct (check_intersection_contributes TypeValidForXLA kTpuDevice
              (metadata_of module) op) as (v2 & d2 & H2).
  destruct (runOnOperation_fails TypeValidForXLA kTpuDevice module (metadata_of module)
              op (d ++ d2) Hrun (runnable_metadata_of _ Hrun) Hop) as (ds & Hds & Hin).
  { unfold check_op. eapply returns_bind; [exact H1|apply (H2 (true && false))]. }
  exists ds. split; [exact Hds|]. intros x Hx. apply Hin, elem_of_app. left. exact Hx.
Qed.

End Runs.

(** * The properties of the specification about the cluster checks *)

Section ModulesInARun.

Variable TypeValidForXLA : MlirType -> bool.
Variable kTpuDevice : string.


Lemma outside_clusters_elem module op :
  outside_clusters TypeValidForXLA kTpuDevice module = true -> op ∈ walk module ->
  type_class_conflict TypeValidForXLA kTpuDevice op (metadata_of module) = false /\
  (plain op = true ->
   getTpuReplicateAttr op = None /\
   (∀ pred, pred ∈ GetPredecessors module op ->
            isa TPUReplicatedInputOp pred = false) /\
   ∀ parent succ, getParentOp module op = Some parent ->
     succ ∈ successors_via module parent -> isa TPUReplicatedOutputOp succ = false).
Proof.
  unfold outside_clusters. rewrite forallb_forall. intros H Hop.
  specialize (H op (proj1 (list_elem_of_In _ _) Hop)). unfold outside_clusters_op in H.
  apply andb_true_iff in H as [Hconflict H]. apply negb_true_iff in Hconflict.
  split; [exact Hconflict|].
  intros Hplain. rewrite Hplain in H. simpl in H.
  apply andb_true_iff in H as [H Hsuccs]. apply andb_true_iff in H as [Hattr Hpreds].
  apply bool_decide_eq_true in Hattr. apply negb_true_iff in Hpreds.
  split; [exact Hattr|]. split.
  - intros pred Hpred. destruct (isa TPUReplicatedInputOp pred) eqn:E; [|reflexivity].
    rewrite <- Hpreds. symmetry. apply existsb_exists. exists pred.
    split; [apply list_elem_of_In, Hpred|exact E].
  - intros parent succ Hparent Hsucc. rewrite Hparent in Hsuccs.
    apply negb_true_iff in Hsuccs.
    destruct (isa TPUReplicatedOutputOp succ) eqn:E; [|reflexivity].
    rewrite <- Hsuccs. symmetry. apply existsb_exists. exists succ.
    split; [apply list_elem_of_In, Hsucc|exact E].
Qed.






(** The runs of a module outside every cluster. *)
Lemma returns_runOnOperation_outside_clusters module :
  runnable module = true ->
  outside_clusters TypeValidForXLA kTpuDevice module = true ->
  returns (runOnOperation TypeValidForXLA kTpuDevice module) true [].
Proof.
  intros Hrun Hout.
  rewrite <- (flat_map_nil (walk module)).
  apply returns_runOnOperation_flat_map; [exact Hrun|].
  intros op success Hop.
  destruct (outside_clusters_elem _ _ Hout Hop) as (Hconflict & Hcluster).
  apply returns_check_op_pass; [exact Hconflict|].
  destruct (plain op) eqn:Hplain; [|reflexivity].
  destruct (runnable_op_parent module op (runnable_elem _ _ Hrun Hop)
              (plain_not_isa _ _ Hplain ModuleOp_structural)) as [parent Hparent].
  destruct (Hcluster eq_refl) as (Hattr & Hpreds & Hsuccs).
  apply (returns_CheckOpsClusterIO_outside module op _ parent Hattr Hparent Hpreds).
  intros succ Hsucc. exact (Hsuccs parent succ Hparent Hsucc).
Qed.


End ModulesInARun.


Lemma one_error_of_CheckOpsClusterIO module op metadata_map d :
  returns (CheckOpsClusterIO module op metadata_map) false d -> count_errors d = 1%nat.
Proof.
  intros H. destruct (H fresh_statics) as [s' E].
  exact (reports_CheckOpsClusterIO _ _ _ _ _ _ _ E).
Qed.

(** The step of the predecessor loop on a partitioned input whose number of
    operands is not the number of cores per replica of the cluster. *)
Lemma returns_check_predecessor_partitioned_input
    module op metadata_map cluster metadata pred :
  metadata_map !! cluster = Some metadata ->
  isa TPUPartitionedInputOp pred = true ->
  num_inputs pred ≠ to_int (getNumCoresPerReplica metadata) ->
  returns (check_predecessor module op metadata_map true cluster pred) false
    [mkDiagnostic Error (op_id (op_data pred))
       (PartitionedInputsInconsistent (to_int (getNumCoresPerReplica metadata))
          (num_inputs pred))].
Proof.
  intros Hmeta Hkind Harity.
  assert (returns (ValidatePartitionedInput pred (to_int (getNumCoresPerReplica metadata)))
            false
            [mkDiagnostic Error (op_id (op_data pred))
               (PartitionedInputsInconsistent (to_int (getNumCoresPerReplica metadata))
                  (num_inputs pred))]) as Hvalidate.
  { unfold ValidatePartitionedInput. rewrite bool_decide_eq_true_2 by exact Harity.
    apply returns_error_then. }
  pose proof (isa_registered _ _ Hkind) as E.
  unfold check_predecessor. apply returns_require_fail.
  apply (returns_when_run _ _ [] false _).
  - unfold is_replicated_io_of_cluster.
    eapply returns_bind_nil; [apply returns_IsTpuRegularOp|].
    rewrite (isa_not_plain _ _ Hkind)
      by (unfold IsTpuRegularOp_ops; set_unfold; tauto).
    rewrite Hmeta, bool_decide_eq_true_2 by eauto. apply returns_ret.
  - unfold metadata_at. rewrite Hmeta. dispatch E.
Qed.

(** ** C6: a plain successor of a cluster operation *)



(** ** C7: the neighbours of an operation outside every cluster *)

(** C7, as the code has it.  In a module the pass can run on, let [op] be a
    plain operation without cluster attribute.  A replicated input among its
    predecessors is reported with an error and the run fails; a replicated
    output among its successors makes the run fail with an error, on the
    first such output or on a replicated input met before; and when there is
    neither, [CheckOpsClusterIO] passes and the operation hands the verdict
    on without a diagnostic, whatever partitioned inputs and outputs are
    among its neighbours.  A module whose plain operations carry no cluster
    attribute and have no replicated input before them and no replicated
    output after them passes without a diagnostic, whatever partitioned
    operations it has.  (An operation that is not plain is not looked
    at.) *)
Theorem C7_replicated_neighbours_of_a_plain_non_cluster_operation
    (TypeValidForXLA : MlirType -> bool) (kTpuDevice : string) (module : Operation) :
  runnable module = true ->
  (∀ op,
     op ∈ walk module -> plain op = true -> getTpuReplicateAttr op = None ->
     (∀ pred,
        pred ∈ GetPredecessors module op ->
        isa TPUReplicatedInputOp pred = true ->
        ∃ first ds,
          let report :=
            mkDiagnostic Error (op_id (op_data first))
              (NonClusterInvalidPredecessor (getName op) (getName first)) in
          first ∈ GetPredecessors module op /\
          isa TPUReplicatedInputOp first = true /\
          returns (CheckOpsClusterIO module op (metadata_of module)) false [report] /\
          returns (runOnOperation TypeValidForXLA kTpuDevice module) false ds /\
          report ∈ ds) /\
     (∀ parent succ,
        getParentOp module op = Some parent ->
        succ ∈ successors_via module parent ->
        isa TPUReplicatedOutputOp succ = true ->
        ∃ x ds,
          returns (CheckOpsClusterIO module op (metadata_of module)) false [x] /\
          ((∃ first,
              first ∈ GetPredecessors module op /\
              isa TPUReplicatedInputOp first = true /\
              x = mkDiagnostic Error (op_id (op_data first))
                    (NonClusterInvalidPredecessor (getName op) (getName first))) \/
           (∃ out,
              out ∈ successors_via module parent /\
              isa TPUReplicatedOutputOp out = true /\
              x = mkDiagnostic Error (op_id (op_data out))
                    (NonClusterInvalidSuccessor (getName op) (getName out)))) /\
          returns (runOnOperation TypeValidForXLA kTpuDevice module) false ds /\
          x ∈ ds) /\
     (∀ parent,
        getParentOp module op = Some parent ->
        (∀ pred, pred ∈ GetPredecessors module op ->
                 isa TPUReplicatedInputOp pred = false) ->
        (∀ succ, succ ∈ successors_via module parent ->
                 isa TPUReplicatedOutputOp succ = false) ->
        returns (CheckOpsClusterIO module op (metadata_of module)) true [] /\
        ∀ success,
          returns (check_op TypeValidForXLA kTpuDevice module (metadata_of module)
                     op success) success [])) /\
  (outside_clusters TypeValidForXLA kTpuDevice module = true ->
   returns (runOnOperation TypeValidForXLA kTpuDevice module) true []).
Proof.
  intros Hrun. split.
  - intros op Hop Hplain Hattr. split; [|split].
    + intros pred Hpred Hkind.
      destruct (find (isa TPUReplicatedInputOp) (GetPredecessors module op))
        as [first|] eqn:E.
      * destruct (find_elem _ _ _ E) as [Hin Hfirst].
        pose proof (returns_CheckOpsClusterIO_non_cluster_pred module op
                      (metadata_of module) first Hattr E) as Hfail.
        destruct (runOnOperation_fails_on TypeValidForXLA kTpuDevice module op _
                    Hrun Hop Hplain Hfail) as (ds & Hds & Hsub).
        exists first, ds. simpl. repeat split; try assumption. apply Hsub. left.
      * apply list_elem_of_In in Hpred.
        rewrite (find_none _ _ E pred Hpred) in Hkind. discriminate.
    + intros parent succ Hparent Hsucc Hkind.
      destruct (find (isa TPUReplicatedInputOp) (GetPredecessors module op))
        as [first|] eqn:E.
      * destruct (find_elem _ _ _ E) as [Hin Hfirst].
        pose proof (returns_CheckOpsClusterIO_non_cluster_pred module op
                      (metadata_of module) first Hattr E) as Hfail.
        destruct (runOnOperation_fails_on TypeValidForXLA kTpuDevice module op _
                    Hrun Hop Hplain Hfail) as (ds & Hds & Hsub).
        eexists _, ds. split; [exact Hfail|]. split; [|split; [exact Hds|]].
        -- left. exists first. auto.
        -- apply Hsub. left.
      * pose proof (returns_CheckOpsClusterIO_non_cluster_succ module op
                      (metadata_of module) parent Hattr E Hparent) as Hfail.
        rewrite existsb_find in Hfail.
        destruct (find (isa TPUReplicatedOutputOp) (successors_via module parent))
          as [out|] eqn:Eout.
        -- destruct (find_elem _ _ _ Eout) as [Hin Hout].
           destruct (runOnOperation_fails_on TypeValidForXLA kTpuDevice module op _
                       Hrun Hop Hplain Hfail) as (ds & Hds & Hsub).
           eexists _, ds. split; [exact Hfail|]. split; [|split; [exact Hds|]].
           ++ right. exists out. auto.
           ++ apply Hsub. left.
        -- apply list_elem_of_In in Hsucc.
           rewrite (find_none _ _ Eout succ Hsucc) in Hkind. discriminate.
    + intros parent Hparent Hpreds Hsuccs.
      pose proof (returns_CheckOpsClusterIO_outside module op (metadata_of module)
                    parent Hattr Hparent Hpreds Hsuccs) as Hpass.
      split; [exact Hpass|]. intros success.
      apply returns_check_op_pass.
      * exact (no_conflict_outside_clusters _ _ _ _ Hattr).
      * rewrite Hplain. exact Hpass.
  - exact (returns_runOnOperation_outside_clusters TypeValidForXLA kTpuDevice module Hrun).
Qed.

Lemma C7_witness_two_inputs_and_between_partitioned :
  (∃ first ds,
     let op := the_op two_inputs 71 in
     let report :=
       mkDiagnostic Error (op_id (op_data first))
         (NonClusterInvalidPredecessor (getName op) (getName first)) in
     first ∈ GetPredecessors two_inputs op /\
     isa TPUReplicatedInputOp first = true /\
     returns (CheckOpsClusterIO two_inputs op (metadata_of two_inputs)) false [report] /\
     returns (runOnOperation TypeValidForXLA_tf "TPU" two_inputs) false ds /\
     report ∈ ds) /\
  returns (runOnOperation TypeValidForXLA_tf "TPU" between_partitioned) true [].
Proof.
  split.
  - apply (proj1 (proj1 (C7_replicated_neighbours_of_a_plain_non_cluster_operation
                           TypeValidForXLA_tf "TPU" two_inputs eq_refl)
                    (the_op two_inputs 71)
                    (lookupOp_elem two_inputs 71 _ eq_refl) eq_refl eq_refl)
             (the_op two_inputs 41)).
    + apply list_elem_of_In. vm_compute. tauto.
    + vm_compute; reflexivity.
  - apply (proj2 (C7_replicated_neighbours_of_a_plain_non_cluster_operation
                    TypeValidForXLA_tf "TPU" between_partitioned eq_refl) eq_refl).
Defined.

(** C7 as stated fails on an operation that is not plain: the yield of the
    island of the replicated input of Scenario A carries no cluster
    attribute and has the replicated input among its predecessors;
    [CheckOpsClusterIO], were it called on the yield, would fail, and the
    run succeeds without a diagnostic. *)
Lemma C7_counterexample_yield_after_replicated_input :
  let module := scenario_A in
  let op := the_op module 42 in
  let pred := the_op module 41 in
  consistent module = true /\
  lookupOp module 42 = Some op /\
  getName op = Registered YieldOp /\
  plain op = false /\
  getTpuReplicateAttr op = None /\
  getName pred = Registered TPUReplicatedInputOp /\
  GetPredecessors module op = [pred] /\
  CheckOpsClusterIO module op (metadata_of module) fresh_statics
    = Some (false,
            [mkDiagnostic Error 41
               (NonClusterInvalidPredecessor (Registered YieldOp)
                  (Registered TPUReplicatedInputOp))],
            mkStatics true false) /\
  runOnOperation TypeValidForXLA_tf "TPU" module fresh_statics
    = Some (true, [], mkStatics true true).
Proof. repeat split; vm_compute; reflexivity. Qed.

(** ** C10: the arity rules are enforced by delegation only *)

(** C10.  The walk body runs [CheckOpsClusterIO] on plain operations only:
    on an operation that is not plain (one of the six replication and
    partition kinds, an island, a yield, a metadata operation, ...) its first
    statement hands the verdict on and reports nothing, and on one of the
    six kinds so does the whole body, whatever the number of operands and
    results.  The arity rules are reached through [CheckOpsClusterIO] on a
    neighbour only, and there only from an operation in a cluster that has
    metadata: the step on a neighbour of the six kinds passes silently when
    the cluster has none, and reports no arity when the operation is in no
    cluster.  So in a run every arity diagnostic is an error on an operation
    of the six kinds that is a neighbour of a plain operation of the walk
    that carries a non-empty cluster attribute with an entry in the metadata
    map; and from such an operation the rule is enforced: a partitioned
    input before it whose number of operands is not the number of cores per
    replica makes the run fail.  The run succeeds on a module whose cluster
    has two cores per replica and whose partitioned input has one operand,
    when the only plain neighbour of that input carries no cluster
    attribute. *)
Theorem C10_arity_rules_are_reached_by_delegation_only
    (TypeValidForXLA : MlirType -> bool) (kTpuDevice : string) :
  (∀ module metadata_map op success,
     kind_in replicated_io_kinds op = true ->
     returns (check_op TypeValidForXLA kTpuDevice module metadata_map op success)
       success []) /\
  (∀ module metadata_map op success,
     plain op = false ->
     returns (check_cluster_io module metadata_map op success) success []) /\
  (∀ op,
     kind_in replicated_io_kinds op = true \/ isa IslandOp op = true \/
     isa YieldOp op = true \/ isa TPUReplicateMetadataOp op = true ->
     plain op = false) /\
  (∀ module op metadata_map cluster n,
     kind_in replicated_io_kinds n = true ->
     metadata_map !! cluster = None ->
     returns (check_predecessor module op metadata_map true cluster n) true [] /\
     returns (check_successor module op metadata_map true cluster n) true []) /\
  (∀ module op metadata_map cluster n,
     ∃ b1 d1 b2 d2,
       returns (check_predecessor module op metadata_map false cluster n) b1 d1 /\
       returns (check_successor module op metadata_map false cluster n) b2 d2 /\
       Forall (fun x => is_arity_message (diag_message x) = false) (d1 ++ d2)) /\
  (∀ module,
     runnable module = true ->
     ∃ verdict ds,
       returns (runOnOperation TypeValidForXLA kTpuDevice module) verdict ds /\
       Forall (arity_by_delegation module (metadata_of module)) ds) /\
  (∀ module op cluster metadata pred,
     runnable module = true ->
     op ∈ walk module -> plain op = true ->
     getTpuReplicateAttr op = Some cluster -> cluster ≠ "" ->
     metadata_of module !! cluster = Some metadata ->
     pred ∈ GetPredecessors module op ->
     isa TPUPartitionedInputOp pred = true ->
     num_inputs pred ≠ to_int (getNumCoresPerReplica metadata) ->
     ∃ d ds,
       returns (CheckOpsClusterIO module op (metadata_of module)) false d /\
       count_errors d = 1%nat /\
       returns (runOnOperation TypeValidForXLA kTpuDevice module) false ds /\
       ∀ x, x ∈ d -> x ∈ ds) /\
  (let module := between_partitioned in
   let input := the_op module 41 in
   let metadata := the_op module 11 in
   let neighbour := the_op module 71 in
   consistent module = true /\
   runnable module = true /\
   getName input = Registered TPUPartitionedInputOp /\
   metadata_of module !! "c1" = Some metadata /\
   to_int (getNumCoresPerReplica metadata) = 2 /\
   num_inputs input = 1 /\
   ValidatePartitionedInput input 2 fresh_statics
     = Some (false, [mkDiagnostic Error 41 (PartitionedInputsInconsistent 2 1)],
             fresh_statics) /\
   successors_via module (the_op module 40) = [neighbour] /\
   GetPredecessors module input = [] /\
   getTpuReplicateAttr neighbour = None /\
   runOnOperation TypeValidForXLA kTpuDevice module fresh_statics
     = Some (true, [], mkStatics true true)).
Proof.
  split; [|split; [|split; [|split; [|split; [|split; [|split]]]]]].
  - intros module metadata_map op success Hkind.
    destruct (replicated_io_kind_cases op Hkind) as (Hplain & Hinter & Hbook).
    unfold check_op. apply (returns_bind_nil _ _ success).
    + exact (returns_check_cluster_io_structural _ _ _ _ Hplain).
    + pose proof (returns_check_intersection_run TypeValidForXLA kTpuDevice
                    metadata_map op success true [] Hinter) as H.
      rewrite andb_true_r in H. apply H.
      unfold ValidateIntersectionXlaNonXlaOps. rewrite Hbook. apply returns_ret.
  - intros module metadata_map op success Hplain.
    exact (returns_check_cluster_io_structural _ _ _ _ Hplain).
  - intros op [Hkind|[Hkind|[Hkind|Hkind]]].
    + exact (proj1 (replicated_io_kind_cases op Hkind)).
    + apply (isa_not_plain _ _ Hkind). unfold IsTpuRegularOp_ops. set_unfold. tauto.
    + apply (isa_not_plain _ _ Hkind). unfold IsTpuRegularOp_ops. set_unfold. tauto.
    + apply (isa_not_plain _ _ Hkind). unfold IsTpuRegularOp_ops. set_unfold. tauto.
  - intros module op metadata_map cluster n Hkind Hnone.
    destruct (replicated_io_kind_cases n Hkind) as (Hplain & _ & _).
    split.
    + unfold check_predecessor. apply (returns_require_pass _ _ [] true []).
      * exact (no_delegation_without_metadata _ _ _ _ _ Hnone).
      * apply returns_when_skip. apply returns_ret.
    + unfold check_successor. apply (returns_require_pass _ _ [] true []).
      * exact (no_delegation_without_metadata _ _ _ _ _ Hnone).
      * apply (returns_require_pass _ _ [] true []).
        -- apply returns_when_skip. unfold is_regular_of_cluster.
           rewrite <- Hplain. apply returns_IsTpuRegularOp.
        -- apply returns_when_skip. apply returns_ret.
  - intros module op metadata_map cluster n.
    eexists _, _, _, _. split; [|split].
    + apply returns_check_predecessor_non_cluster.
    + apply returns_check_successor_non_cluster.
    + apply Forall_app. split.
      * destruct (isa TPUReplicatedInputOp n); repeat constructor.
      * destruct (isa TPUReplicatedOutputOp n); repeat constructor.
  - intros module Hrun.
    destruct (runOnOperation_contributions TypeValidForXLA kTpuDevice module Hrun)
      as (metadata_map & vds & _ & _ & Hret).
    eexists _, _. split; [exact Hret|].
    exact (returns_emits_only _ _ _ _ Hret
             (arity_runOnOperation TypeValidForXLA kTpuDevice module Hrun)).
  - intros module op cluster metadata pred Hrun Hop Hplain Hattr Hne Hmeta Hpred
      Hkind Harity.
    destruct (returns_CheckOpsClusterIO_step_fails module op (metadata_of module) cluster)
      as [d Hd]; try assumption.
    { intros n Hn. exact (runnable_input_has_parent _ _ Hrun Hn). }
    { apply runnable_op_parent; [exact (runnable_elem _ _ Hrun Hop)|].
      exact (plain_not_isa _ _ Hplain ModuleOp_structural). }
    { left. eexists pred, _. split; [exact Hpred|].
      exact (returns_check_predecessor_partitioned_input _ _ _ _ _ _
               Hmeta Hkind Harity). }
    destruct (runOnOperation_fails_on TypeValidForXLA kTpuDevice module op d
                Hrun Hop Hplain Hd) as (ds & Hds & Hin).
    exists d, ds. split; [exact Hd|]. split; [|split; assumption].
    exact (one_error_of_CheckOpsClusterIO _ _ _ _ Hd).
  - repeat split; vm_compute; reflexivity.
Qed.

Lemma C10_witness_partitioned_input :
  returns (check_op TypeValidForXLA_tf "TPU" between_partitioned
             (metadata_of between_partitioned) (the_op between_partitioned 41) true)
    true [] /\
  (∃ d ds,
     returns (CheckOpsClusterIO cross_cluster (the_op cross_cluster 71)
                (metadata_of cross_cluster)) false d /\
     count_errors d = 1%nat /\
     returns (runOnOperation TypeValidForXLA_tf "TPU" cross_cluster) false ds /\
     ∀ x, x ∈ d -> x ∈ ds).
Proof.
  pose proof (C10_arity_rules_are_reached_by_delegation_only TypeValidForXLA_tf "TPU")
    as (Hkinds & _ & _ & _ & _ & _ & Henforced & _).
  split.
  - apply Hkinds. vm_compute; reflexivity.
  - apply (Henforced cross_cluster (the_op cross_cluster 71) "c1"
             (the_op cross_cluster 11) (the_op cross_cluster 41)).
    + vm_compute; reflexivity.
    + apply (lookupOp_elem _ 71). vm_compute; reflexivity.
    + vm_compute; reflexivity.
    + vm_compute; reflexivity.
    + discriminate.
    + vm_compute; reflexivity.
    + apply list_elem_of_In. vm_compute. tauto.
    + vm_compute; reflexivity.
    + vm_compute. discriminate.
Defined.
